(** * Training, validation and checkpoint notebooks (intro-to-pytorch)

    A shallow embedding of the code cells of the notebooks
    "Training Neural Networks", "Inference and Validation" and
    "Saving and Loading Models", together with the framework operations
    those cells call.

    Conventions.
    - Python exceptions are values of [exn]; a computation that may raise
      returns a [result].
    - A tensor is its size list and its row-major storage.
    - Numbers are exact: rationals where the code only adds, compares and
      divides, real numbers where it takes exponentials and logarithms.
      Rounding of the 32-bit floats is not modelled.  The one non-number a
      mean can produce, [nan] on an empty tensor, is kept. *)

From Stdlib Require Import List String Ascii Arith ZArith QArith Bool Lia.
From Stdlib Require Import Reals Lra.
From Stdlib Require DecimalString DecimalNat.
Import ListNotations.

Close Scope R_scope.
Close Scope Q_scope.
Close Scope Z_scope.
Open Scope string_scope.
Open Scope list_scope.
Open Scope nat_scope.

Set Implicit Arguments.

(** [length] and [concat] are those of lists throughout. *)
Abbreviation length := List.length (only parsing).
Abbreviation concat := List.concat (only parsing).

(* ================================================================== *)
(** * Part I.  Definitions *)
(* ================================================================== *)

(** ** Exceptions and results *)

Inductive exn : Type :=
| RuntimeError
| IndexError
| ValueError
| ZeroDivisionError
| FileNotFoundError
| KeyError (key : string)
| TypeError
| AttributeError (attr : string)
| NotImplementedError
| NotModelled.

Inductive result (A : Type) : Type :=
| Ok (a : A)
| Raise (e : exn).

Arguments Ok {A} a.
Arguments Raise {A} e.

Definition rbind {A B} (r : result A) (k : A -> result B) : result B :=
  match r with
  | Ok a => k a
  | Raise e => Raise e
  end.

Declare Scope result_scope.
Delimit Scope result_scope with result.
Notation "x <- e ;; k" := (rbind e (fun x => k))
  (at level 61, e at next level, right associativity) : result_scope.
Notation "' pat <- e ;; k" := (rbind e (fun x => match x with pat => k end))
  (at level 61, pat pattern, e at next level, right associativity) : result_scope.

(** ** Tensors *)

Record tensor (A : Type) : Type := Tensor { shape : list nat; data : list A }.

Arguments Tensor {A} shape data.

Definition numel (sh : list nat) : nat := fold_right Nat.mul 1 sh.

(** A tensor is well formed when its storage has as many entries as its
    sizes announce. *)
Definition wf_tensor {A} (t : tensor A) : Prop :=
  length (data t) = numel (shape t).

Definition shape_eqb (s1 s2 : list nat) : bool :=
  if list_eq_dec Nat.eq_dec s1 s2 then true else false.

(** [t.view(s1, ..., sk)]: the same storage under new sizes; the number of
    elements has to agree. *)
Definition view {A} (t : tensor A) (sh : list nat) : result (tensor A) :=
  if numel (shape t) =? numel sh then Ok (Tensor sh (data t))
  else Raise RuntimeError.

(** [t.view(n, -1)]: the second size is inferred.  The framework refuses
    the inference when [n] is 0 and when [n] does not divide the number of
    elements. *)
Definition view_infer {A} (t : tensor A) (n : nat) : result (tensor A) :=
  if n =? 0 then Raise RuntimeError
  else if numel (shape t) mod n =? 0
       then Ok (Tensor [n; numel (shape t) / n] (data t))
       else Raise RuntimeError.

(** [t.shape[0]] *)
Definition shape0 {A} (t : tensor A) : result nat :=
  match shape t with
  | [] => Raise IndexError
  | n :: _ => Ok n
  end.

(** [x.view(x.shape[0], -1)]: every example of the batch becomes one row. *)
Definition flattened {A} (x : tensor A) : result (tensor A) :=
  (n <- shape0 x ;; view_infer x n)%result.

(** [k] consecutive pieces of [m] entries each. *)
Fixpoint chunks {A} (k m : nat) (xs : list A) : list (list A) :=
  match k with
  | 0 => []
  | S k' => firstn m xs :: chunks k' m (skipn m xs)
  end.

(** The rows of a 2-dimensional tensor. *)
Definition rows {A} (t : tensor A) : list (list A) :=
  match shape t with
  | [n; c] => chunks n c (data t)
  | _ => []
  end.

Definition map2 {A B C} (f : A -> B -> C) (xs : list A) (ys : list B) : list C :=
  map (fun p => f (fst p) (snd p)) (combine xs ys).

(** *** Top-1 of a row

    [best_from ltb bi b i xs] scans [xs], whose first entry has index [i],
    and keeps the best value seen and its index.  A later entry replaces
    the current best only when it is strictly larger, so among equal maxima
    the first wins (the framework leaves the choice open). *)
Fixpoint best_from {A} (ltb : A -> A -> bool) (bi : nat) (b : A) (i : nat)
         (xs : list A) : A * nat :=
  match xs with
  | [] => (b, bi)
  | x :: xs' =>
      if ltb b x then best_from ltb i x (S i) xs'
      else best_from ltb bi b (S i) xs'
  end.

Definition top1 {A} (ltb : A -> A -> bool) (row : list A) : option (A * nat) :=
  match row with
  | [] => None
  | x :: xs => Some (best_from ltb 0 x 1 xs)
  end.

Fixpoint all_some {A} (xs : list (option A)) : option (list A) :=
  match xs with
  | [] => Some []
  | None :: _ => None
  | Some a :: xs' =>
      match all_some xs' with
      | Some l => Some (a :: l)
      | None => None
      end
  end.

(** [t.topk(1, dim=1)] on a 2-dimensional tensor: the largest entry of
    every row and the column where it stands, both of size [(n, 1)].
    A tensor with fewer than two dimensions has no dimension 1; a row
    without entries has no largest one.  Tensors of more than two
    dimensions do not occur in the notebooks and are left out. *)
Definition topk1 {A} (ltb : A -> A -> bool) (t : tensor A)
  : result (tensor A * tensor nat) :=
  match shape t with
  | [] | [_] => Raise IndexError
  | [n; c] =>
      match all_some (map (top1 ltb) (chunks n c (data t))) with
      | Some best => Ok (Tensor [n; 1] (map fst best), Tensor [n; 1] (map snd best))
      | None => Raise RuntimeError
      end
  | _ => Raise NotModelled
  end.

(** *** Broadcasting

    Sizes are aligned from the last dimension; two sizes are compatible
    when they are equal or one of them is 1. *)
Fixpoint broadcast_rev (r1 r2 : list nat) : option (list nat) :=
  match r1, r2 with
  | [], r => Some r
  | r, [] => Some r
  | a :: r1', b :: r2' =>
      match broadcast_rev r1' r2' with
      | None => None
      | Some r =>
          if a =? b then Some (a :: r)
          else if a =? 1 then Some (b :: r)
          else if b =? 1 then Some (a :: r)
          else None
      end
  end.

Definition broadcast_shapes (s1 s2 : list nat) : option (list nat) :=
  option_map (@rev nat) (broadcast_rev (rev s1) (rev s2)).

Definition pad_shape (k : nat) (s : list nat) : list nat :=
  repeat 1 (k - length s) ++ s.

(** The storage of a tensor of sizes [src] repeated to sizes [out]
    ([src] already padded to the length of [out]). *)
Fixpoint expand {A} (src out : list nat) (xs : list A) : list A :=
  match src, out with
  | d :: src', D :: out' =>
      if d =? D
      then flat_map (expand src' out') (chunks d (numel src') xs)
      else concat (repeat (expand src' out' xs) D)
  | _, _ => xs
  end.

(** [a == b] on tensors: entrywise after broadcasting. *)
Definition tensor_eq {A} (eqb : A -> A -> bool) (a b : tensor A)
  : result (tensor bool) :=
  match broadcast_shapes (shape a) (shape b) with
  | None => Raise RuntimeError
  | Some out =>
      let k := length out in
      Ok (Tensor out
            (map2 eqb (expand (pad_shape k (shape a)) out (data a))
                      (expand (pad_shape k (shape b)) out (data b))))
  end.

(** ** Scalars

    A value of a float tensor or of a Python float: a rational or [nan]. *)
Inductive scalar : Type :=
| nan
| fin (q : Q).

Definition sadd (a b : scalar) : scalar :=
  match a, b with
  | fin x, fin y => fin (x + y)%Q
  | _, _ => nan
  end.

Definition Qltb (x y : Q) : bool := negb (Qle_bool y x).

Definition of_nat_Q (n : nat) : Q := inject_Z (Z.of_nat n).

Definition Qsum (xs : list Q) : Q := fold_right Qplus 0%Q xs.

(** [equals.type(torch.FloatTensor)] *)
Definition type_float (t : tensor bool) : tensor Q :=
  Tensor (shape t) (map (fun b : bool => if b then 1%Q else 0%Q) (data t)).

(** [torch.mean(t)]: the sum of the entries over their number; [nan] on a
    tensor without entries. *)
Definition mean (t : tensor Q) : scalar :=
  match data t with
  | [] => nan
  | _ => fin (Qsum (data t) / of_nat_Q (length (data t)))%Q
  end.

(** [x / len(loader)] as the loops take it.  When the loader has no batch
    the accumulator [x] is still the Python int 0 it started as, and the
    division of an int by 0 raises. *)
Definition py_div (x : scalar) (n : nat) : result scalar :=
  match n with
  | 0 => Raise ZeroDivisionError
  | _ =>
      match x with
      | nan => Ok nan
      | fin q => Ok (fin (q / of_nat_Q n)%Q)
      end
  end.

(** *** The accuracy of one batch

    Cells 4 to 6 of "Inference and Validation":
<<
    top_p, top_class = ps.topk(1, dim=1)
    equals = top_class == labels.view( *top_class.shape)
    accuracy = torch.mean(equals.type(torch.FloatTensor))
>> *)
Definition equals_of (top_class labels : tensor nat) : result (tensor bool) :=
  (lv <- view labels (shape top_class) ;;
   tensor_eq Nat.eqb top_class lv)%result.

Definition accuracy (ps : tensor Q) (labels : tensor nat) : result scalar :=
  ('(top_p, top_class) <- topk1 Qltb ps ;;
   equals <- equals_of top_class labels ;;
   Ok (mean (type_float equals)))%result.

(** What the text of the notebook warns against: the comparison without
    the [view]. *)
Definition equals_unviewed (top_class labels : tensor nat) : result (tensor bool) :=
  tensor_eq Nat.eqb top_class labels.

(** ** Data sets and loaders *)

(** A sample: the pixel values of an image and its class. *)
Definition sample : Type := (list Q * nat)%type.

(** A batch as a loader yields it: [(images, labels)]. *)
Definition batch : Type := (tensor Q * tensor nat)%type.

Definition collate (item_shape : list nat) (ss : list sample) : batch :=
  (Tensor (length ss :: item_shape) (concat (map fst ss)),
   Tensor [length ss] (map snd ss)).

(** Consecutive groups of [bs] entries; the last group keeps what is left
    over.  The fuel is the length of the list, enough for every list. *)
Fixpoint batched_fuel {X} (fuel bs : nat) (xs : list X) : list (list X) :=
  match fuel with
  | 0 => []
  | S fuel' =>
      match xs with
      | [] => []
      | _ => firstn bs xs :: batched_fuel fuel' bs (skipn bs xs)
      end
  end.

Definition batched {X} (bs : nat) (xs : list X) : list (list X) :=
  batched_fuel (length xs) bs xs.

(** One pass over [torch.utils.data.DataLoader(set, batch_size, shuffle=True)].
    [order] is the data set in the order the shuffle of this pass gives it.
    [len(loader)] is the length of the list of batches. *)
Definition DataLoader (item_shape : list nat) (order : list sample)
           (batch_size : nat) : result (list batch) :=
  if batch_size =? 0 then Raise ValueError
  else Ok (map (collate item_shape) (batched batch_size order)).

(** ** Modules, state dicts and checkpoints *)

Fixpoint lookup {V} (k : string) (d : list (string * V)) : option V :=
  match d with
  | [] => None
  | (k', v) :: d' => if String.eqb k k' then Some v else lookup k d'
  end.

Definition has_key {V} (k : string) (d : list (string * V)) : bool :=
  match lookup k d with
  | Some _ => true
  | None => false
  end.

Definition nat_to_string (n : nat) : string :=
  DecimalString.NilEmpty.string_of_uint (Nat.to_uint n).

(** A string without a dot, as the decimal writing of a number is. *)
Fixpoint no_dot (s : string) : Prop :=
  match s with
  | EmptyString => True
  | String ch s' => ch <> "."%char /\ no_dot s'
  end.

(** The key of a parameter of layer [k] of a module list. *)
Definition list_key (prefix : string) (k : nat) (field : string) : string :=
  ((prefix ++ nat_to_string k ++ ".") ++ field)%string.

Section Modules.

(** The type of the entries of the parameter tensors. *)
Variable A : Type.

(** The layers the notebooks build. *)
Inductive layer : Type :=
| Linear (in_features out_features : nat) (weight bias : tensor A)
| ReLU
| LogSoftmax (dim : nat)
| Dropout (p : Q).

(** What an attribute of a module object can hold: a layer, or an
    [nn.ModuleList] of layers. *)
Inductive attr : Type :=
| AModule (l : layer)
| AModuleList (ls : list layer).

(** A module object: its registered submodules in the order of their
    registration, and its mode. *)
Record Module : Type := mkModule {
  modules : list (string * attr);
  training : bool
}.

(** [self.name] *)
Definition getattr (self : Module) (name : string) : result attr :=
  match lookup name (modules self) with
  | Some a => Ok a
  | None => Raise (AttributeError name)
  end.

(** *** State dicts *)

Definition state_dict_t : Type := list (string * tensor A).

Definition layer_state (prefix : string) (l : layer) : state_dict_t :=
  match l with
  | Linear _ _ w b => [((prefix ++ "weight")%string, w); ((prefix ++ "bias")%string, b)]
  | _ => []
  end.

Fixpoint list_state (prefix : string) (k : nat) (ls : list layer) : state_dict_t :=
  match ls with
  | [] => []
  | l :: ls' =>
      layer_state (prefix ++ nat_to_string k ++ ".")%string l
        ++ list_state prefix (S k) ls'
  end.

Definition attr_state (name : string) (a : attr) : state_dict_t :=
  match a with
  | AModule l => layer_state (name ++ ".")%string l
  | AModuleList ls => list_state (name ++ ".")%string 0 ls
  end.

(** [model.state_dict()] *)
Definition state_dict (m : Module) : state_dict_t :=
  flat_map (fun na => attr_state (fst na) (snd na)) (modules m).

(** *** [load_state_dict]

    The framework walks over the parameters of the module.  A parameter
    whose key is in the state dict with the same sizes is overwritten by
    [param.copy_(input_param)]; a key with other sizes adds a
    "size mismatch" message; a key that is absent is a missing key; a key
    of the state dict that the module does not have is unexpected.  With
    the default [strict=True] every one of these is an error message, and
    [if len(error_msgs) > 0: raise RuntimeError].  The copies made before
    the error is raised stay. *)

Definition load_param (sd : state_dict_t) (key : string) (p : tensor A) : tensor A :=
  match lookup key sd with
  | Some t => if shape_eqb (shape t) (shape p) then Tensor (shape p) (data t) else p
  | None => p
  end.

Definition load_layer (sd : state_dict_t) (prefix : string) (l : layer) : layer :=
  match l with
  | Linear i o w b =>
      Linear i o (load_param sd (prefix ++ "weight")%string w)
                 (load_param sd (prefix ++ "bias")%string b)
  | _ => l
  end.

Fixpoint load_list (sd : state_dict_t) (prefix : string) (k : nat)
         (ls : list layer) : list layer :=
  match ls with
  | [] => []
  | l :: ls' =>
      load_layer sd (prefix ++ nat_to_string k ++ ".")%string l
        :: load_list sd prefix (S k) ls'
  end.

Definition load_attr (sd : state_dict_t) (name : string) (a : attr) : attr :=
  match a with
  | AModule l => AModule (load_layer sd (name ++ ".")%string l)
  | AModuleList ls => AModuleList (load_list sd (name ++ ".")%string 0 ls)
  end.

Definition load_modules (sd : state_dict_t) (ms : list (string * attr))
  : list (string * attr) :=
  map (fun na => (fst na, load_attr sd (fst na) (snd na))) ms.

Record IncompatibleKeys : Type := mkIncompatibleKeys {
  missing_keys : list string;
  unexpected_keys : list string
}.

Definition size_mismatch (sd : state_dict_t) (kp : string * tensor A) : bool :=
  match lookup (fst kp) sd with
  | Some t => negb (shape_eqb (shape t) (shape (snd kp)))
  | None => false
  end.

(** [model.load_state_dict(state_dict)]: the outcome and the module as the
    call leaves it. *)
Definition load_state_dict (m : Module) (sd : state_dict_t)
  : result IncompatibleKeys * Module :=
  let own := state_dict m in
  let m' := mkModule (load_modules sd (modules m)) (training m) in
  let mismatched := filter (size_mismatch sd) own in
  let unexpected := filter (fun k => negb (has_key k own)) (map fst sd) in
  let missing := filter (fun k => negb (has_key k sd)) (map fst own) in
  match mismatched, unexpected, missing with
  | [], [], [] => (Ok (mkIncompatibleKeys missing unexpected), m')
  | _, _, _ => (Raise RuntimeError, m')
  end.

(** The keys of a state dict with the sizes recorded under them. *)
Definition recorded (sd : state_dict_t) : list (string * list nat) :=
  map (fun kt => (fst kt, shape (snd kt))) sd.

(** The state dict records, key by key, the sizes of the parameters of the
    module: both have the same keys, and under every key the same sizes. *)
Definition matches_recorded (m : Module) (sd : state_dict_t) : Prop :=
  forall key, lookup key (recorded sd) = lookup key (recorded (state_dict m)).

(** *** Building layers

    [rand name sizes] stands for the values the random initialiser of the
    framework gives to the parameter [name] of sizes [sizes]. *)
Variable rand : string -> list nat -> list A.

(** [nn.Linear(i, o)], registered under [name]. *)
Definition nn_Linear (name : string) (i o : nat) : layer :=
  Linear i o (Tensor [o; i] (rand (name ++ ".weight")%string [o; i]))
             (Tensor [o] (rand (name ++ ".bias")%string [o])).

(** Modelled from the spec: the hidden layers of [fc_model.Network], which
    is not among the sources.  Layer [k] goes from the size before it,
    [prev], to hidden size [k]. *)
Fixpoint hidden_from (k prev : nat) (hs : list nat) : list layer :=
  match hs with
  | [] => []
  | h :: hs' =>
      nn_Linear ("hidden_layers." ++ nat_to_string k)%string prev h
        :: hidden_from (S k) h hs'
  end.

(** Modelled from the spec: the module [fc_model] is not among the
    sources.  [fc_model.Network(input_size, output_size, hidden_layers)]
    is rebuilt from what the notebook prints of it: a [ModuleList] named
    [hidden_layers] of linear layers, the first from [input_size] to the
    first hidden size and each next one from the previous hidden size to
    its own; a linear layer [output] from the last hidden size to
    [output_size]; a dropout layer with probability 0.5; and the state-dict
    keys [hidden_layers.k.weight], [hidden_layers.k.bias],
    [output.weight], [output.bias].  The first layer needs a first hidden
    size, so an empty list of hidden sizes is an [IndexError]. *)
Definition Network (input_size output_size : nat) (hidden_layers : list nat)
  : result Module :=
  match hidden_layers with
  | [] => Raise IndexError
  | _ =>
      Ok (mkModule
            [("hidden_layers", AModuleList (hidden_from 0 input_size hidden_layers));
             ("output", AModule (nn_Linear "output" (last hidden_layers 0) output_size));
             ("dropout", AModule (Dropout (1 # 2)))]
            true)
  end.

(** *** Python values that go into a checkpoint file *)

#[local] Set Warnings "-register-all".
Inductive pyval : Type :=
| PInt (n : nat)
| PIntList (l : list nat)
| PTensor (t : tensor A)
| PStateDict (sd : state_dict_t)
| PDict (d : list (string * pyval)).

(** [v[key]] *)
Definition getitem (v : pyval) (key : string) : result pyval :=
  match v with
  | PDict d =>
      match lookup key d with
      | Some x => Ok x
      | None => Raise (KeyError key)
      end
  | PStateDict sd =>
      match lookup key sd with
      | Some t => Ok (PTensor t)
      | None => Raise (KeyError key)
      end
  | _ => Raise TypeError
  end.

Definition as_int (v : pyval) : result nat :=
  match v with PInt n => Ok n | _ => Raise TypeError end.

Definition as_int_list (v : pyval) : result (list nat) :=
  match v with PIntList l => Ok l | _ => Raise TypeError end.

Definition as_state_dict (v : pyval) : result state_dict_t :=
  match v with PStateDict sd => Ok sd | _ => Raise TypeError end.

(** The file system, as far as [torch.save] and [torch.load] use it. *)
Definition files : Type := string -> option pyval.

Definition torch_save (obj : pyval) (path : string) (fs : files) : files :=
  fun p => if String.eqb p path then Some obj else fs p.

Definition torch_load (fs : files) (path : string) : result pyval :=
  match fs path with
  | Some obj => Ok obj
  | None => Raise FileNotFoundError
  end.

(** [each.out_features] *)
Definition out_features_of (l : layer) : result nat :=
  match l with
  | Linear _ o _ _ => Ok o
  | _ => Raise (AttributeError "out_features")
  end.

Fixpoint map_result {X Y} (f : X -> result Y) (xs : list X) : result (list Y) :=
  match xs with
  | [] => Ok []
  | x :: xs' =>
      (y <- f x ;; ys <- map_result f xs' ;; Ok (y :: ys))%result
  end.

(** Iterating over an attribute: a [ModuleList] gives its layers, a single
    layer is not iterable. *)
Definition iterate (a : attr) : result (list layer) :=
  match a with
  | AModuleList ls => Ok ls
  | AModule _ => Raise TypeError
  end.

(** Cell 11 of "Saving and Loading Models":
<<
  checkpoint = {'input_size': 784,
                'output_size': 10,
                'hidden_layers': [each.out_features for each in model.hidden_layers],
                'state_dict': model.state_dict()}
>> *)
Definition checkpoint (model : Module) : result pyval :=
  (hl <- getattr model "hidden_layers" ;;
   ls <- iterate hl ;;
   sizes <- map_result out_features_of ls ;;
   Ok (PDict [("input_size", PInt 784);
              ("output_size", PInt 10);
              ("hidden_layers", PIntList sizes);
              ("state_dict", PStateDict (state_dict model))]))%result.

(** The cell then runs [torch.save(checkpoint, 'checkpoint.pth')]. *)
Definition save_checkpoint (model : Module) (path : string) (fs : files)
  : result files :=
  (c <- checkpoint model ;; Ok (torch_save c path fs))%result.

(** Cell 12:
<<
  def load_checkpoint(filepath):
      checkpoint = torch.load(filepath)
      model = fc_model.Network(checkpoint['input_size'],
                               checkpoint['output_size'],
                               checkpoint['hidden_layers'])
      model.load_state_dict(checkpoint['state_dict'])
      return model
>> *)
Definition load_checkpoint (fs : files) (filepath : string) : result Module :=
  (checkpoint <- torch_load fs filepath ;;
   a1 <- getitem checkpoint "input_size" ;;
   a2 <- getitem checkpoint "output_size" ;;
   a3 <- getitem checkpoint "hidden_layers" ;;
   input_size <- as_int a1 ;;
   output_size <- as_int a2 ;;
   hidden_layers <- as_int_list a3 ;;
   model <- Network input_size output_size hidden_layers ;;
   a4 <- getitem checkpoint "state_dict" ;;
   sd <- as_state_dict a4 ;;
   let (outcome, model') := load_state_dict model sd in
   _ <- outcome ;;
   Ok model')%result.

(** The architecture of a network, read back from the object. *)
Definition in_features_of (l : layer) : result nat :=
  match l with
  | Linear i _ _ _ => Ok i
  | _ => Raise (AttributeError "in_features")
  end.

Definition as_layer (a : attr) : result layer :=
  match a with
  | AModule l => Ok l
  | AModuleList _ => Raise TypeError
  end.

Definition architecture (model : Module) : result (nat * nat * list nat) :=
  (hl <- getattr model "hidden_layers" ;;
   ls <- iterate hl ;;
   sizes <- map_result out_features_of ls ;;
   first <- match ls with [] => Raise IndexError | l :: _ => in_features_of l end ;;
   out <- getattr model "output" ;;
   lout <- as_layer out ;;
   o <- out_features_of lout ;;
   Ok (first, o, sizes))%result.

End Modules.

Arguments ReLU {A}.
Arguments LogSoftmax {A} dim.
Arguments Dropout {A} p.
Arguments PInt {A} n.
Arguments PIntList {A} l.

(** ** The framework seen from the training loops

    The loops of the notebooks drive the framework through a handful of
    calls.  What these calls compute belongs to the framework; the loops
    only fix their order and what is done with their results. *)

Class Framework : Type := {
  (** the values of all weights and biases of the model *)
  params : Type;
  (** the accumulated gradients of the parameters *)
  grads : Type;
  (** what the optimizer keeps from step to step *)
  optstate : Type;
  (** the state of the random generator (dropout masks) *)
  rngstate : Type;
  (** [model(images)] in the given mode *)
  forward : params -> bool -> rngstate -> tensor Q -> result (tensor Q) * rngstate;
  (** [criterion(output, labels)] *)
  criterion : tensor Q -> tensor nat -> result scalar;
  (** the function [torch.exp] applies to every entry *)
  fexp : Q -> Q;
  (** the gradient of the loss of one batch with respect to the parameters *)
  autograd : params -> bool -> rngstate -> tensor Q -> tensor nat -> grads;
  grads_zero : grads;
  grads_add : grads -> grads -> grads;
  (** [optimizer.step()] *)
  opt_step : optstate -> params -> grads -> params * optstate
}.

(** The calls the loops make, in the order they are made. *)
Inductive event : Type :=
| EvZeroGrad
| EvForward
| EvLoss (l : scalar)
| EvBackward
| EvStep.

(** What the loops print (before the formatting to three decimals). *)
Inductive line : Type :=
| LTraining (train_loss : scalar)
| LEpoch (e epochs : nat) (train_loss test_loss test_accuracy : scalar)
| LDropout (train_loss test_loss test_accuracy : scalar).

Section Loops.

Context {F : Framework}.

Record world : Type := mkWorld {
  w_params : params;
  w_grads : grads;
  w_opt : optstate;
  w_rng : rngstate;
  w_training : bool;
  w_grad_enabled : bool;
  w_log : list event;
  w_stdout : list line
}.

(** A statement runs in a world, may raise, and leaves a world. *)
Definition M (X : Type) : Type := world -> result X * world.

Definition ret {X} (x : X) : M X := fun w => (Ok x, w).

Definition bind {X Y} (c : M X) (k : X -> M Y) : M Y :=
  fun w =>
    match c w with
    | (Ok x, w') => k x w'
    | (Raise e, w') => (Raise e, w')
    end.

Definition lift {X} (r : result X) : M X := fun w => (r, w).

Declare Scope M_scope.
Delimit Scope M_scope with M.
Notation "x <- c ;; k" := (bind c (fun x => k))
  (at level 61, c at next level, right associativity) : M_scope.
Notation "c1 ;; c2" := (bind c1 (fun _ => c2))
  (at level 61, right associativity) : M_scope.

Definition emit (ev : event) (w : world) : world :=
  mkWorld (w_params w) (w_grads w) (w_opt w) (w_rng w) (w_training w)
          (w_grad_enabled w) (w_log w ++ [ev]) (w_stdout w).

(** [optimizer.zero_grad()] *)
Definition zero_grad : M unit :=
  fun w =>
    (Ok tt,
     emit EvZeroGrad
       (mkWorld (w_params w) grads_zero (w_opt w) (w_rng w) (w_training w)
                (w_grad_enabled w) (w_log w) (w_stdout w))).

(** [model(images)] and [model.forward(images)].  The value that comes
    with the output is the generator state before the call, which fixes the
    masks the backward pass has to reuse. *)
Definition model_forward (images : tensor Q) : M (tensor Q * rngstate) :=
  fun w =>
    let (r, g') := forward (w_params w) (w_training w) (w_rng w) images in
    let w' := emit EvForward
                (mkWorld (w_params w) (w_grads w) (w_opt w) g' (w_training w)
                         (w_grad_enabled w) (w_log w) (w_stdout w)) in
    match r with
    | Ok out => (Ok (out, w_rng w), w')
    | Raise e => (Raise e, w')
    end.

(** [criterion(output, labels)] *)
Definition criterion_call (output : tensor Q) (labels : tensor nat) : M scalar :=
  fun w =>
    match criterion output labels with
    | Ok l => (Ok l, emit (EvLoss l) w)
    | Raise e => (Raise e, w)
    end.

(** [loss.backward()]: the gradients of the loss are added to the
    accumulated ones.  A loss computed with gradients switched off has no
    graph to go back through. *)
Definition loss_backward (g0 : rngstate) (images : tensor Q) (labels : tensor nat)
  : M unit :=
  fun w =>
    if w_grad_enabled w then
      (Ok tt,
       emit EvBackward
         (mkWorld (w_params w)
                  (grads_add (w_grads w)
                     (autograd (w_params w) (w_training w) g0 images labels))
                  (w_opt w) (w_rng w) (w_training w) (w_grad_enabled w)
                  (w_log w) (w_stdout w)))
    else (Raise RuntimeError, w).

(** [optimizer.step()] *)
Definition optimizer_step : M unit :=
  fun w =>
    let (p', o') := opt_step (w_opt w) (w_params w) (w_grads w) in
    (Ok tt,
     emit EvStep
       (mkWorld p' (w_grads w) o' (w_rng w) (w_training w)
                (w_grad_enabled w) (w_log w) (w_stdout w))).

(** [model.eval()] and [model.train()] *)
Definition model_mode (mode : bool) : M unit :=
  fun w =>
    (Ok tt,
     mkWorld (w_params w) (w_grads w) (w_opt w) (w_rng w) mode
             (w_grad_enabled w) (w_log w) (w_stdout w)).

Definition set_grad_enabled (flag : bool) (w : world) : world :=
  mkWorld (w_params w) (w_grads w) (w_opt w) (w_rng w) (w_training w)
          flag (w_log w) (w_stdout w).

(** [with torch.no_grad(): body]: gradients are off inside and are back to
    what they were on the way out, also when [body] raises. *)
Definition with_no_grad {X} (body : M X) : M X :=
  fun w =>
    let (r, w') := body (set_grad_enabled false w) in
    (r, set_grad_enabled (w_grad_enabled w) w').

Definition print (l : line) : M unit :=
  fun w =>
    (Ok tt,
     mkWorld (w_params w) (w_grads w) (w_opt w) (w_rng w) (w_training w)
             (w_grad_enabled w) (w_log w) (w_stdout w ++ [l])).

(** [torch.exp(t)] *)
Definition torch_exp (t : tensor Q) : tensor Q :=
  Tensor (shape t) (map fexp (data t)).

(** [for x in xs: body], with the variables the body updates passed along. *)
Fixpoint for_each {X S} (body : X -> S -> M S) (xs : list X) (s : S) : M S :=
  match xs with
  | [] => ret s
  | x :: xs' => bind (body x s) (for_each body xs')
  end.

(** *** "Training Neural Networks", last training cell
<<
  for e in range(epochs):
      running_loss = 0
      for images, labels in trainloader:
          images = images.view(images.shape[0], -1)
          optimizer.zero_grad()
          output = model(images)
          loss = criterion(output, labels)
          loss.backward()
          optimizer.step()
          running_loss += loss.item()
      else:
          print(f"Training loss: {running_loss/len(trainloader)}")
>> *)
Definition training_step_flat (b : batch) (running_loss : scalar) : M scalar :=
  let (images, labels) := b in
  (n <- lift (shape0 images) ;;
   images <- lift (view_infer images n) ;;
   zero_grad ;;
   og <- model_forward images ;;
   loss <- criterion_call (fst og) labels ;;
   loss_backward (snd og) images labels ;;
   optimizer_step ;;
   ret (sadd running_loss loss))%M.

Definition epoch_flat (trainloader : list batch) : M unit :=
  (running_loss <- for_each training_step_flat trainloader (fin 0) ;;
   l <- lift (py_div running_loss (length trainloader)) ;;
   print (LTraining l))%M.

(** *** "Inference and Validation": the training batches of both loops
<<
      for images, labels in trainloader:
          optimizer.zero_grad()
          log_ps = model(images)
          loss = criterion(log_ps, labels)
          loss.backward()
          optimizer.step()
          running_loss += loss.item()
>> *)
Definition training_step (b : batch) (running_loss : scalar) : M scalar :=
  let (images, labels) := b in
  (zero_grad ;;
   og <- model_forward images ;;
   loss <- criterion_call (fst og) labels ;;
   loss_backward (snd og) images labels ;;
   optimizer_step ;;
   ret (sadd running_loss loss))%M.

Definition training_pass (trainloader : list batch) : M scalar :=
  for_each training_step trainloader (fin 0).

(** The validation pass of the first loop:
<<
      test_loss = 0
      accuracy = 0
      with torch.no_grad():
          for images, labels in testloader:
              log_ps = model.forward(images)
              test_loss += criterion(log_ps, labels)
              ps = torch.exp(log_ps)
              top_p, top_class = ps.topk(1, dim=1)
              equals = top_class == labels.view( *top_class.shape)
              accuracy += torch.mean(equals.type(torch.FloatTensor))
>> *)
Definition validation_step (b : batch) (vars : scalar * scalar) : M (scalar * scalar) :=
  let (images, labels) := b in
  let (test_loss, accuracy) := vars in
  (og <- model_forward images ;;
   let log_ps := fst og in
   l <- criterion_call log_ps labels ;;
   let test_loss := sadd test_loss l in
   let ps := torch_exp log_ps in
   tk <- lift (topk1 Qltb ps) ;;
   let top_class := snd tk in
   lv <- lift (view labels (shape top_class)) ;;
   equals <- lift (tensor_eq Nat.eqb top_class lv) ;;
   ret (test_loss, sadd accuracy (mean (type_float equals))))%M.

Definition validation_pass (testloader : list batch) : M (scalar * scalar) :=
  with_no_grad (for_each validation_step testloader (fin 0, fin 0)).

(** The end of an epoch of the first loop:
<<
      train_losses.append(running_loss/len(trainloader))
      test_losses.append(test_loss/len(testloader))
      print('Epoch: {}/{}'.format(e+1, epochs),
            'Training losses: {:.3f}'.format(running_loss/len(trainloader)),
            'Test losses: {:.3f}'.format(test_loss/len(testloader)),
            'Test Accuracy: {:.3f}'.format(accuracy/len(testloader)))
>> *)
Definition report (e epochs : nat) (trainloader testloader : list batch)
           (running_loss test_loss accuracy : scalar)
           (lists : list scalar * list scalar) : M (list scalar * list scalar) :=
  (tl <- lift (py_div running_loss (length trainloader)) ;;
   vl <- lift (py_div test_loss (length testloader)) ;;
   acc <- lift (py_div accuracy (length testloader)) ;;
   print (LEpoch (e + 1) epochs tl vl acc) ;;
   ret (fst lists ++ [tl], snd lists ++ [vl]))%M.

Definition epoch (e epochs : nat) (trainloader testloader : list batch)
           (lists : list scalar * list scalar) : M (list scalar * list scalar) :=
  (running_loss <- training_pass trainloader ;;
   v <- validation_pass testloader ;;
   report e epochs trainloader testloader running_loss (fst v) (snd v) lists)%M.

(** The validation pass of the loop that trains the model with dropout:
<<
      running_test_loss = 0
      accuracy = 0
      for images, labels in testloader:
          with torch.no_grad():
              model.eval()
              log_ps = model.forward(images)
              test_loss = criterion(log_ps, labels)
              running_test_loss += test_loss
              ps = torch.exp(log_ps)
              top_ps, top_class = ps.topk(1, dim=1)
              equals = top_class == labels.view( *top_class.shape)
              accuracy += torch.mean(equals.type(torch.FloatTensor))
          model.train()
>> *)
Definition validation_step_dropout (b : batch) (vars : scalar * scalar)
  : M (scalar * scalar) :=
  (v <- with_no_grad (model_mode false ;; validation_step b vars) ;;
   model_mode true ;;
   ret v)%M.

Definition validation_pass_dropout (testloader : list batch) : M (scalar * scalar) :=
  for_each validation_step_dropout testloader (fin 0, fin 0).

(** The epoch of that loop ends with
<<
      print("Training loss: {:.3f}".format(running_loss/len(trainloader)),
            "Test loss: {:.3f}".format(running_test_loss/len(testloader)),
            "Accuracy: {:.3f}".format(accuracy/len(testloader)))
>> *)
Definition epoch_dropout (trainloader testloader : list batch) : M unit :=
  (running_loss <- training_pass trainloader ;;
   v <- validation_pass_dropout testloader ;;
   tl <- lift (py_div running_loss (length trainloader)) ;;
   vl <- lift (py_div (fst v) (length testloader)) ;;
   acc <- lift (py_div (snd v) (length testloader)) ;;
   print (LDropout tl vl acc))%M.

(** *** The loops over the epochs

    [for e in range(epochs)]: every epoch gets its loaders in the order its
    shuffle gives them. *)
Definition run_flat (passes : list (list batch)) : M unit :=
  for_each (fun trainloader _ => epoch_flat trainloader) passes tt.

Fixpoint run (e epochs : nat) (passes : list (list batch * list batch))
         (lists : list scalar * list scalar) : M (list scalar * list scalar) :=
  match passes with
  | [] => ret lists
  | (trainloader, testloader) :: passes' =>
      bind (epoch e epochs trainloader testloader lists) (run (S e) epochs passes')
  end.


End Loops.

(** ** Layers on real numbers *)

Definition Rsum (xs : list R) : R := fold_right Rplus 0%R xs.

Definition dot (xs ws : list R) : R := Rsum (map2 Rmult xs ws).

(** Row [j] of a weight matrix of [i] columns. *)
Definition weight_row (i : nat) (w : tensor R) (j : nat) : list R :=
  firstn i (skipn (j * i) (data w)).

(** One example through [nn.Linear]: [y_j = sum_k x_k * W_jk + b_j]. *)
Definition linear_row (i o : nat) (w b : tensor R) (x : list R) : list R :=
  map (fun j => (dot x (weight_row i w j) + nth j (data b) 0)%R) (seq 0 o).

(** [nn.Linear] acts on the last dimension, which has to be its
    [in_features]. *)
Definition linear (i o : nat) (w b : tensor R) (x : tensor R) : result (tensor R) :=
  match rev (shape x) with
  | [] => Raise RuntimeError
  | c :: lead =>
      if c =? i
      then Ok (Tensor (rev lead ++ [o])
                 (flat_map (linear_row i o w b) (chunks (numel lead) c (data x))))
      else Raise RuntimeError
  end.

(** [F.relu] *)
Definition relu (x : tensor R) : tensor R :=
  Tensor (shape x) (map (Rmax 0) (data x)).

(** [log_softmax] of one row: [x_j - log (sum_k exp x_k)]. *)
Definition log_softmax_row (row : list R) : list R :=
  map (fun x => (x - ln (Rsum (map exp row)))%R) row.

(** [F.log_softmax(x, dim)] and [nn.LogSoftmax(dim)], for [dim=1] on a
    2-dimensional tensor: every row is normalised on its own.  A tensor of
    fewer dimensions has no dimension 1.  Other uses do not occur in the
    notebooks. *)
Definition log_softmax (x : tensor R) (dim : nat) : result (tensor R) :=
  match dim, shape x with
  | 1, [] => Raise IndexError
  | 1, [_] => Raise IndexError
  | 1, [n; c] => Ok (Tensor [n; c] (flat_map log_softmax_row (chunks n c (data x))))
  | _, _ => Raise NotModelled
  end.

(** The random generator: a supply of mask bits and the position of the
    next unused one. *)
Record rng : Type := mkRng { bits : nat -> bool; pos : nat }.

(** [nn.Dropout(p)] with [p < 1].  In training mode an entry whose mask bit
    is off becomes 0 and the others are divided by [1 - p]; in evaluation
    mode the layer is the identity. *)
Definition dropout (p : Q) (training : bool) (g : rng) (x : tensor R) : tensor R * rng :=
  if training then
    (Tensor (shape x)
       (map2 (fun v k => if bits g (pos g + k) then (v / (1 - Q2R p))%R else 0%R)
             (data x) (seq 0 (length (data x)))),
     mkRng (bits g) (pos g + length (data x)))
  else (x, g).

Definition call_layer (training : bool) (l : layer R) (g : rng) (x : tensor R)
  : result (tensor R * rng) :=
  match l with
  | Linear i o w b => (y <- linear i o w b x ;; Ok (y, g))%result
  | ReLU => Ok (relu x, g)
  | LogSoftmax d => (y <- log_softmax x d ;; Ok (y, g))%result
  | Dropout p => Ok (dropout p training g x)
  end.

(** Calling what an attribute holds.  An [nn.ModuleList] has no [forward]. *)
Definition call (training : bool) (a : attr R) (g : rng) (x : tensor R)
  : result (tensor R * rng) :=
  match a with
  | AModule l => call_layer training l g x
  | AModuleList _ => Raise NotImplementedError
  end.

Section Models.

Variable rand : string -> list nat -> list R.

(** *** The classifier of "Inference and Validation", cell 2
<<
  class Classifier(nn.Module):
      def __init__(self):
          super().__init__()
          self.fc1 = nn.Linear(784, 256)
          self.fc2 = nn.Linear(256, 128)
          self.fc3 = nn.Linear(128, 64)
          self.fc4 = nn.Linear(64, 10)

      def forward(self, x):
          x = x.view(x.shape[0], -1)
          x = F.relu(self.fc1(x))
          x = F.relu(self.fc2(x))
          x = F.relu(self.fc3(x))
          x = F.log_softmax(self.fc4(x), dim=1)
          return x
>> *)
Definition Classifier : Module R :=
  mkModule
    [("fc1", AModule (nn_Linear rand "fc1" 784 256));
     ("fc2", AModule (nn_Linear rand "fc2" 256 128));
     ("fc3", AModule (nn_Linear rand "fc3" 128 64));
     ("fc4", AModule (nn_Linear rand "fc4" 64 10))]
    true.

Definition Classifier_forward (self : Module R) (g : rng) (x : tensor R)
  : result (tensor R * rng) :=
  (n <- shape0 x ;;
   x <- view_infer x n ;;
   fc1 <- getattr self "fc1" ;;
   hg <- call (training self) fc1 g x ;;
   let x := relu (fst hg) in
   fc2 <- getattr self "fc2" ;;
   hg <- call (training self) fc2 (snd hg) x ;;
   let x := relu (fst hg) in
   fc3 <- getattr self "fc3" ;;
   hg <- call (training self) fc3 (snd hg) x ;;
   let x := relu (fst hg) in
   fc4 <- getattr self "fc4" ;;
   hg <- call (training self) fc4 (snd hg) x ;;
   x <- log_softmax (fst hg) 1 ;;
   Ok (x, snd hg))%result.

(** *** The classifier with dropout, cell 13
<<
  class Classifier(nn.Module):
      def __init__(self):
          super().__init__()
          self.hidden_1 = nn.Linear(784, 256)
          self.hidden_2 = nn.Linear(256, 64)
          self.output = nn.Linear(64, 10)

          self.droput = nn.Dropout(p=0.2)

      def forward(self, x):
          x = x.view(x.shape[0], 784)

          x = self.dropout(F.relu(self.hidden_1(x)))
          x = self.dropout(F.relu(self.hidden_2(x)))

          x = F.log_softmax(self.output(x), dim=1)

          return x
>>
    In [self.dropout(F.relu(self.hidden_1(x)))] Python looks up the
    function, [self.dropout], before it evaluates the argument. *)
Definition Classifier_dropout : Module R :=
  mkModule
    [("hidden_1", AModule (nn_Linear rand "hidden_1" 784 256));
     ("hidden_2", AModule (nn_Linear rand "hidden_2" 256 64));
     ("output", AModule (nn_Linear rand "output" 64 10));
     ("droput", AModule (Dropout (2 # 10)))]
    true.

Definition Classifier_dropout_forward (self : Module R) (g : rng) (x : tensor R)
  : result (tensor R * rng) :=
  (n <- shape0 x ;;
   x <- view x [n; 784] ;;
   dropout <- getattr self "dropout" ;;
   hidden_1 <- getattr self "hidden_1" ;;
   hg <- call (training self) hidden_1 g x ;;
   xg <- call (training self) dropout (snd hg) (relu (fst hg)) ;;
   dropout <- getattr self "dropout" ;;
   hidden_2 <- getattr self "hidden_2" ;;
   hg <- call (training self) hidden_2 (snd xg) (fst xg) ;;
   xg <- call (training self) dropout (snd hg) (relu (fst hg)) ;;
   output <- getattr self "output" ;;
   hg <- call (training self) output (snd xg) (fst xg) ;;
   x <- log_softmax (fst hg) 1 ;;
   Ok (x, snd hg))%result.

(** The class the text of the notebook shows before the exercise:
<<
          self.fc1 = nn.Linear(784, 256)
          self.fc2 = nn.Linear(256, 128)
          self.fc3 = nn.Linear(128, 64)
          self.fc4 = nn.Linear(64, 10)
          # Dropout module with 0.2 drop probability
          self.dropout = nn.Dropout(p=0.2)

      def forward(self, x):
          # make sure input tensor is flattened
          x = x.view(x.shape[0], -1)
          # Now with dropout
          x = self.dropout(F.relu(self.fc1(x)))
          x = self.dropout(F.relu(self.fc2(x)))
          x = self.dropout(F.relu(self.fc3(x)))
          # output so no dropout here
          x = F.log_softmax(self.fc4(x), dim=1)
          return x
>> *)
Definition Classifier_shown : Module R :=
  mkModule
    [("fc1", AModule (nn_Linear rand "fc1" 784 256));
     ("fc2", AModule (nn_Linear rand "fc2" 256 128));
     ("fc3", AModule (nn_Linear rand "fc3" 128 64));
     ("fc4", AModule (nn_Linear rand "fc4" 64 10));
     ("dropout", AModule (Dropout (2 # 10)))]
    true.

Definition Classifier_shown_forward (self : Module R) (g : rng) (x : tensor R)
  : result (tensor R * rng) :=
  (n <- shape0 x ;;
   x <- view_infer x n ;;
   dropout <- getattr self "dropout" ;;
   fc1 <- getattr self "fc1" ;;
   hg <- call (training self) fc1 g x ;;
   xg <- call (training self) dropout (snd hg) (relu (fst hg)) ;;
   dropout <- getattr self "dropout" ;;
   fc2 <- getattr self "fc2" ;;
   hg <- call (training self) fc2 (snd xg) (fst xg) ;;
   xg <- call (training self) dropout (snd hg) (relu (fst hg)) ;;
   dropout <- getattr self "dropout" ;;
   fc3 <- getattr self "fc3" ;;
   hg <- call (training self) fc3 (snd xg) (fst xg) ;;
   xg <- call (training self) dropout (snd hg) (relu (fst hg)) ;;
   fc4 <- getattr self "fc4" ;;
   hg <- call (training self) fc4 (snd xg) (fst xg) ;;
   x <- log_softmax (fst hg) 1 ;;
   Ok (x, snd hg))%result.

(** *** The two networks of "Training Neural Networks"

    [nn.Sequential] registers its layers under their positions and calls
    them in that order. *)
Fixpoint numbered (k : nat) (ls : list (layer R)) : list (string * attr R) :=
  match ls with
  | [] => []
  | l :: ls' => (nat_to_string k, AModule l) :: numbered (S k) ls'
  end.

Definition Sequential (ls : list (layer R)) : Module R :=
  mkModule (numbered 0 ls) true.

Fixpoint call_all (training : bool) (ms : list (string * attr R)) (g : rng)
         (x : tensor R) : result (tensor R * rng) :=
  match ms with
  | [] => Ok (x, g)
  | (_, a) :: ms' =>
      (yg <- call training a g x ;; call_all training ms' (snd yg) (fst yg))%result
  end.

Definition Sequential_forward (self : Module R) (g : rng) (x : tensor R)
  : result (tensor R * rng) :=
  call_all (training self) (modules self) g x.

(** Cell 2: [nn.Sequential(nn.Linear(784, 128), nn.ReLU(),
    nn.Linear(128, 64), nn.ReLU(), nn.Linear(64, 10))] *)
Definition model_logits : Module R :=
  Sequential [nn_Linear rand "0" 784 128; ReLU;
              nn_Linear rand "2" 128 64; ReLU;
              nn_Linear rand "4" 64 10].

(** Cell 3: the same with [nn.LogSoftmax(dim=1)] at the end. *)
Definition model_logps : Module R :=
  Sequential [nn_Linear rand "0" 784 128; ReLU;
              nn_Linear rand "2" 128 64; ReLU;
              nn_Linear rand "4" 64 10; LogSoftmax 1].

End Models.

(** *** The two criteria *)

(** The mean of a list of losses; [None] is [nan], the mean of no loss. *)
Definition Rmean (xs : list R) : option R :=
  match xs with
  | [] => None
  | _ => Some (Rsum xs / INR (length xs))%R
  end.

(** [row[y]]; a class outside the row is an error. *)
Definition pick (row : list R) (y : nat) : result R :=
  match nth_error row y with
  | Some v => Ok v
  | None => Raise IndexError
  end.

(** The batch checks both criteria make and the mean they take, around the
    loss [f row y] of one example. *)
Definition mean_over_batch (f : list R -> nat -> result R)
           (n c : nat) (input : tensor R) (target : tensor nat) : result (option R) :=
  match shape target with
  | [n'] =>
      if n =? n'
      then (ls <- map_result (fun ry => f (fst ry) (snd ry))
                    (combine (chunks n c (data input)) (data target)) ;;
            Ok (Rmean ls))%result
      else Raise ValueError
  | _ => Raise ValueError
  end.

(** [nn.NLLLoss()]: the mean over the batch of [- input[i][target[i]]].
    The input has to have a class dimension. *)
Definition nll_loss (input : tensor R) (target : tensor nat) : result (option R) :=
  match shape input with
  | [] => Raise ValueError
  | [_] => Raise ValueError
  | [n; c] =>
      mean_over_batch (fun row y => (v <- pick row y ;; Ok (- v)%R)%result)
                      n c input target
  | _ => Raise NotModelled
  end.

(** [nn.CrossEntropyLoss()], by the formula of its documentation: the mean
    over the batch of [- log (exp (x[y]) / sum_j exp (x[j]))].  The
    criterion takes the softmax over dimension 1 and so needs one. *)
Definition cross_entropy (input : tensor R) (target : tensor nat) : result (option R) :=
  match shape input with
  | [] => Raise IndexError
  | [_] => Raise IndexError
  | [n; c] =>
      mean_over_batch
        (fun row y =>
           (v <- pick row y ;; Ok (- ln (exp v / Rsum (map exp row)))%R)%result)
        n c input target
  | _ => Raise NotModelled
  end.

(** Cell 2 of "Training Neural Networks":
<<
    images, labels = next(iter(trainloader))
    images = images.view(images.shape[0], -1)
    logits = model(images)
    loss = criterion(logits, labels)
>>
    with [criterion = nn.CrossEntropyLoss()], and cell 3, the same with the
    model that ends in [nn.LogSoftmax(dim=1)] and [criterion = nn.NLLLoss()]. *)
Definition loss_of_logits (rand : string -> list nat -> list R) (g : rng)
           (images : tensor R) (labels : tensor nat) : result (option R) :=
  (n <- shape0 images ;;
   images <- view_infer images n ;;
   out <- Sequential_forward (model_logits rand) g images ;;
   cross_entropy (fst out) labels)%result.

Definition loss_of_logps (rand : string -> list nat -> list R) (g : rng)
           (images : tensor R) (labels : tensor nat) : result (option R) :=
  (n <- shape0 images ;;
   images <- view_infer images n ;;
   out <- Sequential_forward (model_logps rand) g images ;;
   nll_loss (fst out) labels)%result.

(** ** What the properties speak about

    The number of examples of a batch whose top-1 class is their label,
    counted example by example. *)

Definition top1_class (row : list Q) : option nat :=
  option_map snd (top1 Qltb row).

Definition is_match (rl : list Q * nat) : bool :=
  match top1_class (fst rl) with
  | Some k => k =? snd rl
  | None => false
  end.

Definition matches (ps : tensor Q) (labels : tensor nat) : nat :=
  length (filter is_match (combine (rows ps) (data labels))).

(** The calls of the training batches whose losses were [losses]. *)
Definition training_events (losses : list scalar) : list event :=
  flat_map (fun l => [EvZeroGrad; EvForward; EvLoss l; EvBackward; EvStep]) losses.

(** The sum of the losses, taken as [running_loss += loss.item()] takes it. *)
Definition ssum (ls : list scalar) : scalar := fold_left sadd ls (fin 0).

Section ReadingTheLoops.

Context {F : Framework}.

(** The accuracy the first loop reports: [accuracy/len(testloader)] after
    the validation pass. *)
Definition reported_accuracy (testloader : list batch) (w : world) : result scalar :=
  match validation_pass testloader w with
  | (Ok v, _) => py_div (snd v) (length testloader)
  | (Raise e, _) => Raise e
  end.

(** The class predicted from the row of log-probabilities of one example. *)
Definition predicted (log_ps : list Q) : option nat :=
  top1_class (map fexp log_ps).

(** Whether the model, giving the row [predict image] to an image, is
    right on a sample. *)
Definition correct (predict : list Q -> list Q) (s : sample) : bool :=
  match predicted (predict (fst s)) with
  | Some k => k =? snd s
  | None => false
  end.

(** The fraction of the samples on which the model is right. *)
Definition fraction_correct (predict : list Q -> list Q) (test : list sample) : Q :=
  (of_nat_Q (length (filter (correct predict) test)) / of_nat_Q (length test))%Q.

(** The model treats the examples of a batch one by one: the output for a
    batch has one row of [c] log-probabilities per example, the row
    [predict image]. *)
Definition rowwise (p : params) (mode : bool) (item_shape : list nat)
           (predict : list Q -> list Q) (c : nat) : Prop :=
  (forall x, length x = numel item_shape -> length (predict x) = c)
  /\ forall (g : rngstate) (ss : list sample),
       ss <> [] ->
       Forall (fun s => length (fst s) = numel item_shape) ss ->
       exists g',
         forward p mode g (fst (collate item_shape ss))
         = (Ok (Tensor [length ss; c] (concat (map (fun s => predict (fst s)) ss))), g').

(** The criterion accepts the output of the model for every batch made of
    samples of [test]. *)
Definition criterion_accepts (item_shape : list nat) (predict : list Q -> list Q)
           (c : nat) (test : list sample) : Prop :=
  forall ss : list sample,
    ss <> [] -> incl ss test ->
    exists l,
      criterion (Tensor [length ss; c] (concat (map (fun s => predict (fst s)) ss)))
                (snd (collate item_shape ss))
      = Ok l.

(** A sample whose image has as many values as the items of the data set. *)
Definition well_sized (item_shape : list nat) (s : sample) : Prop :=
  length (fst s) = numel item_shape.

(** The number of samples the model is right on. *)
Definition right_in (predict : list Q -> list Q) (ss : list sample) : nat :=
  length (filter (correct predict) ss).

(** The sum the loop accumulates in [accuracy]. *)
Definition accumulated (predict : list Q -> list Q) (a : Q) (groups : list (list sample)) : Q :=
  fold_left
    (fun x ss => (x + of_nat_Q (length (filter (correct predict) ss))
                      / of_nat_Q (length ss))%Q)
    groups a.

(** What a validation pass leaves untouched. *)
Definition same_model (w0 w : world) : Prop :=
  w_params w = w_params w0 /\ w_grads w = w_grads w0 /\ w_opt w = w_opt w0.

(** The model and the criterion accept the batch, whatever the
    parameters, the mode and the generator are. *)
Definition accepted (b : batch) : Prop :=
  forall p mode g,
  exists out g' l,
    forward p mode g (fst b) = (Ok out, g') /\ criterion out (snd b) = Ok l.

Definition accepted_flat (b : batch) : Prop :=
  exists flat, flattened (fst b) = Ok flat /\ accepted (flat, snd b).

(** A batch of the loop of "Training Neural Networks" after
    [images = images.view(images.shape[0], -1)]. *)
Definition flat_batch (b : batch) : result batch :=
  (flat <- flattened (fst b) ;; Ok (flat, snd b))%result.

(** What a training loop carries from one batch to the next: the
    parameters, the accumulated gradients, the state of the optimizer and
    the state of the generator. *)
Definition model_state : Type := (params * grads * optstate * rngstate)%type.

Definition state_of (w : world) : model_state :=
  (w_params w, w_grads w, w_opt w, w_rng w).

(** One iteration over a batch, step by step as the text of the loop has
    them: the accumulated gradients are set to zero; the forward pass takes
    the images through the model with the parameters as they are; the
    criterion gives the loss of the output on the labels; the backward pass
    adds the gradient of that loss to the zeroed gradients; the optimizer
    step takes the parameters and its own state, with these gradients, to
    the new parameters and the new state.  The result is the loss and what
    the next iteration starts from. *)
Definition iteration (mode : bool) (b : batch) (s : model_state)
  : result (scalar * model_state) :=
  let '(p, _, o, g) := s in
  let zeroed := grads_zero in
  let (output, g') := forward p mode g (fst b) in
  (out <- output ;;
   loss <- criterion out (snd b) ;;
   let gradients := grads_add zeroed (autograd p mode g (fst b) (snd b)) in
   let (p', o') := opt_step o p gradients in
   Ok (loss, (p', gradients, o', g')))%result.

(** The iterations over the batches of a loader, in its order: the losses
    of the batches and the state after the last one. *)
Fixpoint iterations (mode : bool) (bs : list batch) (s : model_state)
  : result (list scalar * model_state) :=
  match bs with
  | [] => Ok ([], s)
  | b :: bs' =>
      (r <- iteration mode b s ;;
       rest <- iterations mode bs' (snd r) ;;
       Ok (fst r :: fst rest, snd rest))%result
  end.

(** [v] is the sum of the losses, added up from 0 in their order, divided
    by [n]; a loss that is [nan] makes it [nan]. *)
Definition sum_divided_by (losses : list scalar) (n : nat) (v : scalar) : Prop :=
  (forall qs, losses = map fin qs ->
     v = fin (fold_left Qplus qs 0 / of_nat_Q n)%Q)
  /\ (In nan losses -> v = nan).

End ReadingTheLoops.

(** ** A small framework for the examples

    The model has no parameters to speak of: an image is already its row of
    scores, the loss is always 0, and the gradient and the optimizer count
    calls.  The entry function of [torch.exp] is replaced by the identity,
    which like every increasing function keeps the top-1 of a row. *)
#[local] Instance toy : Framework := {|
  params := nat;
  grads := nat;
  optstate := nat;
  rngstate := unit;
  forward := fun _ _ g x => (Ok x, g);
  criterion := fun _ _ => Ok (fin 0);
  fexp := fun q => q;
  autograd := fun _ _ _ _ _ => 1;
  grads_zero := 0;
  grads_add := Nat.add;
  opt_step := fun o p g => (p + g, S o)
|}.

Definition toy_world : world :=
  mkWorld (0 : @params toy) (0 : @grads toy) (0 : @optstate toy) (tt : @rngstate toy)
          true true [] [].

Definition zeros_R (name : string) (sizes : list nat) : list R :=
  repeat 0%R (numel sizes).

(** An initialiser for the examples: every parameter starts at zero. *)
Definition zeros (name : string) (sizes : list nat) : list Q :=
  repeat 0%Q (numel sizes).

Definition no_files : files Q := fun _ => None.

Definition toy_trainloader : list batch :=
  [(Tensor [2; 1; 2] [1; 0; 0; 1]%Q, Tensor [2] [0; 1]);
   (Tensor [1; 1; 2] [1; 0]%Q, Tensor [1] [0])].

(** Two classes; [right] has its larger score at its label, [wrong] not. *)
Definition right_sample : sample := ([1; 0]%Q, 0).
Definition wrong_sample : sample := ([1; 0]%Q, 1).

(** A test set of 65 samples, one more than a batch of 64. *)
Definition test65 : list sample := repeat right_sample 64 ++ [wrong_sample].

(** ** Further tensor operations of the notebooks *)

(** [t[i]]: the entry [i] along the first dimension. *)
Definition index0 {A} (t : tensor A) (i : nat) : result (tensor A) :=
  match shape t with
  | [] => Raise IndexError
  | n :: rest =>
      if i <? n
      then Ok (Tensor rest (firstn (numel rest) (skipn (i * numel rest) (data t))))
      else Raise IndexError
  end.

(** [torch.exp(t)] on real numbers. *)
Definition exp_tensor (t : tensor R) : tensor R :=
  Tensor (shape t) (map exp (data t)).

(** The last cell of "Training Neural Networks":
<<
  images, labels = next(iter(trainloader))
  img = images[0].view(1, 784)
  with torch.no_grad():
      logps = model(img)
  ps = torch.exp(logps)
  helper.view_classify(img.view(1, 28, 28), ps)
>>
    with the model of the training cell, which ends in [nn.LogSoftmax(dim=1)].
    The value is what reaches [helper.view_classify]: the image and the
    class probabilities. *)
Definition classify_first (rand : string -> list nat -> list R) (g : rng)
           (images : tensor R) : result (tensor R * tensor R) :=
  (first <- index0 images 0 ;;
   img <- view first [1; 784] ;;
   out <- Sequential_forward (model_logps rand) g img ;;
   let ps := exp_tensor (fst out) in
   shown <- view img [1; 28; 28] ;;
   Ok (shown, ps))%result.

(** ** Reading the loops, continued *)

(** The model, the criterion and the accuracy cell accept the batch,
    whatever the parameters, the mode and the generator are. *)
Definition accepted_for_validation {F : Framework} (b : batch) : Prop :=
  forall p mode g,
  exists out g' l a,
    forward p mode g (fst b) = (Ok out, g')
    /\ criterion out (snd b) = Ok l
    /\ accuracy (torch_exp out) (snd b) = Ok a.

(** The lines the first loop of "Inference and Validation" prints for the
    epochs from number [e] on, given the three numbers of each. *)
Fixpoint epoch_lines (e epochs : nat) (rows : list (scalar * scalar * scalar))
  : list line :=
  match rows with
  | [] => []
  | (tl, vl, acc) :: rows' =>
      LEpoch (e + 1) epochs tl vl acc :: epoch_lines (S e) epochs rows'
  end.

(** The world with other accumulated gradients. *)
Definition with_grads {F : Framework} (g : grads) (w : world) : world :=
  mkWorld (w_params w) g (w_opt w) (w_rng w) (w_training w)
          (w_grad_enabled w) (w_log w) (w_stdout w).

(** A framework that keeps, beside the state of its generator, the list of
    the modes in which its forward pass was called. *)
Definition traced (F : Framework) : Framework := {|
  params := @params F;
  grads := @grads F;
  optstate := @optstate F;
  rngstate := (@rngstate F * list bool)%type;
  forward := fun p mode g x =>
    let (r, g') := @forward F p mode (fst g) x in (r, (g', snd g ++ [mode]));
  criterion := @criterion F;
  fexp := @fexp F;
  autograd := fun p mode g x y => @autograd F p mode (fst g) x y;
  grads_zero := @grads_zero F;
  grads_add := @grads_add F;
  opt_step := @opt_step F
|}.

(** The modes of the forward passes made so far. *)
Definition modes_seen {F : Framework} (w : @world (traced F)) : list bool :=
  snd (w_rng w).

(** ** Saving and loading a bare state dict *)

(** Cell 7 of "Saving and Loading Models":
    [torch.save(model.state_dict(), 'checkpoint.pth')]. *)
Definition save_state_dict {A} (model : Module A) (path : string) (fs : files A)
  : files A :=
  torch_save (PStateDict (state_dict model)) path fs.

(** Cells 8 and 9: [state_dict = torch.load('checkpoint.pth')] followed by
    [model.load_state_dict(state_dict)]; the outcome and the module as the
    call leaves it.  A file that holds something else than a state dict is
    left out. *)
Definition load_state_dict_from {A} (model : Module A) (fs : files A) (path : string)
  : result IncompatibleKeys * Module A :=
  match torch_load fs path with
  | Ok (PStateDict sd) => load_state_dict model sd
  | Ok _ => (Raise NotModelled, model)
  | Raise e => (Raise e, model)
  end.

(** ** The array cell at the end of "Saving and Loading Models"
<<
  import numpy as np
  x = np.arange(60).reshape((3,4,5))
  print(x)
  print(x.shape)
  print(np.transpose(x, axes=[2,0,1]))
  print(np.transpose(x, axes=[2,0,1]).shape)
>>
    An array is a tensor: its sizes and its entries in row-major order, the
    order in which [print] shows them. *)

(** [np.arange(n)] *)
Definition np_arange (n : nat) : tensor Z :=
  Tensor [n] (map Z.of_nat (seq 0 n)).

(** [a.reshape(sizes)]: the same entries in the same order under other
    sizes; the number of entries has to agree. *)
Definition np_reshape {A} (a : tensor A) (sizes : list nat) : result (tensor A) :=
  if numel (shape a) =? numel sizes then Ok (Tensor sizes (data a))
  else Raise ValueError.

(** The indices of an array of sizes [sh], in row-major order. *)
Fixpoint indices (sh : list nat) : list (list nat) :=
  match sh with
  | [] => [[]]
  | n :: sh' => flat_map (fun i => map (cons i) (indices sh')) (seq 0 n)
  end.

(** Whether [idx] is an index of an array of sizes [sh]. *)
Fixpoint in_bounds (sh idx : list nat) : bool :=
  match sh, idx with
  | [], [] => true
  | n :: sh', i :: idx' => (i <? n) && in_bounds sh' idx'
  | _, _ => false
  end.

(** The place of the entry [idx] in the row-major order. *)
Fixpoint offset (sh idx : list nat) : nat :=
  match sh, idx with
  | n :: sh', i :: idx' => i * numel sh' + offset sh' idx'
  | _, _ => 0
  end.

(** [a[i1, ..., ik]] *)
Definition entry {A} (a : tensor A) (idx : list nat) : option A :=
  if in_bounds (shape a) idx then nth_error (data a) (offset (shape a) idx)
  else None.

(** [[l[a] for a in axes]] *)
Definition permute (axes l : list nat) : list nat :=
  map (fun a => nth a l 0) axes.

(** The first place of [m] in [axes]. *)
Fixpoint position (m : nat) (axes : list nat) : nat :=
  match axes with
  | [] => 0
  | a :: axes' => if a =? m then 0 else S (position m axes')
  end.

Fixpoint distinct (l : list nat) : bool :=
  match l with
  | [] => true
  | a :: l' => negb (existsb (Nat.eqb a) l') && distinct l'
  end.

(** The three checks [np.transpose] makes on its axes: as many as the array
    has dimensions, each of them a dimension, none of them repeated. *)
Definition is_permutation (axes : list nat) (k : nat) : bool :=
  (length axes =? k) && forallb (fun a => a <? k) axes && distinct axes.

(** The index of [a] that the index [j] of [np.transpose(a, axes)] shows:
    dimension [k] of the result is dimension [axes[k]] of [a]. *)
Definition source_index (axes j : list nat) : list nat :=
  map (fun m => nth (position m axes) j 0) (seq 0 (length axes)).

(** [np.transpose(a, axes)] for axes that are not negative. *)
Definition np_transpose {A} (a : tensor A) (axes : list nat) : result (tensor A) :=
  if is_permutation axes (length (shape a)) then
    let sizes := permute axes (shape a) in
    match all_some
            (map (fun j => nth_error (data a) (offset (shape a) (source_index axes j)))
                 (indices sizes)) with
    | Some entries => Ok (Tensor sizes entries)
    | None => Raise NotModelled
    end
  else Raise ValueError.

(** The axes that undo [axes]. *)
Definition inverse_axes (axes : list nat) : list nat :=
  map (fun m => position m axes) (seq 0 (length axes)).

(** The cell. *)
Definition transpose_cell : result (tensor Z * tensor Z) :=
  (x <- np_reshape (np_arange 60) [3; 4; 5] ;;
   t <- np_transpose x [2; 0; 1] ;;
   Ok (x, t))%result.

(** ** Autograd, as far as "Training Neural Networks" shows it
<<
  x = torch.randn(2,2, requires_grad=True)
  y = x**2
  print(y.grad_fn)
  z = y.mean()
  print(x.grad)
  z.backward()
  print(x.grad)
  print(x/2)
>>
    A tensor remembers the operation that made it and the tensor the
    operation was applied to; [backward] goes back through these
    operations and multiplies the incoming gradient with the gradient of
    each.  The cells apply operations of one argument to one leaf. *)
Inductive graph : Type :=
| Leaf (requires_grad : bool) (value : tensor Q)
| PowBackward0 (input : graph) (exponent : nat)
| MeanBackward0 (input : graph)
| DivBackward0 (input : graph) (divisor : Q).

Fixpoint requires_grad (t : graph) : bool :=
  match t with
  | Leaf r _ => r
  | PowBackward0 x _ | MeanBackward0 x | DivBackward0 x _ => requires_grad x
  end.

(** [t.grad_fn], by its name; [None] on a leaf and on a tensor that does
    not require gradients. *)
Definition grad_fn (t : graph) : option string :=
  if requires_grad t then
    match t with
    | Leaf _ _ => None
    | PowBackward0 _ _ => Some "PowBackward0"
    | MeanBackward0 _ => Some "MeanBackward0"
    | DivBackward0 _ _ => Some "DivBackward0"
    end
  else None.

Definition Qpow (q : Q) (n : nat) : Q := Qpower q (Z.of_nat n).

(** The value of a tensor.  The mean of no entry and the division by 0 are
    not numbers and are left out. *)
Fixpoint value_of (t : graph) : result (tensor Q) :=
  match t with
  | Leaf _ v => Ok v
  | PowBackward0 x n =>
      (v <- value_of x ;; Ok (Tensor (shape v) (map (fun q => Qpow q n) (data v))))%result
  | MeanBackward0 x =>
      (v <- value_of x ;;
       match data v with
       | [] => Raise NotModelled
       | _ => Ok (Tensor [] [(Qsum (data v) / of_nat_Q (length (data v)))%Q])
       end)%result
  | DivBackward0 x c =>
      (v <- value_of x ;;
       if Qeq_bool c 0 then Raise NotModelled
       else Ok (Tensor (shape v) (map (fun q => (q / c)%Q) (data v))))%result
  end.

(** The gradient with respect to the leaf, from the gradient [grad] with
    respect to [t]:
    - of [x ** n], [grad * n * x ** (n - 1)];
    - of [x.mean()], [grad / numel(x)] at every entry of [x];
    - of [x / c], [grad / c]. *)
Fixpoint backprop (t : graph) (grad : list Q) : result (list Q) :=
  match t with
  | Leaf _ _ => Ok grad
  | PowBackward0 x n =>
      (v <- value_of x ;;
       backprop x (map2 (fun g q => (g * (of_nat_Q n * Qpow q (n - 1)))%Q)
                        grad (data v)))%result
  | MeanBackward0 x =>
      (v <- value_of x ;;
       match grad with
       | [g] => backprop x (repeat (g / of_nat_Q (length (data v)))%Q (length (data v)))
       | _ => Raise RuntimeError
       end)%result
  | DivBackward0 x c => backprop x (map (fun g => (g / c)%Q) grad)
  end.

Fixpoint leaf_of (t : graph) : tensor Q :=
  match t with
  | Leaf _ v => v
  | PowBackward0 x _ | MeanBackward0 x | DivBackward0 x _ => leaf_of x
  end.

(** [t.backward()] followed by [x.grad] for the leaf [x] of [t], whose
    [grad] was [None] before.  The framework starts from the gradient 1 of
    [t] with respect to itself, which it does for a tensor of one entry
    only, and it needs a tensor that requires gradients. *)
Definition backward (t : graph) : result (tensor Q) :=
  if requires_grad t then
    (v <- value_of t ;;
     if numel (shape v) =? 1
     then (g <- backprop t [1%Q] ;; Ok (Tensor (shape (leaf_of t)) g))
     else Raise RuntimeError)%result
  else Raise RuntimeError.

(** [z] as a function of the entries of [x], on real numbers: the mean of
    their squares. *)
Definition mean_of_squares (xs : list R) : R :=
  (Rsum (map (fun v => v * v) xs) / INR (length xs))%R.

(** The entries [xs] with [t] in the place of entry [i]. *)
Definition with_entry (xs : list R) (i : nat) (t : R) : list R :=
  firstn i xs ++ t :: skipn (S i) xs.

(** [model.train(mode)] on a module object; [model.eval()] is
    [model.train(False)]. *)
Definition train {A} (m : Module A) (mode : bool) : Module A :=
  mkModule (modules m) mode.

(** ** The transform of the data sets
<<
  transform = transforms.Compose([transforms.ToTensor(),
                                  transforms.Normalize((0.5,), (0.5,))])
>> *)

(** A grey image as the data sets hold it: one byte per pixel, row after
    row. *)
Record image : Type := mkImage {
  height : nat;
  width : nat;
  pixels : list Byte.byte
}.

(** [transforms.ToTensor()] on a grey image: sizes (1, height, width), and
    every pixel divided by 255. *)
Definition ToTensor (img : image) : tensor Q :=
  Tensor [1; height img; width img]
         (map (fun p => (of_nat_Q (Byte.to_nat p) / 255)%Q) (pixels img)).

(** [transforms.Normalize((mean,), (std,))] on a tensor of one channel. *)
Definition Normalize (mean std : Q) (t : tensor Q) : tensor Q :=
  Tensor (shape t) (map (fun v => ((v - mean) / std)%Q) (data t)).

Definition transform (img : image) : tensor Q :=
  Normalize (1 # 2) (1 # 2) (ToTensor img).

(** A framework whose model raises in every forward pass, as the
    classifier of cell 13 does. *)
Definition broken : Framework := {|
  params := nat;
  grads := nat;
  optstate := nat;
  rngstate := unit;
  forward := fun _ _ g _ => (Raise (AttributeError "dropout"), g);
  criterion := fun _ _ => Ok (fin 0);
  fexp := fun q => q;
  autograd := fun _ _ _ _ _ => 1;
  grads_zero := 0;
  grads_add := Nat.add;
  opt_step := fun o p g => (p + g, S o)
|}.

(* ================================================================== *)
(** * Part II.  Properties *)
(* ================================================================== *)

Unset Implicit Arguments.

(** ** Lists cut in pieces *)

Section Chunks.

Context {X : Type}.

Lemma chunks_length (k m : nat) (xs : list X) : length (chunks k m xs) = k.
Proof.
  revert xs; induction k as [|k IH]; intros xs; simpl; [reflexivity|].
  now rewrite IH.
Qed.

Lemma chunks_each (k m : nat) (xs : list X) :
  length xs = k * m -> Forall (fun r => length r = m) (chunks k m xs).
Proof.
  revert xs; induction k as [|k IH]; intros xs H; simpl; constructor.
  - rewrite firstn_length_le; [reflexivity|]. simpl in H. lia.
  - apply IH. rewrite length_skipn. simpl in H. lia.
Qed.

Lemma concat_chunks (k m : nat) (xs : list X) :
  length xs = k * m -> concat (chunks k m xs) = xs.
Proof.
  revert xs; induction k as [|k IH]; intros xs H; simpl.
  - simpl in H. symmetry. now apply length_zero_iff_nil.
  - rewrite IH.
    + apply firstn_skipn.
    + rewrite length_skipn. simpl in H. lia.
Qed.

Lemma chunks_concat (k m : nat) (ls : list (list X)) :
  length ls = k -> Forall (fun r => length r = m) ls ->
  chunks k m (concat ls) = ls.
Proof.
  revert ls; induction k as [|k IH]; intros ls Hk Hm.
  - destruct ls; [reflexivity|discriminate].
  - destruct ls as [|r ls]; [discriminate|].
    inversion Hm as [|? ? Hr Hls]; subst. simpl.
    rewrite firstn_app, Nat.sub_diag, firstn_all. simpl. rewrite app_nil_r.
    rewrite skipn_app, Nat.sub_diag, skipn_all. simpl.
    f_equal. apply IH; [now inversion Hk|assumption].
Qed.

End Chunks.

Lemma length_concat_uniform {X} (m : nat) (ls : list (list X)) :
  Forall (fun r => length r = m) ls -> length (concat ls) = length ls * m.
Proof.
  induction 1 as [|r ls Hr _ IH]; simpl; [reflexivity|].
  rewrite length_app, Hr, IH. reflexivity.
Qed.

(** Repeating a storage to its own sizes leaves it as it is. *)
Lemma expand_same {X} (sh : list nat) (xs : list X) :
  length xs = numel sh -> expand sh sh xs = xs.
Proof.
  revert xs; induction sh as [|d sh IH]; intros xs H; simpl; [reflexivity|].
  rewrite Nat.eqb_refl.
  rewrite flat_map_concat_map.
  rewrite (map_ext_in _ (fun r => r)).
  - rewrite map_id. now apply concat_chunks.
  - intros r Hr. apply IH.
    pose proof (chunks_each d (numel sh) xs H) as Hall.
    rewrite Forall_forall in Hall. now apply Hall.
Qed.

Lemma broadcast_rev_same (r : list nat) : broadcast_rev r r = Some r.
Proof.
  induction r as [|a r IH]; simpl; [reflexivity|].
  now rewrite IH, Nat.eqb_refl.
Qed.

Lemma broadcast_shapes_same (s : list nat) : broadcast_shapes s s = Some s.
Proof.
  unfold broadcast_shapes. rewrite broadcast_rev_same. simpl.
  now rewrite rev_involutive.
Qed.

Lemma pad_shape_same (s : list nat) : pad_shape (length s) s = s.
Proof. unfold pad_shape. now rewrite Nat.sub_diag. Qed.

(** On two tensors of the same sizes [==] compares entry by entry. *)
Lemma tensor_eq_same_shape {X} (eqb : X -> X -> bool) (a b : tensor X) :
  shape a = shape b -> wf_tensor a -> wf_tensor b ->
  tensor_eq eqb a b = Ok (Tensor (shape a) (map2 eqb (data a) (data b))).
Proof.
  intros Hs Ha Hb. unfold tensor_eq.
  rewrite <- Hs, broadcast_shapes_same, pad_shape_same.
  rewrite (expand_same (shape a) (data a) Ha).
  rewrite (expand_same (shape a) (data b)); [reflexivity|].
  unfold wf_tensor in Hb. now rewrite Hs.
Qed.

(** ** The accuracy of a batch *)

Lemma all_some_spec {X} (xs : list (option X)) (l : list X) :
  all_some xs = Some l <-> xs = map Some l.
Proof.
  revert l; induction xs as [|o xs IH]; intros l; simpl.
  - split; intros H.
    + now inversion H.
    + destruct l; [reflexivity|discriminate].
  - destruct o as [a|].
    + destruct (all_some xs) as [l'|] eqn:E.
      * split; intros H.
        -- inversion H; subst. simpl. f_equal. now apply IH.
        -- destruct l as [|b l]; [discriminate|]. simpl in H.
           inversion H; subst. f_equal. f_equal.
           assert (Some l' = Some l) as Hl by now apply IH.
           now inversion Hl.
      * split; intros H; [discriminate|].
        destruct l as [|b l]; [discriminate|]. simpl in H. inversion H; subst.
        assert (None = Some l) as Hl by now apply IH.
        discriminate.
    + split; intros H; [discriminate|].
      destruct l; discriminate.
Qed.

Lemma all_some_top1 {X} (ltb : X -> X -> bool) (rs : list (list X)) :
  Forall (fun r => r <> []) rs ->
  exists best, all_some (map (top1 ltb) rs) = Some best
               /\ map Some best = map (top1 ltb) rs.
Proof.
  induction 1 as [|r rs Hr _ IH]; simpl.
  - exists []. now split.
  - destruct IH as [best [E1 E2]].
    destruct r as [|x r]; [contradiction|]. simpl.
    rewrite E1. eexists. split; [reflexivity|]. simpl. now rewrite E2.
Qed.

Lemma Qltb_lt (x y : Q) : Qltb x y = true <-> (x < y)%Q.
Proof.
  unfold Qltb. rewrite negb_true_iff. split.
  - intros H. apply Qnot_le_lt. intros Hle. apply Qle_bool_iff in Hle. congruence.
  - intros H. destruct (Qle_bool y x) eqn:E; [|reflexivity].
    apply Qle_bool_iff in E. exfalso. now apply (Qlt_not_le x y).
Qed.

(** The scan of a row returns an entry of the row and its index, and no
    entry is larger. *)
Lemma best_from_largest (xs : list Q) :
  forall (bi : nat) (b : Q) (i : nat) (v : Q) (k : nat),
    best_from Qltb bi b i xs = (v, k) ->
    (b <= v)%Q
    /\ Forall (fun x => (x <= v)%Q) xs
    /\ ((k = bi /\ v = b) \/ (i <= k /\ nth_error xs (k - i) = Some v)).
Proof.
  induction xs as [|x xs IH]; intros bi b i v k H; simpl in H.
  - inversion H; subst. split; [apply Qle_refl|]. split; [constructor|]. now left.
  - destruct (Qltb b x) eqn:E.
    + apply Qltb_lt in E.
      destruct (IH i x (S i) v k H) as [H1 [H2 H3]].
      split; [apply Qle_trans with x; [now apply Qlt_le_weak|exact H1]|].
      split; [constructor; assumption|]. right.
      destruct H3 as [[-> ->]|[Hk Hn]].
      * split; [lia|]. now rewrite Nat.sub_diag.
      * split; [lia|]. replace (k - i) with (S (k - S i)) by lia. exact Hn.
    + assert (Hx : (x <= b)%Q).
      { apply Qnot_lt_le. intros Hlt. apply Qltb_lt in Hlt. congruence. }
      destruct (IH bi b (S i) v k H) as [H1 [H2 H3]].
      split; [exact H1|].
      split; [constructor; [now apply Qle_trans with b|assumption]|].
      destruct H3 as [[-> ->]|[Hk Hn]]; [now left|].
      right. split; [lia|]. replace (k - i) with (S (k - S i)) by lia. exact Hn.
Qed.

Lemma top1_largest (row : list Q) (v : Q) (k : nat) :
  top1 Qltb row = Some (v, k) ->
  nth_error row k = Some v /\ Forall (fun x => (x <= v)%Q) row.
Proof.
  destruct row as [|x xs]; simpl; [discriminate|]. intros H. inversion H as [E].
  destruct (best_from_largest xs 0 x 1 v k E) as [H1 [H2 H3]].
  split; [|constructor; assumption].
  destruct H3 as [[-> ->]|[Hk Hn]]; [reflexivity|].
  destruct k as [|k]; [lia|]. simpl in Hn |- *. now rewrite Nat.sub_0_r in Hn.
Qed.

(** A function that keeps the order of the scores keeps the top-1 class of
    every row; [torch.exp] is one. *)
Lemma best_from_increasing (f : Q -> Q) (xs : list Q) :
  (forall a b, Qltb (f a) (f b) = Qltb a b) ->
  forall (bi : nat) (b : Q) (i : nat),
    snd (best_from Qltb bi (f b) i (map f xs)) = snd (best_from Qltb bi b i xs).
Proof.
  intros Hf. induction xs as [|x xs IH]; intros bi b i; simpl; [reflexivity|].
  rewrite Hf. destruct (Qltb b x); apply IH.
Qed.

Lemma top1_class_increasing (f : Q -> Q) (row : list Q) :
  (forall a b, Qltb (f a) (f b) = Qltb a b) ->
  top1_class (map f row) = top1_class row.
Proof.
  intros Hf. unfold top1_class. destruct row as [|x xs]; [reflexivity|].
  simpl. f_equal. now apply best_from_increasing.
Qed.

(** [topk(1, dim=1)] succeeds on a well-formed batch of rows that are not
    empty, and gives the top-1 of every row. *)
Lemma topk1_rows {X} (ltb : X -> X -> bool) (t : tensor X) (n c : nat) :
  shape t = [n; c] -> wf_tensor t -> 0 < c ->
  exists best,
    topk1 ltb t = Ok (Tensor [n; 1] (map fst best), Tensor [n; 1] (map snd best))
    /\ map Some best = map (top1 ltb) (rows t)
    /\ length best = n.
Proof.
  intros Hs Hw Hc. unfold topk1, rows. rewrite Hs.
  assert (Hlen : length (data t) = n * c).
  { unfold wf_tensor in Hw. rewrite Hw, Hs. simpl. lia. }
  destruct (all_some_top1 ltb (chunks n c (data t))) as [best [E1 E2]].
  - pose proof (chunks_each n c (data t) Hlen) as Hall.
    eapply Forall_impl; [|exact Hall].
    intros r Hr Hnil. subst r. simpl in Hr. lia.
  - exists best. rewrite E1. split; [reflexivity|]. split; [assumption|].
    apply (f_equal (@List.length _)) in E2.
    rewrite !length_map, chunks_length in E2. assumption.
Qed.

Lemma of_nat_Q_S (k : nat) : (1 + of_nat_Q k)%Q = of_nat_Q (S k).
Proof.
  unfold of_nat_Q, Qplus, inject_Z. simpl Qnum. simpl Qden.
  f_equal. lia.
Qed.

Lemma of_nat_Q_0 (k : nat) : (0 + of_nat_Q k)%Q = of_nat_Q k.
Proof.
  unfold of_nat_Q, Qplus, inject_Z. simpl Qnum. simpl Qden.
  f_equal. lia.
Qed.

(** The sum of the 0/1 entries is the number of true ones. *)
Lemma Qsum_indicators (bl : list bool) :
  Qsum (map (fun b : bool => if b then 1%Q else 0%Q) bl)
  = of_nat_Q (length (filter (fun b => b) bl)).
Proof.
  induction bl as [|b bl IH]; [reflexivity|].
  change (Qsum (map (fun b : bool => if b then 1%Q else 0%Q) (b :: bl)))
    with ((if b then 1%Q else 0%Q)
          + Qsum (map (fun b : bool => if b then 1%Q else 0%Q) bl))%Q.
  rewrite IH.
  destruct b; simpl filter; [apply of_nat_Q_S | apply of_nat_Q_0].
Qed.

(** The mean of the 0/1 tensor made from a tensor of truth values that is
    not empty. *)
Lemma mean_indicators (sh : list nat) (bl : list bool) :
  bl <> [] ->
  mean (type_float (Tensor sh bl))
  = fin (of_nat_Q (length (filter (fun b => b) bl)) / of_nat_Q (length bl))%Q.
Proof.
  intros Hne. unfold mean, type_float. simpl data.
  rewrite Qsum_indicators, length_map.
  destruct bl; [contradiction|reflexivity].
Qed.

Lemma matches_count (rs : list (list Q)) (best : list (Q * nat)) (ls : list nat) :
  map Some best = map (top1 Qltb) rs ->
  length (filter is_match (combine rs ls))
  = length (filter (fun b => b) (map2 Nat.eqb (map snd best) ls)).
Proof.
  revert best ls; induction rs as [|r rs IH]; intros best ls E.
  - destruct best; [reflexivity|discriminate].
  - destruct best as [|b best]; [discriminate|].
    simpl in E. inversion E as [[Eb Erest]].
    destruct ls as [|l ls]; [reflexivity|].
    unfold map2. simpl. unfold is_match at 1, top1_class. simpl fst. simpl snd.
    rewrite <- Eb. simpl.
    specialize (IH best ls Erest). unfold map2 in IH.
    destruct (snd b =? l); simpl; now rewrite IH.
Qed.

Lemma map2_length {X Y Z} (f : X -> Y -> Z) (xs : list X) (ys : list Y) :
  length xs = length ys -> length (map2 f xs ys) = length xs.
Proof.
  intros H. unfold map2. rewrite length_map, length_combine. lia.
Qed.

Lemma map2_nth {X Y Z} (f : X -> Y -> Z) (xs : list X) (ys : list Y)
      (i : nat) (dx : X) (dy : Y) (dz : Z) :
  i < length xs -> i < length ys ->
  nth i (map2 f xs ys) dz = f (nth i xs dx) (nth i ys dy).
Proof.
  revert ys i; induction xs as [|x xs IH]; intros ys i Hx Hy; simpl in Hx; [lia|].
  destruct ys as [|y ys]; simpl in Hy; [lia|].
  destruct i as [|i]; [reflexivity|].
  unfold map2 in *. simpl. apply IH; lia.
Qed.

(** What [equals] is, for a column of top classes and a vector of labels. *)
Lemma equals_of_column (top_class labels : tensor nat) (n : nat) :
  shape top_class = [n; 1] -> wf_tensor top_class ->
  shape labels = [n] -> wf_tensor labels ->
  equals_of top_class labels
  = Ok (Tensor [n; 1] (map2 Nat.eqb (data top_class) (data labels))).
Proof.
  intros Hs Hw Hl Hwl. unfold equals_of, view. rewrite Hs, Hl. simpl numel.
  rewrite Nat.eqb_refl. simpl rbind.
  rewrite tensor_eq_same_shape; simpl; try assumption.
  - now rewrite Hs.
  - unfold wf_tensor in *. simpl. rewrite Hwl, Hl. reflexivity.
Qed.

(** The value of the three lines that compute the accuracy of a batch. *)
Lemma accuracy_value (ps : tensor Q) (labels : tensor nat) (n c : nat) :
  shape ps = [n; c] -> wf_tensor ps ->
  shape labels = [n] -> wf_tensor labels ->
  0 < n -> 0 < c ->
  accuracy ps labels = Ok (fin (of_nat_Q (matches ps labels) / of_nat_Q n)%Q).
Proof.
  intros Hs Hw Hl Hwl Hn Hc. unfold accuracy.
  destruct (topk1_rows Qltb ps n c Hs Hw Hc) as [best [Ek [Eb Elen]]].
  rewrite Ek. simpl rbind.
  assert (Hll : length (data labels) = n).
  { unfold wf_tensor in Hwl. rewrite Hwl, Hl. simpl. lia. }
  rewrite (equals_of_column _ labels n); try assumption; try reflexivity.
  2:{ unfold wf_tensor. simpl. rewrite length_map. lia. }
  simpl rbind. simpl data.
  assert (Hm : length (map2 Nat.eqb (map snd best) (data labels)) = n).
  { rewrite map2_length; rewrite length_map; lia. }
  rewrite mean_indicators.
  - rewrite Hm. unfold matches. now rewrite (matches_count _ _ (data labels) Eb).
  - intros E. rewrite E in Hm. simpl in Hm. lia.
Qed.

(** C3.  For a batch [ps] of [n > 0] rows of [c > 0] class probabilities
    and a vector [labels] of [n] labels, the accuracy the notebook computes
    with [topk], [view], [==], [type] and [torch.mean] is the number of
    examples whose top-1 class is their label, divided by the batch size. *)
Theorem accuracy_is_matches_over_batch_size
        (ps : tensor Q) (labels : tensor nat) (n c : nat) :
  shape ps = [n; c] -> wf_tensor ps ->
  shape labels = [n] -> wf_tensor labels ->
  0 < n -> 0 < c ->
  accuracy ps labels = Ok (fin (of_nat_Q (matches ps labels) / of_nat_Q n)%Q).
Proof.
  intros Hs Hw Hl Hwl Hn Hc. unfold accuracy.
  destruct (topk1_rows Qltb ps n c Hs Hw Hc) as [best [Ek [Eb Elen]]].
  rewrite Ek. simpl rbind.
  assert (Hll : length (data labels) = n).
  { unfold wf_tensor in Hwl. rewrite Hwl, Hl. simpl. lia. }
  rewrite (equals_of_column _ labels n); try assumption; try reflexivity.
  2:{ unfold wf_tensor. simpl. rewrite length_map. lia. }
  simpl rbind. simpl data.
  assert (Hm : length (map2 Nat.eqb (map snd best) (data labels)) = n).
  { rewrite map2_length; rewrite length_map; lia. }
  rewrite mean_indicators.
  - rewrite Hm. unfold matches. now rewrite (matches_count _ _ (data labels) Eb).
  - intros E. rewrite E in Hm. simpl in Hm. lia.
Qed.

(** C3, on a batch of three examples and two classes: the first and the
    third example are classified as their labels say. *)
Lemma accuracy_is_matches_over_batch_size_witness :
  accuracy (Tensor [3; 2] [1 # 2; 1 # 3; 0; 1; 3 # 4; 1 # 4]%Q) (Tensor [3] [0; 0; 0])
  = Ok (fin (of_nat_Q 2 / of_nat_Q 3)%Q).
Proof.
  apply (accuracy_is_matches_over_batch_size
           (Tensor [3; 2] [1 # 2; 1 # 3; 0; 1; 3 # 4; 1 # 4]%Q) (Tensor [3] [0; 0; 0]) 3 2);
    try reflexivity; lia.
Defined.

(** C9.  With the labels reshaped to the sizes [(n, 1)] of [top_class],
    [equals] has sizes [(n, 1)] and its entry [i] says whether the top
    class of example [i] is label [i]. *)
Theorem equals_is_per_example (top_class labels : tensor nat) (n : nat) :
  shape top_class = [n; 1] -> wf_tensor top_class ->
  shape labels = [n] -> wf_tensor labels ->
  exists equals,
    equals_of top_class labels = Ok equals
    /\ shape equals = [n; 1]
    /\ length (data equals) = n
    /\ forall i, i < n ->
         nth i (data equals) false
         = (nth i (data top_class) 0 =? nth i (data labels) 0).
Proof.
  intros Hs Hw Hl Hwl.
  assert (Ht : length (data top_class) = n).
  { unfold wf_tensor in Hw. rewrite Hw, Hs. simpl. lia. }
  assert (Hll : length (data labels) = n).
  { unfold wf_tensor in Hwl. rewrite Hwl, Hl. simpl. lia. }
  eexists. split; [now apply (equals_of_column top_class labels n)|].
  simpl. split; [reflexivity|]. split.
  - rewrite map2_length; lia.
  - intros i Hi. apply map2_nth; lia.
Qed.

(** C9 on a batch of three examples. *)
Lemma equals_is_per_example_witness :
  exists equals,
    equals_of (Tensor [3; 1] [0; 1; 0]) (Tensor [3] [0; 1; 1]) = Ok equals
    /\ shape equals = [3; 1]
    /\ length (data equals) = 3
    /\ forall i, i < 3 ->
         nth i (data equals) false
         = (nth i [0; 1; 0] 0 =? nth i [0; 1; 1] 0).
Proof.
  apply (equals_is_per_example (Tensor [3; 1] [0; 1; 0]) (Tensor [3] [0; 1; 1]) 3);
    reflexivity.
Defined.

(** Without the [view] the comparison is the cross-comparison the text of
    the notebook describes: sizes [(n, n)], entry [(i, j)] comparing the top
    class of example [i] with label [j]. *)
Example equals_unviewed_is_cross_comparison :
  equals_unviewed (Tensor [3; 1] [0; 1; 0]) (Tensor [3] [0; 1; 1])
  = Ok (Tensor [3; 3] [true; false; false;
                       false; true; true;
                       true; false; false]).
Proof. reflexivity. Qed.

(** ** The loops *)

Section LoopFacts.

Context {F : Framework}.

(** A property of the world that every run of the body keeps is kept by
    the whole loop, whether the loop ends or raises. *)
Lemma for_each_keeps {X S} (P : world -> Prop) (body : X -> S -> M S) :
  (forall x s w, P w -> P (snd (body x s w))) ->
  forall xs s w, P w -> P (snd (for_each body xs s w)).
Proof.
  intros Hbody xs; induction xs as [|x xs IH]; intros s w Hw; simpl.
  - exact Hw.
  - unfold bind. specialize (Hbody x s w Hw).
    destruct (body x s w) as [[s'|e] w']; simpl in *.
    + now apply IH.
    + exact Hbody.
Qed.

Lemma validation_step_same_model (w0 : world) (b : batch) (vars : scalar * scalar)
      (w : world) :
  same_model w0 w -> same_model w0 (snd (validation_step b vars w)).
Proof.
  intros Hw. destruct b as [images labels], vars as [tl acc].
  unfold validation_step, bind, model_forward, criterion_call, lift, ret.
  destruct (forward (w_params w) (w_training w) (w_rng w) images) as [[out|e] g'];
    simpl; [|exact Hw].
  destruct (criterion out labels) as [l|e]; simpl; [|exact Hw].
  destruct (topk1 Qltb (torch_exp out)) as [tk|e]; simpl; [|exact Hw].
  destruct (view labels (shape (snd tk))) as [lv|e]; simpl; [|exact Hw].
  destruct (tensor_eq Nat.eqb (snd tk) lv) as [eq|e]; simpl; exact Hw.
Qed.

Lemma with_no_grad_same_model {X} (w0 : world) (body : M X) :
  (forall w, same_model w0 w -> same_model w0 (snd (body w))) ->
  forall w, same_model w0 w -> same_model w0 (snd (with_no_grad body w)).
Proof.
  intros Hbody w Hw. unfold with_no_grad.
  specialize (Hbody (set_grad_enabled false w) Hw).
  destruct (body (set_grad_enabled false w)) as [r w']. exact Hbody.
Qed.

Lemma validation_step_dropout_same_model (w0 : world) (b : batch)
      (vars : scalar * scalar) (w : world) :
  same_model w0 w -> same_model w0 (snd (validation_step_dropout b vars w)).
Proof.
  intros Hw. unfold validation_step_dropout, bind at 1.
  assert (H : same_model w0
                (snd (with_no_grad
                        (bind (model_mode false) (fun _ => validation_step b vars)) w))).
  { apply with_no_grad_same_model; [|exact Hw].
    intros w1 Hw1. unfold bind, model_mode.
    apply validation_step_same_model. exact Hw1. }
  destruct (with_no_grad (bind (model_mode false) (fun _ => validation_step b vars)) w)
    as [[v|e] w']; simpl in *; exact H.
Qed.

(** C6.  The validation pass of either loop leaves the parameters of the
    model as they were, and with them the accumulated gradients and the
    state of the optimizer; this holds for every test loader and every
    world, also when the pass raises. *)
Theorem validation_leaves_the_model_unchanged (testloader : list batch) (w : world) :
  same_model w (snd (validation_pass testloader w))
  /\ same_model w (snd (validation_pass_dropout testloader w)).
Proof.
  assert (H0 : same_model w w) by (repeat split).
  split.
  - unfold validation_pass.
    apply with_no_grad_same_model; [|exact H0].
    intros w1 Hw1. apply for_each_keeps; [|exact Hw1].
    intros b vars w2. apply validation_step_same_model.
  - unfold validation_pass_dropout.
    apply for_each_keeps; [|exact H0].
    intros b vars w2. apply validation_step_dropout_same_model.
Qed.

End LoopFacts.

Section TrainingFacts.

Context {F : Framework}.

Lemma training_step_runs (b : batch) (running_loss : scalar) (w : world) :
  accepted b -> w_grad_enabled w = true ->
  exists l w',
    training_step b running_loss w = (Ok (sadd running_loss l), w')
    /\ w_log w' = w_log w ++ training_events [l]
    /\ w_stdout w' = w_stdout w
    /\ w_grad_enabled w' = true.
Proof.
  intros Hb Hg. destruct b as [images labels].
  destruct (Hb (w_params w) (w_training w) (w_rng w)) as [out [g' [l [Ef Ec]]]].
  simpl in Ef, Ec.
  exists l. unfold training_step, bind, zero_grad, model_forward. simpl.
  rewrite Ef. simpl. unfold criterion_call. rewrite Ec.
  unfold loss_backward. simpl. rewrite Hg. unfold optimizer_step. simpl.
  destruct (opt_step (w_opt w) (w_params w)
              (grads_add grads_zero
                 (autograd (w_params w) (w_training w) (w_rng w) images labels)))
    as [p' o'] eqn:Eo.
  eexists. split; [reflexivity|]. simpl.
  repeat split; try assumption.
  now rewrite <- !app_assoc.
Qed.

Lemma training_step_flat_unfold (b : batch) (running_loss : scalar) (w : world) :
  training_step_flat b running_loss w
  = match flattened (fst b) with
    | Ok flat => training_step (flat, snd b) running_loss w
    | Raise e => (Raise e, w)
    end.
Proof.
  destruct b as [images labels].
  unfold training_step_flat, flattened, bind, lift. simpl.
  destruct (shape0 images) as [n|e]; simpl; [|reflexivity].
  destruct (view_infer images n) as [flat|e]; reflexivity.
Qed.

Lemma training_step_flat_runs (b : batch) (running_loss : scalar) (w : world) :
  accepted_flat b -> w_grad_enabled w = true ->
  exists l w',
    training_step_flat b running_loss w = (Ok (sadd running_loss l), w')
    /\ w_log w' = w_log w ++ training_events [l]
    /\ w_stdout w' = w_stdout w
    /\ w_grad_enabled w' = true.
Proof.
  intros [flat [Ef Hb]] Hg. rewrite training_step_flat_unfold, Ef.
  now apply training_step_runs.
Qed.

(** A loop whose every batch runs one training step runs them all, in the
    order of the loader. *)
Lemma training_loop_runs (step : batch -> scalar -> M scalar) (good : batch -> Prop) :
  (forall b rl w, good b -> w_grad_enabled w = true ->
     exists l w',
       step b rl w = (Ok (sadd rl l), w')
       /\ w_log w' = w_log w ++ training_events [l]
       /\ w_stdout w' = w_stdout w
       /\ w_grad_enabled w' = true) ->
  forall loader rl w,
    Forall good loader -> w_grad_enabled w = true ->
    exists losses w',
      length losses = length loader
      /\ for_each step loader rl w = (Ok (fold_left sadd losses rl), w')
      /\ w_log w' = w_log w ++ training_events losses
      /\ w_stdout w' = w_stdout w
      /\ w_grad_enabled w' = true.
Proof.
  intros Hstep loader; induction loader as [|b loader IH]; intros rl w Hall Hg.
  - exists [], w. simpl. rewrite app_nil_r. now repeat split.
  - inversion Hall as [|? ? Hb Hrest]; subst.
    destruct (Hstep b rl w Hb Hg) as [l [w1 [E1 [L1 [O1 G1]]]]].
    destruct (IH (sadd rl l) w1 Hrest G1) as [losses [w2 [Hlen [E2 [L2 [O2 G2]]]]]].
    exists (l :: losses), w2. simpl. unfold bind. rewrite E1, E2.
    repeat split; try assumption.
    + now rewrite Hlen.
    + rewrite L2, L1, <- app_assoc. reflexivity.
    + now rewrite O2.
Qed.

Lemma py_div_defined (x : scalar) (n : nat) :
  0 < n -> exists v, py_div x n = Ok v.
Proof.
  intros Hn. destruct n as [|n]; [lia|]. destruct x; simpl; eauto.
Qed.

(** A training step is one [iteration] on what the world holds. *)
Lemma training_step_iteration (b : batch) (running_loss : scalar) (w : world) :
  accepted b -> w_grad_enabled w = true ->
  exists l w',
    training_step b running_loss w = (Ok (sadd running_loss l), w')
    /\ iteration (w_training w) b (state_of w) = Ok (l, state_of w')
    /\ w_training w' = w_training w
    /\ w_log w' = w_log w ++ training_events [l]
    /\ w_stdout w' = w_stdout w
    /\ w_grad_enabled w' = true.
Proof.
  intros Hb Hg. destruct b as [images labels].
  destruct (Hb (w_params w) (w_training w) (w_rng w)) as [out [g' [l [Ef Ec]]]].
  simpl in Ef, Ec.
  exists l. unfold iteration, state_of.
  unfold training_step, bind, zero_grad, model_forward. simpl.
  rewrite Ef. simpl. unfold criterion_call. rewrite Ec.
  unfold loss_backward. simpl. rewrite Hg. unfold optimizer_step. simpl.
  destruct (opt_step (w_opt w) (w_params w)
              (grads_add grads_zero
                 (autograd (w_params w) (w_training w) (w_rng w) images labels)))
    as [p' o'] eqn:Eo.
  eexists. split; [reflexivity|]. simpl.
  repeat split; try assumption.
  now rewrite <- !app_assoc.
Qed.

Lemma training_step_flat_iteration (b : batch) (running_loss : scalar) (w : world) :
  accepted_flat b -> w_grad_enabled w = true ->
  exists fb l w',
    flat_batch b = Ok fb
    /\ training_step_flat b running_loss w = (Ok (sadd running_loss l), w')
    /\ iteration (w_training w) fb (state_of w) = Ok (l, state_of w')
    /\ w_training w' = w_training w
    /\ w_log w' = w_log w ++ training_events [l]
    /\ w_stdout w' = w_stdout w
    /\ w_grad_enabled w' = true.
Proof.
  intros [flat [Ef Hb]] Hg. exists (flat, snd b).
  destruct (training_step_iteration (flat, snd b) running_loss w Hb Hg)
    as [l [w' H]].
  exists l, w'. unfold flat_batch. rewrite training_step_flat_unfold, Ef.
  split; [reflexivity|exact H].
Qed.

(** A loop whose every batch is prepared by [prep] and then taken through
    one iteration makes the [iterations] over the prepared batches. *)
Lemma training_loop_iterations (step : batch -> scalar -> M scalar)
      (prep : batch -> result batch) (good : batch -> Prop) :
  (forall b rl w, good b -> w_grad_enabled w = true ->
     exists fb l w',
       prep b = Ok fb
       /\ step b rl w = (Ok (sadd rl l), w')
       /\ iteration (w_training w) fb (state_of w) = Ok (l, state_of w')
       /\ w_training w' = w_training w
       /\ w_log w' = w_log w ++ training_events [l]
       /\ w_stdout w' = w_stdout w
       /\ w_grad_enabled w' = true) ->
  forall loader rl w,
    Forall good loader -> w_grad_enabled w = true ->
    exists fbs losses w',
      map_result prep loader = Ok fbs
      /\ length losses = length loader
      /\ for_each step loader rl w = (Ok (fold_left sadd losses rl), w')
      /\ iterations (w_training w) fbs (state_of w) = Ok (losses, state_of w')
      /\ w_log w' = w_log w ++ training_events losses
      /\ w_stdout w' = w_stdout w
      /\ w_grad_enabled w' = true.
Proof.
  intros Hstep loader; induction loader as [|b loader IH]; intros rl w Hall Hg.
  - exists [], [], w. simpl. rewrite app_nil_r. now repeat split.
  - inversion Hall as [|? ? Hb Hrest]; subst.
    destruct (Hstep b rl w Hb Hg) as [fb [l [w1 [Ep [E1 [I1 [T1 [L1 [O1 G1]]]]]]]]].
    destruct (IH (sadd rl l) w1 Hrest G1)
      as [fbs [losses [w2 [Eps [Hlen [E2 [I2 [L2 [O2 G2]]]]]]]]].
    exists (fb :: fbs), (l :: losses), w2.
    split; [cbn [map_result rbind]; now rewrite Ep, Eps|].
    split; [simpl; now rewrite Hlen|].
    split; [cbn [for_each fold_left]; unfold bind; now rewrite E1, E2|].
    split.
    { cbn [iterations]. rewrite I1. cbn [rbind snd fst].
      rewrite <- T1, I2. reflexivity. }
    split; [rewrite L2, L1, <- app_assoc; reflexivity|].
    split; [now rewrite O2|assumption].
Qed.

Lemma map_result_Ok {X} (xs : list X) : map_result (@Ok X) xs = Ok xs.
Proof. induction xs as [|x xs IH]; simpl; [reflexivity|]. now rewrite IH. Qed.

Lemma fold_sadd_fin (qs : list Q) (q0 : Q) :
  fold_left sadd (map fin qs) (fin q0) = fin (fold_left Qplus qs q0).
Proof.
  revert q0. induction qs as [|q qs IH]; intros q0; simpl; [reflexivity|apply IH].
Qed.

Lemma fold_sadd_nan (ls : list scalar) : fold_left sadd ls nan = nan.
Proof. induction ls as [|l ls IH]; simpl; [reflexivity|exact IH]. Qed.

Lemma fold_sadd_with_nan (ls : list scalar) (a : scalar) :
  In nan ls -> fold_left sadd ls a = nan.
Proof.
  revert a. induction ls as [|l ls IH]; intros a Hin; [contradiction|].
  simpl. destruct Hin as [->|Hin].
  - destruct a; simpl; apply fold_sadd_nan.
  - now apply IH.
Qed.

(** [running_loss/len(trainloader)] after a pass over at least one batch. *)
Lemma py_div_of_the_sum (losses : list scalar) (n : nat) :
  0 < n ->
  exists v, py_div (ssum losses) n = Ok v /\ sum_divided_by losses n v.
Proof.
  intros Hn. destruct n as [|n]; [lia|].
  unfold ssum. destruct (fold_left sadd losses (fin 0)) as [|q] eqn:E.
  - exists nan. split; [reflexivity|]. split; [|reflexivity].
    intros qs ->. rewrite fold_sadd_fin in E. discriminate.
  - exists (fin (q / of_nat_Q (S n))). split; [reflexivity|]. split.
    + intros qs ->. rewrite fold_sadd_fin in E. now inversion E.
    + intros Hin. rewrite (fold_sadd_with_nan losses (fin 0) Hin) in E. discriminate.
Qed.

(** C5.  Every training batch of the loops goes through the same five
    steps in the same order: gradients to zero, forward pass, loss,
    backward pass, optimizer step.  The pass over the loader is the
    [iterations] over its batches: each forward pass runs on the parameters
    the step before left, each optimizer step replaces the parameters by
    what the optimizer makes of them and of the gradient of this batch
    alone, and the world after the pass holds the parameters, gradients,
    optimizer state and generator of the last iteration.  The training loss
    an epoch prints is the sum of the losses of its batches divided by
    their number.
    - [epoch_flat] is the loop of "Training Neural Networks", whose batches
      are flattened first;
    - [training_pass] is the loop over the training batches in
      "Inference and Validation", and [report] is what prints its result
      when the validation pass is over. *)
Theorem training_loop_steps_and_printed_loss (trainloader : list batch) (w : world) :
  trainloader <> [] -> w_grad_enabled w = true ->
  (Forall accepted_flat trainloader ->
   exists flats losses v w',
     map_result flat_batch trainloader = Ok flats
     /\ length losses = length trainloader
     /\ epoch_flat trainloader w = (Ok tt, w')
     /\ iterations (w_training w) flats (state_of w) = Ok (losses, state_of w')
     /\ w_log w' = w_log w ++ training_events losses
     /\ sum_divided_by losses (length trainloader) v
     /\ w_stdout w' = w_stdout w ++ [LTraining v])
  /\ (Forall accepted trainloader ->
      exists losses v w',
        length losses = length trainloader
        /\ training_pass trainloader w = (Ok (ssum losses), w')
        /\ iterations (w_training w) trainloader (state_of w)
           = Ok (losses, state_of w')
        /\ w_log w' = w_log w ++ training_events losses
        /\ sum_divided_by losses (length trainloader) v
        /\ forall e epochs testloader test_loss accuracy lists w1,
             testloader <> [] ->
             exists vl acc w2,
               report e epochs trainloader testloader (ssum losses) test_loss
                      accuracy lists w1
               = (Ok (fst lists ++ [v], snd lists ++ [vl]), w2)
               /\ w_stdout w2 = w_stdout w1 ++ [LEpoch (e + 1) epochs v vl acc]
               /\ state_of w2 = state_of w1).
Proof.
  intros Hne Hg.
  assert (Hlen : 0 < length trainloader).
  { destruct trainloader; [contradiction|simpl; lia]. }
  split; intros Hall.
  - destruct (training_loop_iterations training_step_flat flat_batch accepted_flat
                training_step_flat_iteration trainloader (fin 0) w Hall Hg)
      as [flats [losses [w' [Ep [Hl [E [I [L [O G]]]]]]]]].
    destruct (py_div_of_the_sum losses (length trainloader) Hlen) as [v [Ev Hv]].
    exists flats, losses, v. unfold epoch_flat, bind. rewrite E.
    unfold lift. fold (ssum losses). rewrite Ev. unfold print.
    eexists. split; [assumption|]. split; [assumption|].
    split; [reflexivity|]. simpl.
    repeat split; try assumption; try apply Hv. now rewrite O.
  - destruct (training_loop_iterations training_step (@Ok batch) accepted) 
      with (loader := trainloader) (rl := fin 0) (w := w)
      as [fbs [losses [w' [Ep [Hl [E [I [L [O G]]]]]]]]]; try assumption.
    { intros b rl w0 Hb Hg0.
      destruct (training_step_iteration b rl w0 Hb Hg0) as [l [w1 H]].
      exists b, l, w1. split; [reflexivity|exact H]. }
    rewrite map_result_Ok in Ep. inversion Ep; subst fbs. clear Ep.
    destruct (py_div_of_the_sum losses (length trainloader) Hlen) as [v [Ev Hv]].
    exists losses, v, w'. repeat split; try assumption; try apply Hv.
    intros e epochs testloader test_loss accuracy lists w1 Hte.
    assert (Hlt : 0 < length testloader).
    { destruct testloader; [contradiction|simpl; lia]. }
    destruct (py_div_defined test_loss (length testloader) Hlt) as [vl Evl].
    destruct (py_div_defined accuracy (length testloader) Hlt) as [acc Eacc].
    exists vl, acc. unfold report, bind, lift, print, ret.
    rewrite Ev, Evl, Eacc. eexists. repeat split; reflexivity.
Qed.

End TrainingFacts.

(** ** Batches of a loader *)

Lemma batched_fuel_nil {X} (fuel bs : nat) : @batched_fuel X fuel bs [] = [].
Proof. destruct fuel; reflexivity. Qed.

(** When the batch size divides the number of samples, the loader cuts
    them in pieces of exactly that size. *)
Lemma batched_fuel_chunks {X} (k bs fuel : nat) (xs : list X) :
  0 < bs -> length xs = k * bs -> k <= fuel ->
  batched_fuel fuel bs xs = chunks k bs xs.
Proof.
  intros Hbs. revert fuel xs; induction k as [|k IH]; intros fuel xs Hlen Hf.
  - simpl in Hlen. apply length_zero_iff_nil in Hlen. subst.
    apply batched_fuel_nil.
  - destruct fuel as [|fuel]; [lia|].
    destruct xs as [|x xs]; [simpl in Hlen; lia|].
    cbn [batched_fuel chunks]. f_equal.
    apply IH; [|lia].
    rewrite length_skipn, Hlen. simpl. lia.
Qed.

(** The fuel of [batched] is enough: no sample is lost and no batch is
    empty. *)
Lemma batched_fuel_complete {X} (bs : nat) :
  0 < bs ->
  forall (fuel : nat) (xs : list X),
    length xs <= fuel ->
    concat (batched_fuel fuel bs xs) = xs
    /\ Forall (fun b => b <> []) (batched_fuel fuel bs xs).
Proof.
  intros Hbs fuel; induction fuel as [|fuel IH]; intros xs Hlen.
  - destruct xs; [now split|simpl in Hlen; lia].
  - destruct xs as [|x xs]; [now split|].
    cbn [batched_fuel].
    destruct (IH (skipn bs (x :: xs))) as [Hcat Hne].
    { rewrite length_skipn. simpl length in Hlen |- *. lia. }
    split.
    + cbn [List.concat]. rewrite Hcat. apply firstn_skipn.
    + constructor; [|exact Hne].
      destruct bs as [|bs]; [lia|]. discriminate.
Qed.

Lemma batched_complete {X} (bs : nat) (xs : list X) :
  0 < bs ->
  concat (batched bs xs) = xs /\ Forall (fun b => b <> []) (batched bs xs).
Proof.
  intros Hbs. apply batched_fuel_complete; [exact Hbs|apply Nat.le_refl].
Qed.

(** The batches of a loader all have the same size exactly when the batch
    size divides the number of samples or exceeds it. *)
Lemma batched_equal_sizes {X} (bs : nat) (xs : list X) :
  0 < bs -> xs <> [] ->
  length xs mod bs = 0 \/ length xs < bs ->
  exists k m, 0 < k /\ 0 < m /\ length xs = k * m /\ batched bs xs = chunks k m xs.
Proof.
  intros Hbs Hne Hsize.
  assert (HN : 0 < length xs) by (destruct xs; [contradiction|simpl; lia]).
  destruct Hsize as [Hmod|Hlt].
  - exists (length xs / bs), bs.
    assert (E : length xs = length xs / bs * bs).
    { pose proof (Nat.div_mod_eq (length xs) bs). lia. }
    assert (0 < length xs / bs) by (destruct (length xs / bs); lia).
    repeat split; try assumption.
    unfold batched. apply batched_fuel_chunks; try assumption. nia.
  - exists 1, (length xs). repeat split; try lia.
    unfold batched. destruct xs as [|x xs]; [contradiction|].
    cbn [length batched_fuel chunks].
    rewrite firstn_all2 by (simpl in *; lia).
    rewrite skipn_all2 by (simpl in *; lia).
    rewrite batched_fuel_nil.
    change (S (length xs)) with (length (x :: xs)). now rewrite firstn_all.
Qed.

(** ** The accuracy a validation pass reports *)

Section ValidationFacts.

Context {F : Framework}.

Lemma validation_step_unfold (images : tensor Q) (labels : tensor nat)
      (test_loss acc : scalar) (w : world) :
  validation_step (images, labels) (test_loss, acc) w
  = match model_forward images w with
    | (Ok og, w1) =>
        match criterion_call (fst og) labels w1 with
        | (Ok l, w2) =>
            match accuracy (torch_exp (fst og)) labels with
            | Ok a => (Ok (sadd test_loss l, sadd acc a), w2)
            | Raise e => (Raise e, w2)
            end
        | (Raise e, w2) => (Raise e, w2)
        end
    | (Raise e, w1) => (Raise e, w1)
    end.
Proof.
  unfold validation_step, bind, lift, ret, accuracy, equals_of.
  destruct (model_forward images w) as [[og|e] w1]; [|reflexivity].
  destruct (criterion_call (fst og) labels w1) as [[l|e] w2]; [|reflexivity].
  destruct (topk1 Qltb (torch_exp (fst og))) as [[top_p top_class]|e];
    simpl; [|reflexivity].
  destruct (view labels (shape top_class)) as [lv|e]; simpl; [|reflexivity].
  destruct (tensor_eq Nat.eqb top_class lv) as [eq|e]; reflexivity.
Qed.

Variable item_shape : list nat.
Variable predict : list Q -> list Q.
Variable c : nat.

(** The rows of probabilities of a batch and the samples it was made of. *)
Lemma matches_of_group (ss : list sample) :
  Forall (fun s => length (predict (fst s)) = c) ss ->
  matches (torch_exp (Tensor [length ss; c]
                        (concat (map (fun s => predict (fst s)) ss))))
          (Tensor [length ss] (map snd ss))
  = length (filter (correct predict) ss).
Proof.
  intros Hall. unfold matches, rows, torch_exp. simpl shape. simpl data.
  rewrite concat_map, map_map.
  rewrite chunks_concat.
  - clear Hall. induction ss as [|s ss IH]; [reflexivity|].
    simpl. unfold is_match at 1, correct at 1, predicted. simpl.
    destruct (top1_class (map fexp (predict (fst s)))) as [k|]; [|exact IH].
    destruct (k =? snd s); simpl; now rewrite IH.
  - now rewrite length_map.
  - rewrite Forall_map. eapply Forall_impl; [|exact Hall].
    intros s Hs. now rewrite length_map.
Qed.

Hypothesis c_positive : 0 < c.

(** One batch of the validation loop. *)
Lemma validation_step_group (test : list sample) (ss : list sample)
      (test_loss : scalar) (a : Q) (w : world) :
  rowwise (w_params w) (w_training w) item_shape predict c ->
  criterion_accepts item_shape predict c test ->
  ss <> [] -> incl ss test -> Forall (well_sized item_shape) ss ->
  exists tl w',
    validation_step (collate item_shape ss) (test_loss, fin a) w
    = (Ok (tl, fin (a + of_nat_Q (length (filter (correct predict) ss))
                       / of_nat_Q (length ss))%Q), w')
    /\ w_params w' = w_params w /\ w_training w' = w_training w.
Proof.
  intros [Hlen Hfwd] Hcrit Hne Hincl Hws.
  destruct (Hfwd (w_rng w) ss Hne Hws) as [g' Ef].
  destruct (Hcrit ss Hne Hincl) as [l El].
  unfold collate in *. simpl fst in Ef. simpl snd in El.
  rewrite validation_step_unfold. unfold model_forward. rewrite Ef.
  simpl fst. unfold criterion_call. rewrite El.
  assert (Hrows : Forall (fun s => length (predict (fst s)) = c) ss).
  { eapply Forall_impl; [|exact Hws]. intros s Hs. now apply Hlen. }
  assert (Hn : 0 < length ss) by (destruct ss; [contradiction|simpl; lia]).
  rewrite (accuracy_value _ _ (length ss) c); try reflexivity; try assumption.
  - rewrite (matches_of_group ss Hrows). simpl.
    eexists. eexists. split; [reflexivity|]. split; reflexivity.
  - unfold wf_tensor, torch_exp. simpl.
    rewrite length_map, (length_concat_uniform c).
    + now rewrite length_map, Nat.mul_1_r.
    + now rewrite Forall_map.
  - unfold wf_tensor. simpl. now rewrite length_map, Nat.mul_1_r.
Qed.

Lemma validation_loop_groups (test : list sample) (groups : list (list sample)) :
  forall (test_loss : scalar) (a : Q) (w : world),
    rowwise (w_params w) (w_training w) item_shape predict c ->
    criterion_accepts item_shape predict c test ->
    Forall (fun ss => ss <> [] /\ incl ss test /\ Forall (well_sized item_shape) ss) groups ->
    exists tl w',
      for_each validation_step (map (collate item_shape) groups) (test_loss, fin a) w
      = (Ok (tl, fin (accumulated predict a groups)), w').
Proof.
  induction groups as [|ss groups IH]; intros test_loss a w Hrow Hcrit Hall.
  - simpl. unfold ret. eauto.
  - inversion Hall as [|? ? [Hne [Hincl Hws]] Hrest]; subst.
    destruct (validation_step_group test ss test_loss a w Hrow Hcrit Hne Hincl Hws)
      as [tl [w1 [E1 [Ep Et]]]].
    rewrite <- Ep, <- Et in Hrow.
    destruct (IH tl (a + of_nat_Q (length (filter (correct predict) ss))
                         / of_nat_Q (length ss))%Q w1 Hrow Hcrit Hrest)
      as [tl2 [w2 E2]].
    exists tl2, w2.
    change (for_each validation_step (map (collate item_shape) (ss :: groups))
              (test_loss, fin a) w)
      with (bind (validation_step (collate item_shape ss) (test_loss, fin a))
              (for_each validation_step (map (collate item_shape) groups)) w).
    unfold bind. rewrite E1. exact E2.
Qed.

End ValidationFacts.

Lemma of_nat_Q_plus (x y : nat) : (of_nat_Q (x + y) == of_nat_Q x + of_nat_Q y)%Q.
Proof. unfold of_nat_Q. now rewrite Nat2Z.inj_add, inject_Z_plus. Qed.

Lemma of_nat_Q_mult (x y : nat) : (of_nat_Q (x * y) == of_nat_Q x * of_nat_Q y)%Q.
Proof. unfold of_nat_Q. now rewrite Nat2Z.inj_mul, inject_Z_mult. Qed.

Lemma of_nat_Q_nonzero (x : nat) : 0 < x -> ~ (of_nat_Q x == 0)%Q.
Proof.
  intros Hx E. unfold of_nat_Q, Qeq in E. simpl in E. lia.
Qed.

Lemma incl_chunks {X} (k m : nat) (xs : list X) :
  Forall (fun g => incl g xs) (chunks k m xs).
Proof.
  revert xs; induction k as [|k IH]; intros xs; simpl; constructor.
  - intros x Hx. rewrite <- (firstn_skipn m xs). apply in_or_app. now left.
  - eapply Forall_impl; [|apply IH].
    intros g Hg x Hx. rewrite <- (firstn_skipn m xs). apply in_or_app. right.
    now apply Hg.
Qed.

Section ReportedAccuracy.

Context {F : Framework}.
Variable item_shape : list nat.
Variable predict : list Q -> list Q.

(** With batches of one size [m], the accumulated accuracy is the number
    of samples the model is right on, over [m]. *)
Lemma accumulated_equal_sizes (m : nat) (groups : list (list sample)) (a : Q) :
  0 < m -> Forall (fun ss => length ss = m) groups ->
  (accumulated predict a groups
   == a + of_nat_Q (right_in predict (concat groups)) / of_nat_Q m)%Q.
Proof.
  intros Hm Hall. revert a. induction Hall as [|ss groups Hss _ IH]; intros a.
  - unfold right_in. simpl. unfold of_nat_Q at 1. simpl.
    field. now apply of_nat_Q_nonzero.
  - unfold accumulated in *. simpl fold_left. rewrite IH.
    unfold right_in. simpl concat.
    rewrite filter_app, length_app, of_nat_Q_plus, Hss.
    field. now apply of_nat_Q_nonzero.
Qed.

(** C4, as far as it holds.  When all the batches of the test loader have
    the same size (the number of test samples is a multiple of the batch
    size, or smaller than it), the accuracy reported after the validation
    pass, the accumulated batch accuracies over the number of batches, is
    the fraction of the test samples whose top-1 class is their label. *)
Theorem reported_accuracy_with_equal_batches
        (w : world) (c : nat) (order : list sample) (batch_size : nat) :
  0 < c ->
  rowwise (w_params w) (w_training w) item_shape predict c ->
  criterion_accepts item_shape predict c order ->
  Forall (well_sized item_shape) order ->
  0 < batch_size -> order <> [] ->
  length order mod batch_size = 0 \/ length order < batch_size ->
  exists testloader q,
    DataLoader item_shape order batch_size = Ok testloader
    /\ reported_accuracy testloader w = Ok (fin q)
    /\ (q == fraction_correct predict order)%Q.
Proof.
  intros Hc Hrow Hcrit Hws Hbs Hne Hsize.
  destruct (batched_equal_sizes batch_size order Hbs Hne Hsize)
    as [k [m [Hk [Hm [HN Eb]]]]].
  unfold DataLoader. destruct (Nat.eqb_spec batch_size 0) as [E0|_]; [lia|].
  rewrite Eb.
  set (groups := chunks k m order).
  assert (Hsizes : Forall (fun ss => length ss = m) groups)
    by (apply chunks_each; exact HN).
  assert (Hcat : concat groups = order) by (apply concat_chunks; exact HN).
  assert (Hgroups : Forall (fun ss => ss <> [] /\ incl ss order
                                      /\ Forall (well_sized item_shape) ss) groups).
  { pose proof (incl_chunks k m order) as Hin. fold groups in Hin.
    rewrite Forall_forall in *. intros ss Hss. repeat split.
    - intros E. specialize (Hsizes ss Hss). rewrite E in Hsizes. simpl in Hsizes. lia.
    - now apply Hin.
    - rewrite Forall_forall. intros s Hs. apply Hws. now apply (Hin ss Hss). }
  destruct (validation_loop_groups item_shape predict c Hc order groups
              (fin 0) 0%Q (set_grad_enabled false w) Hrow Hcrit Hgroups)
    as [tl [w' E]].
  exists (map (collate item_shape) groups).
  exists (accumulated predict 0 groups / of_nat_Q k)%Q.
  split; [reflexivity|]. split.
  - unfold reported_accuracy, validation_pass, with_no_grad. rewrite E.
    simpl snd. rewrite length_map. unfold groups at 2. rewrite chunks_length.
    destruct k as [|k]; [lia|]. reflexivity.
  - rewrite (accumulated_equal_sizes m groups 0 Hm Hsizes), Hcat.
    unfold fraction_correct, right_in. rewrite HN, of_nat_Q_mult.
    field. split; apply of_nat_Q_nonzero; assumption.
Qed.

End ReportedAccuracy.

(** What the first loop prints at the end of an epoch, when its two passes
    have run: the accuracy of the line is the reported accuracy of the
    validation pass. *)
Lemma epoch_prints {F : Framework} (e epochs : nat) (trainloader testloader : list batch)
      (lists : list scalar * list scalar) (w w1 w2 : world)
      (running_loss : scalar) (v : scalar * scalar) :
  training_pass trainloader w = (Ok running_loss, w1) ->
  validation_pass testloader w1 = (Ok v, w2) ->
  trainloader <> [] -> testloader <> [] ->
  exists tl vl acc w3,
    py_div running_loss (length trainloader) = Ok tl
    /\ py_div (fst v) (length testloader) = Ok vl
    /\ reported_accuracy testloader w1 = Ok acc
    /\ epoch e epochs trainloader testloader lists w
       = (Ok (fst lists ++ [tl], snd lists ++ [vl]), w3)
    /\ w_stdout w3 = w_stdout w2 ++ [LEpoch (e + 1) epochs tl vl acc].
Proof.
  intros Et Ev Htr Hte.
  assert (H1 : 0 < length trainloader) by (destruct trainloader; [contradiction|simpl; lia]).
  assert (H2 : 0 < length testloader) by (destruct testloader; [contradiction|simpl; lia]).
  destruct (py_div_defined running_loss (length trainloader) H1) as [tl Etl].
  destruct (py_div_defined (fst v) (length testloader) H2) as [vl Evl].
  destruct (py_div_defined (snd v) (length testloader) H2) as [acc Eacc].
  exists tl, vl, acc. unfold epoch, bind, reported_accuracy. rewrite Et, Ev.
  unfold report, bind, lift, print, ret. rewrite Etl, Evl, Eacc.
  eexists. repeat split; reflexivity.
Qed.

(** ** The small framework at work *)

Lemma toy_fexp_keeps_order (a b : Q) : Qltb (@fexp toy a) (@fexp toy b) = Qltb a b.
Proof. reflexivity. Qed.

Lemma toy_rowwise (p : @params toy) (mode : bool) :
  rowwise p mode [2] (fun x => x) 2.
Proof.
  split.
  - intros x Hx. exact Hx.
  - intros g ss _ _. exists g. reflexivity.
Qed.

Lemma toy_criterion_accepts (test : list sample) :
  criterion_accepts [2] (fun x => x) 2 test.
Proof. intros ss _ _. exists (fin 0). reflexivity. Qed.

(** C4 on a test set of four samples in two batches of two. *)
Lemma reported_accuracy_with_equal_batches_witness :
  exists testloader q,
    DataLoader [2] [right_sample; wrong_sample; right_sample; right_sample] 2
    = Ok testloader
    /\ reported_accuracy testloader toy_world = Ok (fin q)
    /\ (q == fraction_correct (fun x => x)
               [right_sample; wrong_sample; right_sample; right_sample])%Q.
Proof.
  apply (reported_accuracy_with_equal_batches [2] (fun x => x) toy_world 2
           [right_sample; wrong_sample; right_sample; right_sample] 2).
  - lia.
  - apply toy_rowwise.
  - apply toy_criterion_accepts.
  - repeat constructor.
  - lia.
  - discriminate.
  - left. reflexivity.
Defined.

(** C4, as stated, fails on a test set of 65 samples with the batch size 64
    of the notebook.  The model is right on the 64 samples of the first
    batch and wrong on the one sample of the second; the loop reports
    (64/64 + 0/1) / 2 = 1/2, and the fraction of samples the model is right
    on is 64/65. *)
Lemma reported_accuracy_with_a_smaller_last_batch :
  rowwise (w_params toy_world) (w_training toy_world) [2] (fun x => x) 2
  /\ criterion_accepts [2] (fun x => x) 2 test65
  /\ Forall (well_sized [2]) test65
  /\ test65 <> []
  /\ (exists testloader,
        DataLoader [2] test65 64 = Ok testloader
        /\ length testloader = 2
        /\ reported_accuracy testloader toy_world = Ok (fin (64 # 128)))
  /\ fraction_correct (fun x => x) test65 = (64 # 65)%Q
  /\ ~ (exists testloader q,
          DataLoader [2] test65 64 = Ok testloader
          /\ reported_accuracy testloader toy_world = Ok (fin q)
          /\ (q == fraction_correct (fun x => x) test65)%Q).
Proof.
  split; [apply toy_rowwise|].
  split; [apply toy_criterion_accepts|].
  split; [unfold test65; apply Forall_app; split;
          [apply Forall_forall; intros s Hs; apply repeat_spec in Hs; now subst
          |repeat constructor]|].
  split; [discriminate|].
  split; [eexists; split; [reflexivity|]; split; vm_compute; reflexivity|].
  split; [vm_compute; reflexivity|].
  intros [testloader [q [E1 [E2 E3]]]].
  vm_compute in E1. inversion E1; subst testloader. clear E1.
  vm_compute in E2. inversion E2; subst q. clear E2.
  vm_compute in E3. discriminate.
Qed.

Lemma toy_accepted (b : batch) : accepted b.
Proof. intros p mode g. exists (fst b), g, (fin 0). split; reflexivity. Qed.

(** C5 on a loader of two batches, from parameters, gradients and
    optimizer state 0: the steps leave the parameters at 2, the gradient
    of the last batch alone, and the optimizer after its second step. *)
Lemma training_loop_steps_and_printed_loss_witness :
  (exists flats losses v w',
      map_result flat_batch toy_trainloader = Ok flats
      /\ length losses = length toy_trainloader
      /\ epoch_flat toy_trainloader toy_world = (Ok tt, w')
      /\ iterations true flats (state_of toy_world)
         = Ok (losses, ((2, 1, 2, tt) : @model_state toy))
      /\ state_of w' = ((2, 1, 2, tt) : @model_state toy)
      /\ w_log w' = w_log toy_world ++ training_events losses
      /\ sum_divided_by losses (length toy_trainloader) v
      /\ w_stdout w' = w_stdout toy_world ++ [LTraining v])
  /\ (exists losses v w',
         length losses = length toy_trainloader
         /\ training_pass toy_trainloader toy_world = (Ok (ssum losses), w')
         /\ iterations true toy_trainloader (state_of toy_world)
            = Ok (losses, ((2, 1, 2, tt) : @model_state toy))
         /\ state_of w' = ((2, 1, 2, tt) : @model_state toy)
         /\ w_log w' = w_log toy_world ++ training_events losses
         /\ sum_divided_by losses (length toy_trainloader) v
         /\ forall e epochs testloader test_loss accuracy lists w1,
              testloader <> [] ->
              exists vl acc w2,
                report e epochs toy_trainloader testloader (ssum losses) test_loss
                       accuracy lists w1
                = (Ok (fst lists ++ [v], snd lists ++ [vl]), w2)
                /\ w_stdout w2 = w_stdout w1 ++ [LEpoch (e + 1) epochs v vl acc]
                /\ state_of w2 = state_of w1).
Proof.
  destruct (training_loop_steps_and_printed_loss toy_trainloader toy_world) as [A B].
  - discriminate.
  - reflexivity.
  - split.
    + destruct A as [flats [losses [v [w' [Ep [Hl [E [I [L [Hv O]]]]]]]]]].
      { repeat constructor.
        * eexists. split; [reflexivity|]. apply toy_accepted.
        * eexists. split; [reflexivity|]. apply toy_accepted. }
      exists flats, losses, v, w'.
      assert (Es : state_of w' = ((2, 1, 2, tt) : @model_state toy)).
      { vm_compute in E. inversion E. reflexivity. }
      rewrite Es in I. repeat split; try assumption; apply Hv.
    + destruct B as [losses [v [w' [Hl [E [I [L [Hv R]]]]]]]].
      { repeat constructor; apply toy_accepted. }
      exists losses, v, w'.
      assert (Es : state_of w' = ((2, 1, 2, tt) : @model_state toy)).
      { vm_compute in E. inversion E. reflexivity. }
      rewrite Es in I. repeat split; try assumption; apply Hv.
Defined.

(** ** The keys of a state dict *)

Lemma append_assoc (a b c : string) : ((a ++ b) ++ c)%string = (a ++ (b ++ c))%string.
Proof. induction a as [|ch a IH]; simpl; [reflexivity|]. now rewrite IH. Qed.

Lemma append_inv_head (p a b : string) : (p ++ a)%string = (p ++ b)%string -> a = b.
Proof.
  induction p as [|ch p IH]; simpl; intros H; [exact H|].
  inversion H. now apply IH.
Qed.

Lemma no_dot_nat_to_string (n : nat) : no_dot (nat_to_string n).
Proof.
  unfold nat_to_string. generalize (Nat.to_uint n) as d.
  induction d; simpl; auto; split; auto; discriminate.
Qed.

Lemma nat_to_string_inj (n n' : nat) : nat_to_string n = nat_to_string n' -> n = n'.
Proof.
  unfold nat_to_string. intros H.
  apply DecimalNat.Unsigned.to_uint_inj.
  pose proof (DecimalString.NilEmpty.usu (Nat.to_uint n)) as E1.
  pose proof (DecimalString.NilEmpty.usu (Nat.to_uint n')) as E2.
  rewrite H in E1. rewrite E1 in E2. now inversion E2.
Qed.

(** Two strings that agree up to and after their first dot. *)
Lemma split_at_dot (s s' r r' : string) :
  no_dot s -> no_dot s' ->
  (s ++ String "." r)%string = (s' ++ String "." r')%string ->
  s = s' /\ r = r'.
Proof.
  revert s'; induction s as [|ch s IH]; intros s' Hs Hs' H.
  - destruct s' as [|ch' s']; simpl in H.
    + inversion H. now split.
    + inversion H; subst. destruct Hs' as [Hch _]. now contradiction Hch.
  - destruct s' as [|ch' s']; simpl in H.
    + inversion H; subst. destruct Hs as [Hch _]. now contradiction Hch.
    + inversion H; subst. destruct Hs as [_ Hs], Hs' as [_ Hs'].
      destruct (IH s' Hs Hs' H2) as [E1 E2]. subst. now split.
Qed.

Lemma list_key_inj (prefix : string) (k k' : nat) (f f' : string) :
  list_key prefix k f = list_key prefix k' f' -> k = k' /\ f = f'.
Proof.
  unfold list_key. rewrite !append_assoc. intros H.
  apply append_inv_head in H. simpl in H.
  apply split_at_dot in H; try apply no_dot_nat_to_string.
  destruct H as [H1 H2]. split; [now apply nat_to_string_inj|assumption].
Qed.

Section StateDictFacts.

Context {A : Type}.

Lemma lookup_in {V} (k : string) (v : V) (d : list (string * V)) :
  NoDup (map fst d) -> In (k, v) d -> lookup k d = Some v.
Proof.
  induction d as [|[k' v'] d IH]; simpl; intros Hnd Hin; [contradiction|].
  inversion Hnd as [|? ? Hk' Hnd']; subst.
  destruct Hin as [E|Hin].
  - inversion E; subst. now rewrite String.eqb_refl.
  - destruct (String.eqb_spec k k') as [E|_].
    + subst. exfalso. apply Hk'. apply in_map_iff. now exists (k', v).
    + now apply IH.
Qed.

Lemma lookup_none {V} (k : string) (d : list (string * V)) :
  lookup k d = None <-> ~ In k (map fst d).
Proof.
  induction d as [|[k' v'] d IH]; simpl.
  - split; [intros _ []|reflexivity].
  - destruct (String.eqb_spec k k') as [E|N].
    + split; [discriminate|]. intros H. exfalso. apply H. left. now symmetry.
    + rewrite IH. split.
      * intros H [E|Hin]; [now apply N|now apply H].
      * intros H Hin. apply H. now right.
Qed.

Lemma has_key_in {V} (k : string) (d : list (string * V)) :
  has_key k d = true <-> In k (map fst d).
Proof.
  unfold has_key. destruct (lookup k d) as [v|] eqn:E.
  - split; [|reflexivity]. intros _.
    destruct (in_dec string_dec k (map fst d)) as [Hin|Hnin]; [assumption|].
    apply lookup_none in Hnin. congruence.
  - split; [discriminate|]. intros Hin. apply lookup_none in E. contradiction.
Qed.

Lemma filter_none {X} (f : X -> bool) (l : list X) :
  filter f l = [] <-> forall x, In x l -> f x = false.
Proof.
  induction l as [|x l IH]; simpl.
  - split; [intros _ ? []|reflexivity].
  - destruct (f x) eqn:E.
    + split; [discriminate|]. intros H. specialize (H x (or_introl eq_refl)). congruence.
    + rewrite IH. split.
      * intros H y [Ey|Hy]; [now subst|now apply H].
      * intros H y Hy. apply H. now right.
Qed.

Lemma shape_eqb_eq (s1 s2 : list nat) : shape_eqb s1 s2 = true <-> s1 = s2.
Proof.
  unfold shape_eqb. destruct (list_eq_dec Nat.eq_dec s1 s2); split; congruence.
Qed.

Lemma lookup_recorded (k : string) (sd : state_dict_t A) :
  lookup k (recorded sd) = option_map (@shape A) (lookup k sd).
Proof.
  induction sd as [|[k' t] sd IH]; simpl; [reflexivity|].
  destruct (String.eqb k k'); [reflexivity|exact IH].
Qed.

Lemma recorded_keys (sd : state_dict_t A) : map fst (recorded sd) = map fst sd.
Proof. unfold recorded. rewrite map_map. reflexivity. Qed.

(** The state dict of the module that [load_state_dict] leaves. *)
Lemma layer_state_load (sd : state_dict_t A) (prefix : string) (l : layer A) :
  layer_state prefix (load_layer sd prefix l)
  = map (fun kp => (fst kp, load_param sd (fst kp) (snd kp))) (layer_state prefix l).
Proof. destruct l; reflexivity. Qed.

Lemma list_state_load (sd : state_dict_t A) (prefix : string) (k : nat)
      (ls : list (layer A)) :
  list_state prefix k (load_list sd prefix k ls)
  = map (fun kp => (fst kp, load_param sd (fst kp) (snd kp))) (list_state prefix k ls).
Proof.
  revert k; induction ls as [|l ls IH]; intros k; simpl; [reflexivity|].
  now rewrite map_app, layer_state_load, IH.
Qed.

Lemma state_dict_load (sd : state_dict_t A) (m : Module A) :
  state_dict (mkModule (load_modules sd (modules m)) (training m))
  = map (fun kp => (fst kp, load_param sd (fst kp) (snd kp))) (state_dict m).
Proof.
  unfold state_dict. simpl modules.
  induction (modules m) as [|[name a] ms IH]; simpl; [reflexivity|].
  rewrite map_app, IH. f_equal.
  destruct a as [l|ls]; simpl.
  - apply layer_state_load.
  - apply list_state_load.
Qed.

Lemma load_state_dict_outcomes (m : Module A) (sd : state_dict_t A) :
  fst (load_state_dict m sd) = Ok (mkIncompatibleKeys [] [])
  \/ fst (load_state_dict m sd) = Raise RuntimeError.
Proof.
  unfold load_state_dict.
  destruct (filter (size_mismatch sd) (state_dict m)); [|now right].
  destruct (filter _ (map fst sd)); [|now right].
  destruct (filter _ (map fst (state_dict m))); [now left|now right].
Qed.

Lemma load_state_dict_ok (m : Module A) (sd : state_dict_t A) :
  fst (load_state_dict m sd) = Ok (mkIncompatibleKeys [] [])
  <-> filter (size_mismatch sd) (state_dict m) = []
      /\ filter (fun k => negb (has_key k (state_dict m))) (map fst sd) = []
      /\ filter (fun k => negb (has_key k sd)) (map fst (state_dict m)) = [].
Proof.
  unfold load_state_dict.
  destruct (filter (size_mismatch sd) (state_dict m)).
  2:{ split; [discriminate|]. intros [H _]. discriminate. }
  destruct (filter _ (map fst sd)).
  2:{ split; [discriminate|]. intros [_ [H _]]. discriminate. }
  destruct (filter _ (map fst (state_dict m))).
  - split; [now repeat split|reflexivity].
  - split; [discriminate|]. intros [_ [_ H]]. discriminate.
Qed.

Lemma load_state_dict_succeeds_iff (m : Module A) (sd : state_dict_t A) :
  NoDup (map fst (state_dict m)) ->
  (fst (load_state_dict m sd) = Ok (mkIncompatibleKeys [] [])
   <-> matches_recorded m sd).
Proof.
  intros Hnd. rewrite load_state_dict_ok, !filter_none.
  unfold matches_recorded. split.
  - intros [Hsize [Hunexp Hmiss]] key. rewrite !lookup_recorded.
    destruct (lookup key (state_dict m)) as [p|] eqn:Eo.
    + assert (Hin : In key (map fst (state_dict m))).
      { apply has_key_in. unfold has_key. now rewrite Eo. }
      specialize (Hmiss key Hin). apply negb_false_iff in Hmiss.
      unfold has_key in Hmiss.
      destruct (lookup key sd) as [t|] eqn:Es; [|discriminate]. simpl.
      assert (Hp : In (key, p) (state_dict m)).
      { clear - Eo. induction (state_dict m) as [|[k' v] d IH]; simpl in *;
          [discriminate|].
        destruct (String.eqb_spec key k') as [E|_].
        - inversion Eo; subst. now left.
        - right. now apply IH. }
      specialize (Hsize (key, p) Hp). unfold size_mismatch in Hsize.
      simpl in Hsize. rewrite Es in Hsize. apply negb_false_iff in Hsize.
      apply shape_eqb_eq in Hsize. now rewrite Hsize.
    + destruct (lookup key sd) as [t|] eqn:Es; [|reflexivity]. exfalso.
      assert (Hin : In key (map fst sd)).
      { apply has_key_in. unfold has_key. now rewrite Es. }
      specialize (Hunexp key Hin). apply negb_false_iff in Hunexp.
      unfold has_key in Hunexp. now rewrite Eo in Hunexp.
  - intros Hall. repeat split.
    + intros [k p] Hin. unfold size_mismatch. simpl.
      specialize (Hall k). rewrite !lookup_recorded in Hall.
      rewrite (lookup_in k p (state_dict m) Hnd Hin) in Hall.
      destruct (lookup k sd) as [t|]; [|reflexivity].
      simpl in Hall. inversion Hall as [E]. apply negb_false_iff.
      now apply shape_eqb_eq.
    + intros k Hin. apply negb_false_iff. apply has_key_in in Hin.
      unfold has_key in *. specialize (Hall k). rewrite !lookup_recorded in Hall.
      destruct (lookup k sd); [|discriminate].
      destruct (lookup k (state_dict m)); [reflexivity|discriminate].
    + intros k Hin. apply negb_false_iff. apply has_key_in in Hin.
      unfold has_key in *. specialize (Hall k). rewrite !lookup_recorded in Hall.
      destruct (lookup k (state_dict m)); [|discriminate].
      destruct (lookup k sd); [reflexivity|discriminate].
Qed.

End StateDictFacts.

Section NetworkFacts.

Context {A : Type}.

Lemma snd_load_state_dict (m : Module A) (sd : state_dict_t A) :
  snd (load_state_dict m sd) = mkModule (load_modules sd (modules m)) (training m).
Proof.
  unfold load_state_dict.
  destruct (filter (size_mismatch sd) (state_dict m)); [|reflexivity].
  destruct (filter _ (map fst sd)); [|reflexivity].
  destruct (filter _ (map fst (state_dict m))); reflexivity.
Qed.

Lemma load_param_all (sd : state_dict_t A) (own sd' : state_dict_t A) :
  recorded own = recorded sd' ->
  (forall kt, In kt sd' -> lookup (fst kt) sd = Some (snd kt)) ->
  map (fun kp => (fst kp, load_param sd (fst kp) (snd kp))) own = sd'.
Proof.
  revert sd'; induction own as [|[k p] own IH]; intros [|[k' t] sd'] Hrec Hlook;
    try discriminate; [reflexivity|].
  simpl in Hrec. inversion Hrec as [[Ek Es Erest]]. subst k'. simpl.
  f_equal.
  - unfold load_param. simpl fst. simpl snd.
    pose proof (Hlook (k, t) (or_introl eq_refl)) as Hk. simpl in Hk. rewrite Hk.
    assert (E : shape_eqb (shape t) (shape p) = true)
      by (apply shape_eqb_eq; now symmetry).
    rewrite E, Es. now destruct t.
  - apply IH; [exact Erest|]. intros kt Hin. apply Hlook. now right.
Qed.

(** Loading a state dict that records exactly the keys and sizes of the
    module, in the order of the module, succeeds and leaves a module whose
    state dict is the loaded one. *)
Lemma load_same_recorded (m : Module A) (sd : state_dict_t A) :
  NoDup (map fst sd) ->
  recorded (state_dict m) = recorded sd ->
  load_state_dict m sd
  = (Ok (mkIncompatibleKeys [] []),
     mkModule (load_modules sd (modules m)) (training m))
  /\ state_dict (mkModule (load_modules sd (modules m)) (training m)) = sd.
Proof.
  intros Hnd Hrec. split.
  - rewrite (surjective_pairing (load_state_dict m sd)), snd_load_state_dict.
    f_equal. apply load_state_dict_succeeds_iff.
    + rewrite <- recorded_keys, Hrec, recorded_keys. exact Hnd.
    + intros key. now rewrite Hrec.
  - rewrite state_dict_load. apply load_param_all; [exact Hrec|].
    intros [k t] Hin. now apply lookup_in.
Qed.

(** *** Keys of a list of layers *)

Lemma layer_state_keys (prefix : string) (l : layer A) (key : string) :
  In key (map fst (layer_state prefix l)) ->
  key = (prefix ++ "weight")%string \/ key = (prefix ++ "bias")%string.
Proof.
  destruct l; simpl; intros H; try contradiction.
  destruct H as [H|[H|[]]]; [now left|now right].
Qed.

Lemma layer_state_NoDup (prefix : string) (l : layer A) :
  NoDup (map fst (layer_state prefix l)).
Proof.
  destruct l; simpl; try constructor.
  - intros [H|[]]. apply append_inv_head in H. discriminate.
  - constructor; [intros []|constructor].
Qed.

Lemma list_state_keys (prefix : string) (j : nat) (ls : list (layer A)) (key : string) :
  In key (map fst (list_state prefix j ls)) ->
  exists k f, j <= k /\ key = list_key prefix k f.
Proof.
  revert j; induction ls as [|l ls IH]; intros j; simpl; [intros []|].
  rewrite map_app, in_app_iff. intros [H|H].
  - apply layer_state_keys in H. destruct H as [H|H].
    + exists j, "weight". split; [lia|exact H].
    + exists j, "bias". split; [lia|exact H].
  - destruct (IH (S j) H) as [k [f [Hk E]]]. exists k, f. split; [lia|exact E].
Qed.

Lemma list_state_NoDup (prefix : string) (j : nat) (ls : list (layer A)) :
  NoDup (map fst (list_state prefix j ls)).
Proof.
  revert j; induction ls as [|l ls IH]; intros j; simpl; [constructor|].
  rewrite map_app. apply NoDup_app.
  - apply layer_state_NoDup.
  - apply IH.
  - intros key H1 H2.
    apply list_state_keys in H2. destruct H2 as [k [f [Hk E]]].
    apply layer_state_keys in H1.
    assert (Ej : exists f', key = list_key prefix j f').
    { destruct H1 as [H1|H1]; eexists; exact H1. }
    destruct Ej as [f' Ej]. rewrite Ej in E.
    apply list_key_inj in E. lia.
Qed.

(** *** The network of [fc_model] *)

Variable rand : string -> list nat -> list A.

Lemma out_features_hidden (k prev : nat) (hs : list nat) :
  map_result (@out_features_of A) (hidden_from rand k prev hs) = Ok hs.
Proof.
  revert k prev; induction hs as [|h hs IH]; intros k prev; simpl; [reflexivity|].
  now rewrite IH.
Qed.

Lemma Network_built (i o : nat) (hs : list nat) :
  hs <> [] ->
  Network rand i o hs
  = Ok (mkModule
          [("hidden_layers", AModuleList (hidden_from rand 0 i hs));
           ("output", AModule (nn_Linear rand "output" (last hs 0) o));
           ("dropout", AModule (Dropout (1 # 2)))]
          true).
Proof. destruct hs; [contradiction|reflexivity]. Qed.

Lemma Network_inv (i o : nat) (hs : list nat) (m : Module A) :
  Network rand i o hs = Ok m ->
  hs <> []
  /\ m = mkModule
           [("hidden_layers", AModuleList (hidden_from rand 0 i hs));
            ("output", AModule (nn_Linear rand "output" (last hs 0) o));
            ("dropout", AModule (Dropout (1 # 2)))]
           true.
Proof.
  destruct hs as [|h hs]; simpl; intros H; [discriminate|].
  inversion H. split; [discriminate|reflexivity].
Qed.

Lemma Network_state_dict (i o : nat) (hs : list nat) (m : Module A) :
  Network rand i o hs = Ok m ->
  state_dict m
  = list_state "hidden_layers." 0 (hidden_from rand 0 i hs)
      ++ layer_state "output." (nn_Linear rand "output" (last hs 0) o).
Proof.
  intros H. apply Network_inv in H. destruct H as [_ ->].
  unfold state_dict. simpl. reflexivity.
Qed.

Lemma Network_keys_NoDup (i o : nat) (hs : list nat) (m : Module A) :
  Network rand i o hs = Ok m -> NoDup (map fst (state_dict m)).
Proof.
  intros H. rewrite (Network_state_dict i o hs m H), map_app.
  apply NoDup_app.
  - apply list_state_NoDup.
  - apply layer_state_NoDup.
  - intros key H1 H2. apply list_state_keys in H1.
    destruct H1 as [k [f [_ E]]]. subst key.
    simpl in H2. unfold list_key in H2.
    destruct H2 as [H2|[H2|[]]]; simpl in H2; discriminate.
Qed.

Lemma Network_architecture (i o : nat) (hs : list nat) (m : Module A) :
  Network rand i o hs = Ok m -> architecture m = Ok (i, o, hs).
Proof.
  intros H. apply Network_inv in H. destruct H as [Hne ->].
  unfold architecture, getattr. simpl.
  rewrite out_features_hidden. simpl.
  destruct hs as [|h hs]; [contradiction|reflexivity].
Qed.

End NetworkFacts.

(** The keys and sizes of a network depend on its three arguments only,
    not on the values of its parameters. *)
Lemma hidden_recorded {A : Type} (rand rand' : string -> list nat -> list A)
      (hs : list nat) (k prev : nat) :
  recorded (list_state "hidden_layers." k (hidden_from rand k prev hs))
  = recorded (list_state "hidden_layers." k (hidden_from rand' k prev hs)).
Proof.
  revert k prev; induction hs as [|h hs IH]; intros k prev; simpl; [reflexivity|].
  f_equal. f_equal. apply IH.
Qed.

Lemma Network_recorded {A : Type} (rand rand' : string -> list nat -> list A)
      (i o : nat) (hs : list nat) (m m' : Module A) :
  Network rand i o hs = Ok m -> Network rand' i o hs = Ok m' ->
  recorded (state_dict m) = recorded (state_dict m').
Proof.
  intros H H'.
  rewrite (Network_state_dict rand i o hs m H), (Network_state_dict rand' i o hs m' H').
  unfold recorded. rewrite !map_app. f_equal.
  apply hidden_recorded.
Qed.

(** ** Checkpoints *)

Section CheckpointFacts.

Context {A : Type}.

Lemma lookup_load_modules (sd : state_dict_t A) (name : string)
      (ms : list (string * attr A)) :
  lookup name (load_modules sd ms) = option_map (load_attr sd name) (lookup name ms).
Proof.
  induction ms as [|[n a] ms IH]; simpl; [reflexivity|].
  destruct (String.eqb_spec name n) as [->|_]; [reflexivity|exact IH].
Qed.

Lemma out_features_load_list (sd : state_dict_t A) (prefix : string) (k : nat)
      (ls : list (layer A)) :
  map_result (@out_features_of A) (load_list sd prefix k ls)
  = map_result (@out_features_of A) ls.
Proof.
  revert k; induction ls as [|l ls IH]; intros k; simpl; [reflexivity|].
  rewrite IH. now destruct l.
Qed.

(** Loading a state dict changes no size of the architecture. *)
Lemma architecture_load (sd : state_dict_t A) (m : Module A) :
  architecture (mkModule (load_modules sd (modules m)) (training m)) = architecture m.
Proof.
  unfold architecture, getattr. simpl modules. rewrite !lookup_load_modules.
  destruct (lookup "hidden_layers" (modules m)) as [[l|ls]|]; simpl; try reflexivity.
  rewrite out_features_load_list.
  destruct (map_result (@out_features_of A) ls) as [sizes|e]; simpl; [|reflexivity].
  assert (E : match load_list sd "hidden_layers." 0 ls with
              | [] => Raise IndexError
              | l :: _ => in_features_of l
              end
              = match ls with [] => Raise IndexError | l :: _ => in_features_of l end).
  { destruct ls as [|l ls]; [reflexivity|]. now destruct l. }
  rewrite E.
  destruct (match ls with [] => Raise IndexError | l :: _ => in_features_of l end)
    as [first|e]; simpl; [|reflexivity].
  destruct (lookup "output" (modules m)) as [[l|ls']|]; simpl; try reflexivity.
  now destruct l.
Qed.

End CheckpointFacts.

(** C1, as far as it holds.  For every network built as
    [fc_model.Network(784, 10, hidden_layers)], whatever the values of its
    parameters are, saving the checkpoint of cell 11 and calling
    [load_checkpoint] on the file returns a model with the same input size,
    output size and hidden sizes and with the same state dict: the same keys
    in the same order with the same tensors.  ([rand] gives the values of
    the parameters of the saved model and [rand'] those the loaded model
    starts from; the parameters have distinct names, so every choice of
    values is some [rand].) *)
Theorem checkpoint_round_trip {A : Type} (rand rand' : string -> list nat -> list A)
        (hidden_layers : list nat) (model : Module A) (fs : files A) (path : string) :
  Network rand 784 10 hidden_layers = Ok model ->
  exists fs' model',
    save_checkpoint model path fs = Ok fs'
    /\ load_checkpoint rand' fs' path = Ok model'
    /\ architecture model = Ok (784, 10, hidden_layers)
    /\ architecture model' = Ok (784, 10, hidden_layers)
    /\ state_dict model' = state_dict model.
Proof.
  intros Hm.
  pose proof (Network_architecture rand 784 10 hidden_layers model Hm) as Harch.
  pose proof (Network_keys_NoDup rand 784 10 hidden_layers model Hm) as Hnd.
  destruct (Network_inv rand 784 10 hidden_layers model Hm) as [Hne Emodel].
  pose proof (Network_built rand' 784 10 hidden_layers Hne) as Hm0.
  set (m0 := mkModule
               [("hidden_layers", AModuleList (hidden_from rand' 0 784 hidden_layers));
                ("output", AModule (nn_Linear rand' "output" (last hidden_layers 0) 10));
                ("dropout", AModule (Dropout (1 # 2)))] true) in *.
  destruct (load_same_recorded m0 (state_dict model) Hnd
              (Network_recorded rand' rand 784 10 hidden_layers m0 model Hm0 Hm))
    as [Eload Estate].
  assert (Ec : checkpoint model
               = Ok (PDict [("input_size", PInt 784);
                            ("output_size", PInt 10);
                            ("hidden_layers", PIntList hidden_layers);
                            ("state_dict", PStateDict (state_dict model))])).
  { unfold checkpoint, getattr. rewrite Emodel at 1. simpl lookup. simpl rbind.
    rewrite out_features_hidden. reflexivity. }
  exists (torch_save
            (PDict [("input_size", PInt 784);
                    ("output_size", PInt 10);
                    ("hidden_layers", PIntList hidden_layers);
                    ("state_dict", PStateDict (state_dict model))]) path fs).
  exists (mkModule (load_modules (state_dict model) (modules m0)) (training m0)).
  split; [unfold save_checkpoint; now rewrite Ec|].
  split.
  - unfold load_checkpoint, torch_load, torch_save. rewrite String.eqb_refl.
    simpl. rewrite Hm0. simpl. rewrite Eload. reflexivity.
  - split; [exact Harch|]. split; [|exact Estate].
    rewrite architecture_load.
    exact (Network_architecture rand' 784 10 hidden_layers m0 Hm0).
Qed.

(** C1 on a network with hidden sizes 3 and 2: saved with all parameters at
    0, loaded into a network that starts with all parameters at 1. *)
Lemma checkpoint_round_trip_witness :
  exists model fs' model',
    Network zeros 784 10 [3; 2] = Ok model
    /\ save_checkpoint model "checkpoint.pth" no_files = Ok fs'
    /\ load_checkpoint (fun _ sizes => repeat 1%Q (numel sizes)) fs' "checkpoint.pth"
       = Ok model'
    /\ architecture model = Ok (784, 10, [3; 2])
    /\ architecture model' = Ok (784, 10, [3; 2])
    /\ state_dict model' = state_dict model.
Proof.
  eexists.
  destruct (checkpoint_round_trip zeros (fun _ sizes => repeat 1%Q (numel sizes))
              [3; 2] _ no_files "checkpoint.pth" eq_refl)
    as [fs' [model' H]].
  exists fs', model'. split; [reflexivity|exact H].
Defined.

(** C1, as stated, fails for a network of other input and output sizes: the
    checkpoint of cell 11 records 784 and 10 whatever the network is, so
    [load_checkpoint] builds a network of those sizes and [load_state_dict]
    refuses the saved tensors. *)
Lemma checkpoint_of_other_sizes_does_not_load :
  exists model fs',
    Network zeros 5 3 [4] = Ok model
    /\ architecture model = Ok (5, 3, [4])
    /\ save_checkpoint model "checkpoint.pth" no_files = Ok fs'
    /\ load_checkpoint zeros fs' "checkpoint.pth" = Raise RuntimeError.
Proof.
  eexists. eexists. split; [reflexivity|]. split; [reflexivity|].
  split; [reflexivity|]. vm_compute. reflexivity.
Qed.

(** C2.  [load_state_dict] has two outcomes.  It returns, with no missing
    and no unexpected key, exactly when the state dict records, key by key,
    the sizes of the parameters of the model; it raises [RuntimeError]
    exactly when it does not.  The state dict of a network with hidden sizes
    512, 256, 128 makes a network with hidden sizes 400, 200, 100 raise, and
    loads into a network with hidden sizes 512, 256, 128. *)
Theorem load_state_dict_fails_exactly_on_mismatch {A : Type} :
  (forall (m : Module A) (sd : state_dict_t A),
      NoDup (map fst (state_dict m)) ->
      (fst (load_state_dict m sd) = Ok (mkIncompatibleKeys [] [])
       <-> matches_recorded m sd)
      /\ (fst (load_state_dict m sd) = Raise RuntimeError
          <-> ~ matches_recorded m sd))
  /\ (forall (rand rand' : string -> list nat -> list A) (saved model : Module A),
         Network rand 784 10 [512; 256; 128] = Ok saved ->
         Network rand' 784 10 [400; 200; 100] = Ok model ->
         fst (load_state_dict model (state_dict saved)) = Raise RuntimeError)
  /\ (forall (rand rand' : string -> list nat -> list A) (saved model : Module A),
         Network rand 784 10 [512; 256; 128] = Ok saved ->
         Network rand' 784 10 [512; 256; 128] = Ok model ->
         fst (load_state_dict model (state_dict saved))
         = Ok (mkIncompatibleKeys [] [])).
Proof.
  split; [|split].
  - intros m sd Hnd.
    pose proof (load_state_dict_succeeds_iff m sd Hnd) as Hiff.
    split; [exact Hiff|].
    destruct (load_state_dict_outcomes m sd) as [E|E]; rewrite E; split.
    + discriminate.
    + intros Hn. exfalso. apply Hn. now apply Hiff.
    + intros _ Hm. apply Hiff in Hm. congruence.
    + reflexivity.
  - intros rand rand' saved model Hs Hm.
    apply Network_inv in Hs. destruct Hs as [_ ->].
    apply Network_inv in Hm. destruct Hm as [_ ->].
    vm_compute. reflexivity.
  - intros rand rand' saved model Hs Hm.
    pose proof (Network_keys_NoDup rand 784 10 _ saved Hs) as Hnd.
    pose proof (Network_recorded rand' rand 784 10 _ model saved Hm Hs) as Hrec.
    destruct (load_same_recorded model (state_dict saved) Hnd Hrec) as [E _].
    now rewrite E.
Qed.

(** C2 on networks whose parameters are all 0. *)
Lemma load_state_dict_fails_exactly_on_mismatch_witness :
  (exists m : Module Q,
      Network zeros 3 2 [2] = Ok m
      /\ NoDup (map fst (state_dict m))
      /\ (fst (load_state_dict m (state_dict m)) = Ok (mkIncompatibleKeys [] [])
          <-> matches_recorded m (state_dict m))
      /\ (fst (load_state_dict m (state_dict m)) = Raise RuntimeError
          <-> ~ matches_recorded m (state_dict m)))
  /\ (exists saved model : Module Q,
         Network zeros 784 10 [512; 256; 128] = Ok saved
         /\ Network zeros 784 10 [400; 200; 100] = Ok model
         /\ fst (load_state_dict model (state_dict saved)) = Raise RuntimeError)
  /\ (exists saved model : Module Q,
         Network zeros 784 10 [512; 256; 128] = Ok saved
         /\ Network zeros 784 10 [512; 256; 128] = Ok model
         /\ fst (load_state_dict model (state_dict saved))
            = Ok (mkIncompatibleKeys [] [])).
Proof.
  destruct (@load_state_dict_fails_exactly_on_mismatch Q) as [HA [HB HC]].
  split; [|split].
  - eexists. split; [reflexivity|].
    assert (Hnd : NoDup (map fst (state_dict
                     (mkModule
                        [("hidden_layers", AModuleList (hidden_from zeros 0 3 [2]));
                         ("output", AModule (nn_Linear zeros "output" (last [2] 0) 2));
                         ("dropout", AModule (Dropout (1 # 2)))] true)))).
    { apply (Network_keys_NoDup zeros 3 2 [2]). reflexivity. }
    split; [exact Hnd|]. exact (HA _ _ Hnd).
  - eexists. eexists. split; [reflexivity|]. split; [reflexivity|].
    apply (HB zeros zeros); reflexivity.
  - eexists. eexists. split; [reflexivity|]. split; [reflexivity|].
    apply (HC zeros zeros); reflexivity.
Defined.

(** C2, as stated, fails on its clause about the program: a mismatch of
    sizes in [load_state_dict] is not its only error path.  The cells of the
    notebooks raise in other ways, none of which goes through
    [load_state_dict]:
    - [load_checkpoint] on the file cell 7 writes, which holds a bare state
      dict, raises [KeyError];
    - [load_checkpoint] on a path where nothing was saved raises
      [FileNotFoundError];
    - the accuracy cell on three labels for two rows of probabilities
      raises [RuntimeError] in [labels.view];
    - the forward pass of the classifier of cell 13 on a batch of 64 images
      raises [AttributeError];
    - the training loss of an epoch over a loader without batches raises
      [ZeroDivisionError]. *)
Lemma load_state_dict_is_not_the_only_error_path :
  (exists model,
      Network zeros 784 10 [512; 256; 128] = Ok model
      /\ load_checkpoint zeros (save_state_dict model "checkpoint.pth" no_files)
           "checkpoint.pth"
         = Raise (KeyError "input_size"))
  /\ load_checkpoint zeros no_files "checkpoint.pth" = Raise FileNotFoundError
  /\ accuracy (Tensor [2; 2] [1; 0; 0; 1]%Q) (Tensor [3] [0; 1; 1])
     = Raise RuntimeError
  /\ Classifier_dropout_forward (Classifier_dropout zeros_R)
       (mkRng (fun _ => true) 0) (Tensor [64; 1; 28; 28] (repeat 0%R (64 * 784)))
     = Raise (AttributeError "dropout")
  /\ fst (epoch_flat [] toy_world) = Raise ZeroDivisionError.
Proof.
  split; [|split; [|split; [|split]]].
  - eexists. split; [reflexivity|]. vm_compute. reflexivity.
  - reflexivity.
  - vm_compute. reflexivity.
  - unfold Classifier_dropout_forward, shape0, view. cbn [shape rbind].
    replace (numel [64; 1; 28; 28] =? numel [64; 784]) with true by reflexivity.
    reflexivity.
  - reflexivity.
Qed.

(** ** Log-softmax and the two criteria *)

Lemma Rsum_exp_pos (row : list R) : row <> [] -> (0 < Rsum (map exp row))%R.
Proof.
  destruct row as [|x row]; [contradiction|]. intros _. simpl.
  assert (H : (0 <= Rsum (map exp row))%R).
  { induction row as [|y row IH]; simpl; [lra|].
    pose proof (exp_pos y). lra. }
  pose proof (exp_pos x). lra.
Qed.

Lemma Rsum_scaled (f : R -> R) (s : R) (row : list R) :
  Rsum (map (fun x => f x / s)%R row) = (Rsum (map f row) / s)%R.
Proof.
  induction row as [|x row IH]; simpl; [lra|]. rewrite IH. lra.
Qed.

(** The exponentials of a row of log-softmax values sum to 1. *)
Lemma log_softmax_row_normalised (row : list R) :
  row <> [] -> Rsum (map exp (log_softmax_row row)) = 1%R.
Proof.
  intros Hne. pose proof (Rsum_exp_pos row Hne) as Hpos.
  unfold log_softmax_row. rewrite map_map.
  rewrite (map_ext _ (fun x => (exp x / Rsum (map exp row))%R)).
  - rewrite Rsum_scaled. field. lra.
  - intros x. unfold Rminus. rewrite exp_plus, exp_Ropp, exp_ln; [reflexivity|exact Hpos].
Qed.

Lemma log_softmax_row_length (row : list R) :
  length (log_softmax_row row) = length row.
Proof. unfold log_softmax_row. apply length_map. Qed.

Lemma chunks_nil {X} (k m : nat) : @chunks X k m [] = repeat [] k.
Proof.
  induction k as [|k IH]; simpl; [reflexivity|].
  rewrite firstn_nil, skipn_nil, IH. reflexivity.
Qed.

Lemma firstn_app_exact {X} (m : nat) (r rest : list X) :
  length r = m -> firstn m (r ++ rest) = r.
Proof.
  intros <-. rewrite firstn_app, Nat.sub_diag, firstn_all. simpl. apply app_nil_r.
Qed.

Lemma skipn_app_exact {X} (m : nat) (r rest : list X) :
  length r = m -> skipn m (r ++ rest) = rest.
Proof.
  intros <-. rewrite skipn_app, Nat.sub_diag, skipn_all. reflexivity.
Qed.

(** Cutting in rows, changing every row without changing its length, and
    cutting again gives the changed rows; the storage need not be full. *)
Lemma chunks_flat_map {X Y} (f : list X -> list Y) (k m : nat) (xs : list X) :
  (forall r, length (f r) = length r) ->
  chunks k m (flat_map f (chunks k m xs)) = map f (chunks k m xs).
Proof.
  intros Hf.
  assert (Hnil : f [] = []) by (apply length_zero_iff_nil; now rewrite Hf).
  revert xs; induction k as [|k IH]; intros xs; simpl; [reflexivity|].
  destruct (Nat.le_gt_cases m (length xs)) as [Hle|Hgt].
  - assert (Hr : length (f (firstn m xs)) = m)
      by (rewrite Hf; now apply firstn_length_le).
    rewrite (firstn_app_exact m _ _ Hr), (skipn_app_exact m _ _ Hr).
    now rewrite IH.
  - rewrite (skipn_all2 xs) by lia. rewrite chunks_nil.
    assert (E : flat_map f (repeat [] k) = []).
    { clear IH. induction k as [|k IHk]; simpl; [reflexivity|]. now rewrite Hnil, IHk. }
    rewrite E, app_nil_r.
    assert (Hr : length (f (firstn m xs)) <= m).
    { rewrite Hf, length_firstn. lia. }
    rewrite firstn_all2 by exact Hr.
    rewrite (skipn_all2 (f (firstn m xs))) by exact Hr.
    rewrite chunks_nil. f_equal.
    clear IH E. induction k as [|k IHk]; simpl; [reflexivity|]. now rewrite Hnil, IHk.
Qed.

Lemma map_result_ext_in {X Y} (f g : X -> result Y) (xs : list X) :
  (forall x, In x xs -> f x = g x) -> map_result f xs = map_result g xs.
Proof.
  induction xs as [|x xs IH]; intros H; simpl; [reflexivity|].
  rewrite (H x (or_introl eq_refl)), IH; [reflexivity|].
  intros y Hy. apply H. now right.
Qed.

Lemma combine_map_l {X Y Z} (f : X -> Y) (xs : list X) (zs : list Z) :
  combine (map f xs) zs = map (fun p => (f (fst p), snd p)) (combine xs zs).
Proof.
  revert zs; induction xs as [|x xs IH]; intros [|z zs]; simpl; try reflexivity.
  now rewrite IH.
Qed.

Lemma map_result_map {X Y Z} (f : Y -> result Z) (g : X -> Y) (xs : list X) :
  map_result f (map g xs) = map_result (fun x => f (g x)) xs.
Proof.
  induction xs as [|x xs IH]; simpl; [reflexivity|]. now rewrite IH.
Qed.

(** The loss of one example: the negative log-likelihood of the
    log-softmax is the cross entropy of the logits. *)
Lemma example_loss (row : list R) (y : nat) :
  (v <- pick (log_softmax_row row) y ;; Ok (- v)%R)%result
  = (v <- pick row y ;; Ok (- ln (exp v / Rsum (map exp row)))%R)%result.
Proof.
  unfold pick, log_softmax_row. rewrite nth_error_map.
  destruct (nth_error row y) as [v|] eqn:E; simpl; [|reflexivity].
  assert (Hne : row <> []) by (intros ->; destruct y; discriminate).
  pose proof (Rsum_exp_pos row Hne) as Hpos.
  unfold Rdiv. rewrite ln_mult; [|apply exp_pos|now apply Rinv_0_lt_compat].
  rewrite ln_Rinv by exact Hpos. now rewrite ln_exp.
Qed.

Lemma cross_entropy_is_nll_of_log_softmax (logits : tensor R) (labels : tensor nat) :
  cross_entropy logits labels
  = (log_ps <- log_softmax logits 1 ;; nll_loss log_ps labels)%result.
Proof.
  unfold cross_entropy, log_softmax.
  destruct (shape logits) as [|n [|c [|d rest]]]; try reflexivity.
  simpl rbind. unfold nll_loss, mean_over_batch. simpl shape. simpl data.
  destruct (shape labels) as [|n' [|? ?]]; try reflexivity.
  destruct (n =? n'); [|reflexivity].
  rewrite (chunks_flat_map log_softmax_row n c (data logits) log_softmax_row_length).
  rewrite combine_map_l, map_result_map.
  rewrite (map_result_ext_in
             (fun x => (v <- pick (log_softmax_row (fst x)) (snd x) ;; Ok (- v)%R)%result)
             (fun ry => (v <- pick (fst ry) (snd ry) ;;
                         Ok (- ln (exp v / Rsum (map exp (fst ry))))%R)%result)).
  - reflexivity.
  - intros [row y] _. apply example_loss.
Qed.

Lemma call_all_app (training : bool) (ms1 ms2 : list (string * attr R)) (g : rng)
      (x : tensor R) :
  call_all training (ms1 ++ ms2) g x
  = (yg <- call_all training ms1 g x ;; call_all training ms2 (snd yg) (fst yg))%result.
Proof.
  revert g x; induction ms1 as [|[name a] ms1 IH]; intros g x; simpl; [reflexivity|].
  destruct (call training a g x) as [yg|e]; simpl; [apply IH|reflexivity].
Qed.

(** C8.  The cross-entropy criterion on the logits is the negative
    log-likelihood criterion on their log-softmax over dimension 1, for
    every tensor of logits and every tensor of labels, errors included; and
    so the loss cell 2 of "Training Neural Networks" computes from the
    network without [LogSoftmax] is the loss cell 3 computes from the network
    that ends in it, when both networks have the same parameters and get
    the same batch. *)
Theorem cross_entropy_equals_nll_of_log_softmax :
  (forall (logits : tensor R) (labels : tensor nat),
      cross_entropy logits labels
      = (log_ps <- log_softmax logits 1 ;; nll_loss log_ps labels)%result)
  /\ (forall (rand : string -> list nat -> list R) (g : rng)
             (images : tensor R) (labels : tensor nat),
         loss_of_logits rand g images labels = loss_of_logps rand g images labels).
Proof.
  split; [exact cross_entropy_is_nll_of_log_softmax|].
  intros rand g images labels. unfold loss_of_logits, loss_of_logps.
  destruct (shape0 images) as [n|e]; [|reflexivity]. simpl rbind.
  destruct (view_infer images n) as [flat|e]; [|reflexivity]. simpl rbind.
  unfold Sequential_forward, model_logits, model_logps, Sequential.
  cbn [modules training].
  change (numbered 0 [nn_Linear rand "0" 784 128; ReLU; nn_Linear rand "2" 128 64;
                      ReLU; nn_Linear rand "4" 64 10; LogSoftmax 1])
    with (numbered 0 [nn_Linear rand "0" 784 128; ReLU; nn_Linear rand "2" 128 64;
                      ReLU; nn_Linear rand "4" 64 10]
          ++ [("5", AModule (LogSoftmax 1))]).
  rewrite call_all_app.
  destruct (call_all true _ g flat) as [[logits g']|e]; [|reflexivity].
  cbn [rbind fst snd call_all call call_layer].
  rewrite cross_entropy_is_nll_of_log_softmax.
  destruct (log_softmax logits 1) as [log_ps|e]; reflexivity.
Qed.

(** ** The forward pass of the classifiers *)

Lemma linear_row_length (i o : nat) (w b : tensor R) (x : list R) :
  length (linear_row i o w b x) = o.
Proof. unfold linear_row. now rewrite length_map, length_seq. Qed.

(** A linear layer on a batch of rows of its input size. *)
Lemma linear_on_rows (i o : nat) (w b : tensor R) (n : nat) (d : list R) :
  linear i o w b (Tensor [n; i] d)
  = Ok (Tensor [n; o] (flat_map (linear_row i o w b) (chunks n i d))).
Proof.
  unfold linear. cbn [shape data rev app numel fold_right].
  now rewrite Nat.eqb_refl, Nat.mul_1_r.
Qed.

Lemma call_linear_on_rows (rand : string -> list nat -> list R) (name : string)
      (i o : nat) (mode : bool) (g : rng) (n : nat) (d : list R) :
  exists w b,
    call mode (AModule (nn_Linear rand name i o)) g (Tensor [n; i] d)
    = Ok (Tensor [n; o] (flat_map (linear_row i o w b) (chunks n i d)), g).
Proof.
  unfold nn_Linear. eexists. eexists.
  cbn [call call_layer]. rewrite linear_on_rows. reflexivity.
Qed.

(** Dropout keeps the sizes. *)
Lemma call_dropout_on_rows (p : Q) (mode : bool) (g : rng) (sh : list nat) (d : list R) :
  exists d' g',
    call mode (AModule (Dropout p)) g (Tensor sh d) = Ok (Tensor sh d', g').
Proof.
  cbn [call call_layer]. unfold dropout. destruct mode; eexists; eexists; reflexivity.
Qed.

(** [x.view(x.shape[0], -1)] on a batch that is not empty. *)
Lemma flatten_batch {X} (x : tensor X) (n : nat) (rest : list nat) :
  shape x = n :: rest -> 0 < n ->
  shape0 x = Ok n /\ view_infer x n = Ok (Tensor [n; numel rest] (data x)).
Proof.
  intros Hs Hn. unfold shape0, view_infer. rewrite Hs. split; [reflexivity|].
  destruct (Nat.eqb_spec n 0) as [E|_]; [lia|].
  cbn [numel fold_right]. fold (numel rest).
  rewrite (Nat.mul_comm n (numel rest)), Nat.Div0.mod_mul, Nat.div_mul by lia.
  reflexivity.
Qed.

(** The log-softmax of a batch of full rows. *)
Lemma log_softmax_on_rows (n c : nat) (logits : list (list R)) :
  length logits = n -> Forall (fun r => length r = c) logits ->
  log_softmax (Tensor [n; c] (concat logits)) 1
  = Ok (Tensor [n; c] (concat (map log_softmax_row logits))).
Proof.
  intros Hn Hc. unfold log_softmax. cbn [shape data].
  rewrite (chunks_concat n c logits Hn Hc). now rewrite flat_map_concat_map.
Qed.

(** One layer of a forward pass: the call is replaced by its value. *)
Ltac linear_step rand name i o :=
  match goal with
  | |- context [call ?mode (AModule (nn_Linear rand name i o)) ?g (Tensor [?n; i] ?d)] =>
      let E := fresh "E" in
      destruct (call_linear_on_rows rand name i o mode g n d) as [? [? E]];
      rewrite E; cbn [rbind fst snd]
  end.

Ltac dropout_step :=
  unfold relu at 1; cbn [shape data];
  match goal with
  | |- context [call ?mode (AModule (Dropout ?p)) ?g (Tensor ?sh ?d)] =>
      let E := fresh "E" in
      destruct (call_dropout_on_rows p mode g sh d) as [? [? E]];
      rewrite E; cbn [rbind fst snd]
  end.

Ltac relu_step := unfold relu at 1; cbn [shape data].

(** The forward pass of the classifier of cell 2 ends in the log-softmax of
    [n] rows of 10 logits. *)
Lemma Classifier_forward_rows (rand : string -> list nat -> list R) (g : rng)
      (x : tensor R) (n : nat) (rest : list nat) :
  shape x = n :: rest -> 0 < n -> numel rest = 784 ->
  exists logits : list (list R),
    length logits = n
    /\ Forall (fun r => length r = 10) logits
    /\ Classifier_forward (Classifier rand) g x
       = Ok (Tensor [n; 10] (concat (map log_softmax_row logits)), g).
Proof.
  intros Hs Hn H784.
  destruct (flatten_batch x n rest Hs Hn) as [E0 Ev]. rewrite H784 in Ev.
  unfold Classifier_forward. rewrite E0. cbn [rbind]. rewrite Ev. cbn [rbind].
  change (getattr (Classifier rand) "fc1") with (Ok (AModule (nn_Linear rand "fc1" 784 256))).
  change (getattr (Classifier rand) "fc2") with (Ok (AModule (nn_Linear rand "fc2" 256 128))).
  change (getattr (Classifier rand) "fc3") with (Ok (AModule (nn_Linear rand "fc3" 128 64))).
  change (getattr (Classifier rand) "fc4") with (Ok (AModule (nn_Linear rand "fc4" 64 10))).
  cbn [rbind].
  linear_step rand "fc1" 784 256. relu_step.
  linear_step rand "fc2" 256 128. relu_step.
  linear_step rand "fc3" 128 64. relu_step.
  linear_step rand "fc4" 64 10.
  rewrite flat_map_concat_map.
  match goal with
  | |- context [log_softmax (Tensor [n; 10] (concat ?ls)) 1] => exists ls
  end.
  assert (Hrows : forall (w b : tensor R) (rs : list (list R)),
             Forall (fun r => length r = 10) (map (linear_row 64 10 w b) rs)).
  { intros w b rs. rewrite Forall_map. apply Forall_forall.
    intros r _. apply linear_row_length. }
  split; [now rewrite length_map, chunks_length|].
  split; [apply Hrows|].
  rewrite log_softmax_on_rows; [reflexivity| |apply Hrows].
  now rewrite length_map, chunks_length.
Qed.

(** The class the text of the notebook shows, with [self.dropout] defined,
    completes its forward pass on every batch of [n > 0] examples of 784
    values. *)
Lemma Classifier_shown_forward_completes (rand : string -> list nat -> list R)
      (g : rng) (x : tensor R) (n : nat) (rest : list nat) :
  shape x = n :: rest -> 0 < n -> numel rest = 784 ->
  exists out g',
    Classifier_shown_forward (Classifier_shown rand) g x = Ok (out, g')
    /\ shape out = [n; 10].
Proof.
  intros Hs Hn H784.
  destruct (flatten_batch x n rest Hs Hn) as [E0 Ev]. rewrite H784 in Ev.
  unfold Classifier_shown_forward. rewrite E0. cbn [rbind]. rewrite Ev. cbn [rbind].
  change (getattr (Classifier_shown rand) "dropout")
    with (Ok (AModule (@Dropout R (2 # 10)))).
  change (getattr (Classifier_shown rand) "fc1")
    with (Ok (AModule (nn_Linear rand "fc1" 784 256))).
  change (getattr (Classifier_shown rand) "fc2")
    with (Ok (AModule (nn_Linear rand "fc2" 256 128))).
  change (getattr (Classifier_shown rand) "fc3")
    with (Ok (AModule (nn_Linear rand "fc3" 128 64))).
  change (getattr (Classifier_shown rand) "fc4")
    with (Ok (AModule (nn_Linear rand "fc4" 64 10))).
  cbn [rbind].
  linear_step rand "fc1" 784 256. dropout_step.
  linear_step rand "fc2" 256 128. dropout_step.
  linear_step rand "fc3" 128 64. dropout_step.
  linear_step rand "fc4" 64 10.
  unfold log_softmax. cbn [shape data rbind].
  eexists. eexists. split; reflexivity.
Qed.

(** C7.  The forward pass of the classifier with dropout of cell 13 raises
    on every batch whose examples have 784 values: [__init__] stores the
    dropout layer as [self.droput], and [forward] asks for [self.dropout].
    No hidden activation goes through dropout, and no output is returned. *)
Theorem Classifier_dropout_forward_raises (rand : string -> list nat -> list R)
        (g : rng) (x : tensor R) (n : nat) (rest : list nat) :
  shape x = n :: rest -> numel rest = 784 ->
  getattr (Classifier_dropout rand) "droput" = Ok (AModule (Dropout (2 # 10)))
  /\ Classifier_dropout_forward (Classifier_dropout rand) g x
     = Raise (AttributeError "dropout").
Proof.
  intros Hs H784. split; [reflexivity|].
  unfold Classifier_dropout_forward, shape0, view. rewrite Hs. cbn [rbind].
  assert (E : (numel (n :: rest) =? numel [n; 784]) = true).
  { apply Nat.eqb_eq. cbn [numel fold_right]. fold (numel rest).
    now rewrite H784, Nat.mul_1_r. }
  rewrite E. cbn [rbind]. reflexivity.
Qed.

(** C7 on a batch of one image of 28 by 28 pixels. *)
Lemma Classifier_dropout_forward_raises_on_an_image :
  Classifier_dropout_forward (Classifier_dropout zeros_R) (mkRng (fun _ => true) 0)
    (Tensor [1; 1; 28; 28] (repeat 0%R 784))
  = Raise (AttributeError "dropout").
Proof.
  apply (Classifier_dropout_forward_raises zeros_R (mkRng (fun _ => true) 0)
           (Tensor [1; 1; 28; 28] (repeat 0%R 784)) 1 [1; 28; 28]); reflexivity.
Defined.

(** C10.  On every batch of [n > 0] examples of 784 values each, the
    forward pass of the classifier first flattens the batch to sizes
    [(n, 784)] and returns a tensor of sizes [(n, 10)] in whose every row the
    exponentials of the entries are positive and sum to 1. *)
Theorem Classifier_forward_gives_log_probabilities
        (rand : string -> list nat -> list R) (g : rng)
        (x : tensor R) (n : nat) (rest : list nat) :
  shape x = n :: rest -> 0 < n -> numel rest = 784 ->
  flattened x = Ok (Tensor [n; 784] (data x))
  /\ exists out g',
       Classifier_forward (Classifier rand) g x = Ok (out, g')
       /\ shape out = [n; 10]
       /\ length (rows out) = n
       /\ forall row, In row (rows out) ->
            length row = 10
            /\ Forall (fun p => (0 < p)%R) (map exp row)
            /\ Rsum (map exp row) = 1%R.
Proof.
  intros Hs Hn H784. split.
  - destruct (flatten_batch x n rest Hs Hn) as [E0 Ev]. rewrite H784 in Ev.
    unfold flattened. now rewrite E0.
  - destruct (Classifier_forward_rows rand g x n rest Hs Hn H784)
      as [logits [Hlen [Hall E]]].
    eexists. exists g. split; [exact E|]. split; [reflexivity|].
    assert (Hrows : rows (Tensor [n; 10] (concat (map log_softmax_row logits)))
                    = map log_softmax_row logits).
    { unfold rows. cbn [shape data]. apply chunks_concat.
      - now rewrite length_map.
      - rewrite Forall_map. eapply Forall_impl; [|exact Hall].
        intros r Hr. now rewrite log_softmax_row_length. }
    rewrite Hrows. split; [now rewrite length_map|].
    intros row Hin. apply in_map_iff in Hin. destruct Hin as [r [<- Hr]].
    rewrite Forall_forall in Hall. specialize (Hall r Hr).
    split; [now rewrite log_softmax_row_length|]. split.
    + apply Forall_forall. intros p Hp. apply in_map_iff in Hp.
      destruct Hp as [v [<- _]]. apply exp_pos.
    + apply log_softmax_row_normalised. intros ->. discriminate.
Qed.

(** C10 on a batch of one image of 28 by 28 pixels. *)
Lemma Classifier_forward_gives_log_probabilities_witness :
  flattened (Tensor [1; 1; 28; 28] (repeat 0%R 784))
  = Ok (Tensor [1; 784] (repeat 0%R 784))
  /\ exists out g',
       Classifier_forward (Classifier zeros_R) (mkRng (fun _ => true) 0)
         (Tensor [1; 1; 28; 28] (repeat 0%R 784))
       = Ok (out, g')
       /\ shape out = [1; 10]
       /\ length (rows out) = 1
       /\ forall row, In row (rows out) ->
            length row = 10
            /\ Forall (fun p => (0 < p)%R) (map exp row)
            /\ Rsum (map exp row) = 1%R.
Proof.
  apply (Classifier_forward_gives_log_probabilities zeros_R (mkRng (fun _ => true) 0)
           (Tensor [1; 1; 28; 28] (repeat 0%R 784)) 1 [1; 28; 28]).
  - reflexivity.
  - lia.
  - reflexivity.
Defined.

(* ================================================================== *)
(** * Part III.  Further properties *)
(* ================================================================== *)

(** ** The batches of a loader, one by one *)

(** Batch [k] of a list cut in pieces of [bs] holds the entries from
    position [k * bs] on, [bs] of them or what is left. *)
Lemma batched_fuel_nth {X} (bs : nat) :
  0 < bs ->
  forall (fuel : nat) (xs : list X) (k : nat),
    length xs <= fuel ->
    nth_error (batched_fuel fuel bs xs) k
    = if k * bs <? length xs then Some (firstn bs (skipn (k * bs) xs)) else None.
Proof.
  intros Hbs fuel; induction fuel as [|fuel IH]; intros xs k Hlen.
  - destruct xs; [|simpl in Hlen; lia]. simpl.
    destruct (Nat.ltb_spec (k * bs) 0); [lia|]. now destruct k.
  - destruct xs as [|x xs].
    + simpl. destruct (Nat.ltb_spec (k * bs) 0); [lia|]. now destruct k.
    + cbn [batched_fuel]. destruct k as [|k].
      * reflexivity.
      * cbn [nth_error]. rewrite IH.
        2:{ rewrite length_skipn. simpl length in Hlen |- *. lia. }
        rewrite length_skipn, skipn_skipn.
        replace (k * bs + bs) with (S k * bs) by lia.
        destruct (Nat.ltb_spec (k * bs) (length (x :: xs) - bs));
          destruct (Nat.ltb_spec (S k * bs) (length (x :: xs))); try reflexivity; lia.
Qed.

Lemma batched_fuel_length {X} (bs : nat) :
  0 < bs ->
  forall (fuel : nat) (xs : list X),
    length xs <= fuel ->
    length (batched_fuel fuel bs xs) = (length xs + bs - 1) / bs.
Proof.
  intros Hbs fuel; induction fuel as [|fuel IH]; intros xs Hlen.
  - destruct xs; [|simpl in Hlen; lia]. simpl.
    symmetry. apply Nat.div_small. lia.
  - destruct xs as [|x xs].
    + simpl. symmetry. apply Nat.div_small. lia.
    + cbn [batched_fuel length]. rewrite IH.
      2:{ rewrite length_skipn. simpl length in Hlen |- *. lia. }
      rewrite length_skipn. cbn [length].
      destruct (Nat.le_gt_cases (S (length xs)) bs) as [Hle|Hgt].
      * replace (S (length xs) - bs) with 0 by lia.
        rewrite (Nat.div_small (0 + bs - 1) bs) by lia.
        apply (Nat.div_unique _ _ 1 (S (length xs) - 1)); lia.
      * replace (S (length xs) + bs - 1) with (S (length xs) - bs + bs - 1 + 1 * bs) by lia.
        rewrite Nat.div_add by lia. lia.
Qed.

(** X1.  A pass over a loader of a data set that is not empty, with a batch
    size that is not 0: the number of batches is the number of samples over
    the batch size, rounded up; batch [k] is made of the samples from
    position [k * batch_size] of the pass on, [batch_size] of them or what is
    left; no batch is empty and none is larger than the batch size; and the
    labels of the batches, one after the other, are the labels of the pass. *)
Theorem DataLoader_batches (item_shape : list nat) (order : list sample)
        (batch_size : nat) :
  0 < batch_size -> order <> [] ->
  exists loader,
    DataLoader item_shape order batch_size = Ok loader
    /\ length loader = (length order + batch_size - 1) / batch_size
    /\ (forall k, k < length loader ->
          nth_error loader k
          = Some (collate item_shape
                    (firstn batch_size (skipn (k * batch_size) order))))
    /\ Forall (fun b => exists n, 0 < n <= batch_size
                                  /\ shape (fst b) = n :: item_shape
                                  /\ shape (snd b) = [n]) loader
    /\ concat (map (fun b => data (snd b)) loader) = map snd order.
Proof.
  intros Hbs Hne. unfold DataLoader.
  destruct (Nat.eqb_spec batch_size 0) as [E|_]; [lia|].
  eexists. split; [reflexivity|].
  pose proof (batched_fuel_length batch_size Hbs (length order) order (Nat.le_refl _))
    as Hlen.
  fold (batched batch_size order) in Hlen.
  destruct (batched_complete batch_size order Hbs) as [Hcat Hnonempty].
  split; [now rewrite length_map|]. split; [|split].
  - intros k Hk. rewrite length_map in Hk.
    rewrite nth_error_map. unfold batched.
    rewrite (batched_fuel_nth batch_size Hbs) by apply Nat.le_refl.
    destruct (Nat.ltb_spec (k * batch_size) (length order)) as [_|Hge]; [reflexivity|].
    exfalso. rewrite Hlen in Hk.
    assert (H : (length order + batch_size - 1) / batch_size < S k); [|lia].
    apply Nat.Div0.div_lt_upper_bound. nia.
  - rewrite Forall_map. rewrite Forall_forall in *. intros ss Hss.
    exists (length ss). simpl. repeat split.
    + specialize (Hnonempty ss Hss). destruct ss; [contradiction|simpl; lia].
    + apply In_nth_error in Hss. destruct Hss as [k Hk].
      unfold batched in Hk.
      rewrite (batched_fuel_nth batch_size Hbs) in Hk by apply Nat.le_refl.
      destruct (k * batch_size <? length order); [|discriminate].
      inversion Hk. rewrite length_firstn. lia.
  - rewrite map_map. simpl.
    rewrite <- Hcat at 2. rewrite concat_map. reflexivity.
Qed.

(** X1 on a pass of five samples with batches of two. *)
Lemma DataLoader_batches_witness :
  exists loader,
    DataLoader [2] [right_sample; wrong_sample; right_sample; right_sample; wrong_sample] 2
    = Ok loader
    /\ length loader = (5 + 2 - 1) / 2
    /\ (forall k, k < length loader ->
          nth_error loader k
          = Some (collate [2]
                    (firstn 2 (skipn (k * 2)
                       [right_sample; wrong_sample; right_sample; right_sample;
                        wrong_sample]))))
    /\ Forall (fun b => exists n, 0 < n <= 2
                                  /\ shape (fst b) = [n; 2]
                                  /\ shape (snd b) = [n]) loader
    /\ concat (map (fun b => data (snd b)) loader) = [0; 1; 0; 0; 1].
Proof.
  apply (DataLoader_batches [2]
           [right_sample; wrong_sample; right_sample; right_sample; wrong_sample] 2).
  - lia.
  - discriminate.
Defined.

(** ** Which batches the classifiers take *)

(** X3.  The forward pass of the classifier of cell 2 returns exactly on the
    batches of at least one example of 784 values, with one row of 10 values
    per example and without using the random generator.  A tensor without
    dimensions has no [shape[0]]; every other tensor is refused with
    [RuntimeError], by the [view] when the batch is empty and by the first
    linear layer when the examples do not have 784 values. *)
Theorem Classifier_forward_accepts_exactly_784
        (rand : string -> list nat -> list R) (g : rng) (x : tensor R) :
  match shape x with
  | [] => Classifier_forward (Classifier rand) g x = Raise IndexError
  | n :: rest =>
      if (0 <? n) && (numel rest =? 784)
      then exists out,
             Classifier_forward (Classifier rand) g x = Ok (out, g)
             /\ shape out = [n; 10]
      else Classifier_forward (Classifier rand) g x = Raise RuntimeError
  end.
Proof.
  destruct (shape x) as [|n rest] eqn:Hs.
  - unfold Classifier_forward, shape0. now rewrite Hs.
  - destruct (Nat.ltb_spec 0 n) as [Hn|Hn]; cbn [andb].
    + destruct (Nat.eqb_spec (numel rest) 784) as [H784|H784].
      * destruct (Classifier_forward_rows rand g x n rest Hs Hn H784)
          as [logits [_ [_ E]]].
        eexists. split; [exact E|reflexivity].
      * destruct (flatten_batch x n rest Hs Hn) as [E0 Ev].
        unfold Classifier_forward. rewrite E0. cbn [rbind]. rewrite Ev. cbn [rbind].
        change (getattr (Classifier rand) "fc1")
          with (Ok (AModule (nn_Linear rand "fc1" 784 256))).
        cbn [rbind call call_layer nn_Linear]. unfold linear. cbn [shape rev app].
        destruct (Nat.eqb_spec (numel rest) 784) as [E|_]; [contradiction|].
        reflexivity.
    + assert (n = 0) by lia. subst n.
      unfold Classifier_forward, shape0. rewrite Hs. reflexivity.
Qed.

(** X4.  The forward pass of the classifier with dropout of cell 13 returns
    on no tensor at all.  A tensor without dimensions has no [shape[0]]; a
    batch that cannot be viewed as rows of 784 values is refused by the
    [view]; on every other tensor, the empty batch included, the first
    [self.dropout] is looked up and is not there. *)
Theorem Classifier_dropout_forward_never_returns
        (rand : string -> list nat -> list R) (g : rng) (x : tensor R) :
  Classifier_dropout_forward (Classifier_dropout rand) g x
  = Raise (match shape x with
           | [] => IndexError
           | n :: rest =>
               if (n =? 0) || (numel rest =? 784)
               then AttributeError "dropout"
               else RuntimeError
           end).
Proof.
  unfold Classifier_dropout_forward, shape0, view.
  destruct (shape x) as [|n rest] eqn:Hs; [reflexivity|]. cbn [rbind].
  cbn [numel fold_right]. fold (numel rest). rewrite Nat.mul_1_r.
  destruct (Nat.eqb_spec n 0) as [->|Hn]; [reflexivity|]. cbn [orb].
  destruct (Nat.eqb_spec (numel rest) 784) as [->|H784].
  - rewrite Nat.eqb_refl. reflexivity.
  - destruct (Nat.eqb_spec (n * numel rest) (n * 784)) as [E|_]; [|reflexivity].
    apply Nat.mul_cancel_l in E; [contradiction|exact Hn].
Qed.

(** ** The sequential network of "Training Neural Networks" *)

(** The network that ends in [nn.LogSoftmax(dim=1)], on [n] rows of 784
    values: [n] rows of 10 log-softmax values, in either mode and without
    using the random generator. *)
Lemma call_ReLU (mode : bool) (g : rng) (x : tensor R) :
  call mode (AModule ReLU) g x = Ok (relu x, g).
Proof. reflexivity. Qed.

Lemma model_logps_forward_rows (rand : string -> list nat -> list R) (mode : bool)
      (g : rng) (n : nat) (d : list R) :
  exists logits : list (list R),
    length logits = n
    /\ Forall (fun r => length r = 10) logits
    /\ call_all mode (modules (model_logps rand)) g (Tensor [n; 784] d)
       = Ok (Tensor [n; 10] (concat (map log_softmax_row logits)), g).
Proof.
  unfold model_logps, Sequential. cbn [modules numbered call_all].
  linear_step rand "0"%string 784 128. rewrite call_ReLU. cbn [rbind fst snd]. relu_step.
  linear_step rand "2"%string 128 64. rewrite call_ReLU. cbn [rbind fst snd]. relu_step.
  linear_step rand "4"%string 64 10. cbn [call call_layer rbind fst snd].
  rewrite flat_map_concat_map.
  match goal with
  | |- context [log_softmax (Tensor [n; 10] (concat ?ls)) 1] => exists ls
  end.
  assert (Hrows : forall (w b : tensor R) (rs : list (list R)),
             Forall (fun r => length r = 10) (map (linear_row 64 10 w b) rs)).
  { intros w b rs. rewrite Forall_map. apply Forall_forall.
    intros r _. apply linear_row_length. }
  split; [now rewrite length_map, chunks_length|].
  split; [apply Hrows|].
  rewrite log_softmax_on_rows; [reflexivity| |apply Hrows].
  now rewrite length_map, chunks_length.
Qed.

(** X5.  The last cell of "Training Neural Networks", for every value of the
    parameters of the network.  On a batch of at least one image of 784
    values it hands to [helper.view_classify] the first image of the batch,
    in sizes (1, 28, 28), and one row of 10 probabilities: positive numbers
    that sum to 1.  On an empty batch [images[0]] is an [IndexError], and
    images of another number of values are refused by [view(1, 784)]. *)
Theorem classify_first_gives_the_image_and_its_probabilities
        (rand : string -> list nat -> list R) (g : rng) (images : tensor R) :
  match shape images with
  | [] | 0 :: _ => classify_first rand g images = Raise IndexError
  | S n :: rest =>
      if numel rest =? 784
      then index0 images 0 = Ok (Tensor rest (firstn 784 (data images)))
           /\ exists ps,
                classify_first rand g images
                = Ok (Tensor [1; 28; 28] (firstn 784 (data images)), ps)
                /\ shape ps = [1; 10]
                /\ length (data ps) = 10
                /\ Forall (fun p => (0 < p)%R) (data ps)
                /\ Rsum (data ps) = 1%R
      else classify_first rand g images = Raise RuntimeError
  end.
Proof.
  unfold classify_first, index0.
  destruct (shape images) as [|[|n] rest] eqn:Hs; try reflexivity.
  cbn [Nat.ltb Nat.leb rbind]. rewrite Nat.mul_0_l. cbn [skipn].
  change (view (Tensor rest (firstn (numel rest) (data images))) [1; 784])
    with (if numel rest =? numel [1; 784]
          then Ok (Tensor [1; 784] (firstn (numel rest) (data images)))
          else Raise RuntimeError).
  replace (numel [1; 784]) with 784 by (cbn [numel fold_right]; lia).
  destruct (Nat.eqb_spec (numel rest) 784) as [H784|H784]; [|reflexivity].
  rewrite H784. split; [reflexivity|]. cbn [rbind].
  unfold Sequential_forward.
  change (training (model_logps rand)) with true.
  destruct (model_logps_forward_rows rand true g 1 (firstn 784 (data images)))
    as [logits [Hlen [Hall E]]].
  rewrite E. cbn [rbind fst]. unfold view. cbn [shape data].
  replace (numel [1; 784] =? numel [1; 28; 28]) with true
    by (symmetry; apply Nat.eqb_eq; vm_compute; reflexivity).
  cbn [rbind]. eexists. split; [reflexivity|].
  destruct logits as [|row [|? ?]]; try discriminate.
  inversion Hall as [|? ? Hrow _]; subst.
  cbn [exp_tensor shape data map List.concat]. rewrite app_nil_r.
  split; [reflexivity|]. split.
  - now rewrite length_map, log_softmax_row_length.
  - split.
    + apply Forall_forall. intros p Hp. apply in_map_iff in Hp.
      destruct Hp as [v [<- _]]. apply exp_pos.
    + apply log_softmax_row_normalised. intros ->. discriminate.
Qed.

(** ** The accuracy of a batch, at its edges *)

Lemma matches_le (ps : tensor Q) (labels : tensor nat) :
  matches ps labels <= length (data labels).
Proof.
  unfold matches.
  etransitivity; [apply filter_length_le|].
  rewrite length_combine. apply Nat.le_min_r.
Qed.

Lemma of_nat_Q_pos (n : nat) : 0 < n -> (0 < of_nat_Q n)%Q.
Proof. intros H. unfold of_nat_Q, Qlt. simpl. lia. Qed.

Lemma of_nat_Q_le (m n : nat) : m <= n -> (of_nat_Q m <= of_nat_Q n)%Q.
Proof. intros H. unfold of_nat_Q, Qle. simpl. lia. Qed.

Lemma of_nat_Q_eq (m n : nat) : (of_nat_Q m == of_nat_Q n)%Q <-> m = n.
Proof. unfold of_nat_Q, Qeq. simpl. lia. Qed.

Lemma Qdiv_eq_1 (a b : Q) : ~ (b == 0)%Q -> ((a / b == 1)%Q <-> (a == b)%Q).
Proof.
  intros Hb. split; intros H.
  - rewrite <- (Qmult_1_l b), <- H. field. exact Hb.
  - rewrite H. field. exact Hb.
Qed.

Lemma Qdiv_eq_0 (a b : Q) : ~ (b == 0)%Q -> ((a / b == 0)%Q <-> (a == 0)%Q).
Proof.
  intros Hb. split; intros H.
  - assert (E : (a == a / b * b)%Q) by (field; exact Hb).
    rewrite E, H. apply Qmult_0_l.
  - rewrite H. field. exact Hb.
Qed.

(** X7.  The accuracy of a batch of [n > 0] examples is a number between 0
    and 1 (so the percentage cell 6 prints is between 0 and 100); it is 1
    exactly when the top-1 class of every example is its label, and 0
    exactly when that of no example is. *)
Theorem accuracy_is_between_0_and_1 (ps : tensor Q) (labels : tensor nat) (n c : nat) :
  shape ps = [n; c] -> wf_tensor ps ->
  shape labels = [n] -> wf_tensor labels ->
  0 < n -> 0 < c ->
  exists a,
    accuracy ps labels = Ok (fin a)
    /\ (0 <= a)%Q /\ (a <= 1)%Q
    /\ ((a == 1)%Q <-> matches ps labels = n)
    /\ ((a == 0)%Q <-> matches ps labels = 0).
Proof.
  intros Hs Hw Hl Hwl Hn Hc.
  exists (of_nat_Q (matches ps labels) / of_nat_Q n)%Q.
  split; [now apply (accuracy_value ps labels n c)|].
  assert (Hm : matches ps labels <= n).
  { etransitivity; [apply matches_le|].
    unfold wf_tensor in Hwl. rewrite Hwl, Hl. simpl. lia. }
  pose proof (of_nat_Q_pos n Hn) as Hpos.
  pose proof (of_nat_Q_nonzero n Hn) as Hnz.
  split; [|split; [|split]].
  - apply Qle_shift_div_l; [exact Hpos|].
    rewrite Qmult_0_l. change 0%Q with (of_nat_Q 0). apply of_nat_Q_le. lia.
  - apply Qle_shift_div_r; [exact Hpos|].
    rewrite Qmult_1_l. now apply of_nat_Q_le.
  - rewrite (Qdiv_eq_1 _ _ Hnz). apply of_nat_Q_eq.
  - rewrite (Qdiv_eq_0 _ _ Hnz). change 0%Q with (of_nat_Q 0). apply of_nat_Q_eq.
Qed.

(** X7 on a batch of three examples and two classes. *)
Lemma accuracy_is_between_0_and_1_witness :
  exists a,
    accuracy (Tensor [3; 2] [1 # 2; 1 # 3; 0; 1; 3 # 4; 1 # 4]%Q) (Tensor [3] [0; 0; 0])
    = Ok (fin a)
    /\ (0 <= a)%Q /\ (a <= 1)%Q
    /\ ((a == 1)%Q
        <-> matches (Tensor [3; 2] [1 # 2; 1 # 3; 0; 1; 3 # 4; 1 # 4]%Q)
                    (Tensor [3] [0; 0; 0]) = 3)
    /\ ((a == 0)%Q
        <-> matches (Tensor [3; 2] [1 # 2; 1 # 3; 0; 1; 3 # 4; 1 # 4]%Q)
                    (Tensor [3] [0; 0; 0]) = 0).
Proof.
  apply (accuracy_is_between_0_and_1
           (Tensor [3; 2] [1 # 2; 1 # 3; 0; 1; 3 # 4; 1 # 4]%Q) (Tensor [3] [0; 0; 0]) 3 2);
    try reflexivity; lia.
Defined.

(** X8.  The [view] of the labels is also a check: when the number of labels
    is not the number of rows of [ps], [labels.view( *top_class.shape)]
    raises and no accuracy is computed. *)
Theorem accuracy_refuses_miscounted_labels (ps : tensor Q) (labels : tensor nat)
        (n c : nat) :
  shape ps = [n; c] -> wf_tensor ps -> 0 < c ->
  numel (shape labels) <> n ->
  accuracy ps labels = Raise RuntimeError.
Proof.
  intros Hs Hw Hc Hne. unfold accuracy.
  destruct (topk1_rows Qltb ps n c Hs Hw Hc) as [best [Ek _]].
  rewrite Ek. cbn [rbind]. unfold equals_of, view. cbn [shape].
  destruct (Nat.eqb_spec (numel (shape labels)) (numel [n; 1])) as [E|_]; [|reflexivity].
  exfalso. apply Hne. rewrite E. cbn [numel fold_right]. lia.
Qed.

(** X8 on three rows of probabilities and two labels. *)
Lemma accuracy_refuses_miscounted_labels_witness :
  accuracy (Tensor [3; 2] [1 # 2; 1 # 3; 0; 1; 3 # 4; 1 # 4]%Q) (Tensor [2] [0; 0])
  = Raise RuntimeError.
Proof.
  apply (accuracy_refuses_miscounted_labels
           (Tensor [3; 2] [1 # 2; 1 # 3; 0; 1; 3 # 4; 1 # 4]%Q) (Tensor [2] [0; 0]) 3 2).
  - reflexivity.
  - reflexivity.
  - lia.
  - simpl. lia.
Defined.

(** X9.  On a batch without examples the mean is taken over no entry and
    the accuracy is [nan].  No batch of a loader is such a batch: for every
    batch [b] that a loader yields and every tensor [ps] of one row of
    [c > 0] probabilities per example of [b], the accuracy is a number. *)
Theorem accuracy_of_a_loader_batch_is_a_number
        (item_shape : list nat) (order : list sample) (batch_size : nat)
        (loader : list batch) (b : batch) (ps : tensor Q) (c : nat) :
  DataLoader item_shape order batch_size = Ok loader ->
  In b loader ->
  shape ps = [length (data (snd b)); c] -> wf_tensor ps -> 0 < c ->
  (exists a, accuracy ps (snd b) = Ok (fin a))
  /\ accuracy (Tensor [0; c] []) (Tensor [0] []) = Ok nan.
Proof.
  intros HL Hin Hs Hw Hc. split; [|reflexivity].
  unfold DataLoader in HL.
  destruct (Nat.eqb_spec batch_size 0) as [E|Hbs]; [discriminate|].
  inversion HL; subst loader. clear HL.
  apply in_map_iff in Hin. destruct Hin as [ss [<- Hss]].
  destruct (batched_complete batch_size order) as [_ Hne]; [lia|].
  rewrite Forall_forall in Hne. specialize (Hne ss Hss).
  cbn [collate snd data] in *. rewrite length_map in Hs.
  eexists. apply (accuracy_value ps _ (length ss) c); try assumption.
  - reflexivity.
  - unfold wf_tensor. simpl. now rewrite length_map, Nat.mul_1_r.
  - destruct ss; [contradiction|simpl; lia].
Qed.

(** X9 on the second batch of a pass of three samples in batches of two. *)
Lemma accuracy_of_a_loader_batch_is_a_number_witness :
  (exists a, accuracy (Tensor [1; 2] [1; 0]%Q) (Tensor [1] [0]) = Ok (fin a))
  /\ accuracy (Tensor [0; 2] []) (Tensor [0] []) = Ok nan.
Proof.
  apply (accuracy_of_a_loader_batch_is_a_number
           [2] [right_sample; wrong_sample; right_sample] 2
           [collate [2] [right_sample; wrong_sample]; collate [2] [right_sample]]
           (collate [2] [right_sample]) (Tensor [1; 2] [1; 0]%Q) 2).
  - reflexivity.
  - right. left. reflexivity.
  - reflexivity.
  - reflexivity.
  - lia.
Defined.

(** ** The comparison without the view *)

Lemma concat_repeat_singleton {X} (x : X) (m : nat) :
  concat (repeat [x] m) = repeat x m.
Proof. induction m as [|m IH]; simpl; [reflexivity|]. now rewrite IH. Qed.

(** A row of one entry repeated to [m] entries. *)
Lemma expand_one {X} (m : nat) (x : X) : expand [1] [m] [x] = repeat x m.
Proof.
  cbn [expand]. destruct (Nat.eqb_spec 1 m) as [<-|_].
  - reflexivity.
  - apply concat_repeat_singleton.
Qed.

(** A vector of [m] entries repeated to [n] rows. *)
Lemma expand_rows {X} (n m : nat) (ys : list X) :
  length ys = m -> expand [1; m] [n; m] ys = concat (repeat ys n).
Proof.
  intros Hm. cbn [expand].
  assert (Hsame : expand [m] [m] ys = ys).
  { apply expand_same. cbn [numel fold_right]. lia. }
  destruct (Nat.eqb_spec 1 n) as [<-|_].
  - cbn [numel fold_right chunks flat_map repeat List.concat].
    rewrite Nat.mul_1_r, <- Hm, firstn_all, !app_nil_r.
    rewrite Hm. exact Hsame.
  - fold (@expand X [m] [m] ys). now rewrite Hsame.
Qed.

Lemma chunks_of_one {X} (xs : list X) :
  chunks (length xs) 1 xs = map (fun x => [x]) xs.
Proof.
  induction xs as [|x xs IH]; [reflexivity|].
  cbn [length chunks firstn skipn map]. now rewrite IH.
Qed.

(** A column of [n] entries repeated to [m] columns. *)
Lemma expand_columns {X} (n m : nat) (xs : list X) :
  length xs = n -> expand [n; 1] [n; m] xs = flat_map (fun x => repeat x m) xs.
Proof.
  intros Hn. cbn [expand]. rewrite Nat.eqb_refl.
  replace (numel [1]) with 1 by reflexivity.
  rewrite <- Hn, chunks_of_one, flat_map_concat_map, map_map, flat_map_concat_map.
  f_equal. apply map_ext. intros x. apply expand_one.
Qed.

Lemma nth_flat_map_repeat {X} (m : nat) (xs : list X) (i j : nat) (d : X) :
  i < length xs -> j < m ->
  nth (i * m + j) (flat_map (fun x => repeat x m) xs) d = nth i xs d.
Proof.
  revert i; induction xs as [|x xs IH]; intros i Hi Hj; simpl in Hi; [lia|].
  cbn [flat_map]. destruct i as [|i].
  - rewrite app_nth1 by (rewrite repeat_length; lia).
    simpl. apply nth_repeat_lt. exact Hj.
  - rewrite app_nth2 by (rewrite repeat_length; simpl; lia).
    rewrite repeat_length.
    replace (S i * m + j - m) with (i * m + j) by (simpl; lia).
    cbn [nth]. apply IH; [lia|exact Hj].
Qed.

Lemma nth_concat_repeat {X} (n : nat) (ys : list X) (i j : nat) (d : X) :
  i < n -> j < length ys ->
  nth (i * length ys + j) (concat (repeat ys n)) d = nth j ys d.
Proof.
  revert i; induction n as [|n IH]; intros i Hi Hj; [lia|].
  cbn [repeat List.concat]. destruct i as [|i].
  - simpl. now rewrite app_nth1.
  - rewrite app_nth2 by (simpl; lia).
    replace (S i * length ys + j - length ys) with (i * length ys + j) by (simpl; lia).
    apply IH; [lia|exact Hj].
Qed.

Lemma length_flat_map_repeat {X} (m : nat) (xs : list X) :
  length (flat_map (fun x => repeat x m) xs) = length xs * m.
Proof.
  induction xs as [|x xs IH]; [reflexivity|].
  cbn [flat_map length]. rewrite length_app, repeat_length, IH. simpl. lia.
Qed.

Lemma length_concat_repeat {X} (n : nat) (ys : list X) :
  length (concat (repeat ys n)) = n * length ys.
Proof.
  induction n as [|n IH]; [reflexivity|].
  cbn [repeat List.concat]. rewrite length_app, IH. simpl. lia.
Qed.

(** X10.  What the text of the notebook warns against.  Compared without
    the [view], a column of [n] top classes and a vector of [m] labels give
    a tensor of sizes [(n, m)] whose entry [(i, j)] compares the top class
    of example [i] with label [j]; also when [m] is not [n], where the
    comparison with the [view] raises. *)
Theorem equals_unviewed_compares_every_pair (top_class labels : tensor nat) (n m : nat) :
  shape top_class = [n; 1] -> wf_tensor top_class ->
  shape labels = [m] -> wf_tensor labels ->
  exists equals,
    equals_unviewed top_class labels = Ok equals
    /\ shape equals = [n; m]
    /\ length (data equals) = n * m
    /\ forall i j, i < n -> j < m ->
         nth (i * m + j) (data equals) false
         = (nth i (data top_class) 0 =? nth j (data labels) 0).
Proof.
  intros Hs Hw Hl Hwl.
  assert (Ht : length (data top_class) = n).
  { unfold wf_tensor in Hw. rewrite Hw, Hs. simpl. lia. }
  assert (Hll : length (data labels) = m).
  { unfold wf_tensor in Hwl. rewrite Hwl, Hl. simpl. lia. }
  assert (Hb : broadcast_shapes [n; 1] [m] = Some [n; m]).
  { unfold broadcast_shapes. cbn [rev app broadcast_rev].
    destruct (Nat.eqb_spec 1 m) as [<-|_]; reflexivity. }
  unfold equals_unviewed, tensor_eq. rewrite Hs, Hl, Hb.
  cbn [length pad_shape Nat.sub repeat app].
  rewrite (expand_columns n m _ Ht), (expand_rows n m _ Hll).
  eexists. split; [reflexivity|]. cbn [shape data].
  split; [reflexivity|].
  assert (Hlen : length (map2 Nat.eqb
                           (flat_map (fun x => repeat x m) (data top_class))
                           (concat (repeat (data labels) n))) = n * m).
  { rewrite map2_length; rewrite length_flat_map_repeat, ?length_concat_repeat; lia. }
  split; [exact Hlen|].
  intros i j Hi Hj.
  rewrite (map2_nth _ _ _ _ 0 0).
  - rewrite nth_flat_map_repeat by lia.
    rewrite <- Hll at 1. rewrite nth_concat_repeat by lia. reflexivity.
  - rewrite length_flat_map_repeat. nia.
  - rewrite length_concat_repeat. nia.
Qed.

(** X10 on three top classes and two labels. *)
Lemma equals_unviewed_compares_every_pair_witness :
  exists equals,
    equals_unviewed (Tensor [3; 1] [0; 1; 0]) (Tensor [2] [0; 1]) = Ok equals
    /\ shape equals = [3; 2]
    /\ length (data equals) = 3 * 2
    /\ forall i j, i < 3 -> j < 2 ->
         nth (i * 2 + j) (data equals) false
         = (nth i [0; 1; 0] 0 =? nth j [0; 1] 0).
Proof.
  apply (equals_unviewed_compares_every_pair
           (Tensor [3; 1] [0; 1; 0]) (Tensor [2] [0; 1]) 3 2); reflexivity.
Defined.

(** ** The loops over the epochs *)

Section EpochFacts.

Context {F : Framework}.

Lemma epoch_flat_runs (trainloader : list batch) (w : world) :
  trainloader <> [] -> Forall accepted_flat trainloader -> w_grad_enabled w = true ->
  exists losses v w',
    length losses = length trainloader
    /\ epoch_flat trainloader w = (Ok tt, w')
    /\ w_log w' = w_log w ++ training_events losses
    /\ w_stdout w' = w_stdout w ++ [LTraining v]
    /\ w_grad_enabled w' = true.
Proof.
  intros Hne Hall Hg.
  assert (Hlen : 0 < length trainloader).
  { destruct trainloader; [contradiction|simpl; lia]. }
  destruct (training_loop_runs training_step_flat accepted_flat
              training_step_flat_runs trainloader (fin 0) w Hall Hg)
    as [losses [w' [Hl [E [L [O G]]]]]].
  destruct (py_div_defined (fold_left sadd losses (fin 0)) (length trainloader) Hlen)
    as [v Ev].
  exists losses, v. unfold epoch_flat, bind. rewrite E.
  unfold lift. rewrite Ev. unfold print.
  eexists. split; [assumption|]. split; [reflexivity|]. simpl.
  repeat split; try assumption. now rewrite O.
Qed.

Lemma training_events_app (l1 l2 : list scalar) :
  training_events (l1 ++ l2) = training_events l1 ++ training_events l2.
Proof. unfold training_events. apply flat_map_app. Qed.

(** X11.  The training cell of "Training Neural Networks" over all its
    epochs.  When every pass has a batch and every batch is accepted, the
    cell completes; it makes the five calls of a training step once for
    every batch of every pass, in the order of the passes, and it prints
    one training loss per epoch.  With no epoch at all it does nothing. *)
Theorem run_flat_prints_one_line_per_epoch (passes : list (list batch)) (w : world) :
  Forall (fun loader => loader <> [] /\ Forall accepted_flat loader) passes ->
  w_grad_enabled w = true ->
  exists losses lines w',
    run_flat passes w = (Ok tt, w')
    /\ length losses = length (concat passes)
    /\ w_log w' = w_log w ++ training_events losses
    /\ length lines = length passes
    /\ w_stdout w' = w_stdout w ++ map LTraining lines.
Proof.
  intros Hall. revert w. induction Hall as [|loader passes [Hne Hacc] _ IH]; intros w Hg.
  - exists [], [], w. simpl. now rewrite !app_nil_r.
  - destruct (epoch_flat_runs loader w Hne Hacc Hg)
      as [losses1 [v [w1 [Hl1 [E1 [L1 [O1 G1]]]]]]].
    destruct (IH w1 G1) as [losses2 [lines [w2 [E2 [Hl2 [L2 [Hn2 O2]]]]]]].
    exists (losses1 ++ losses2), (v :: lines), w2.
    unfold run_flat in *. cbn [for_each]. unfold bind at 1. rewrite E1.
    split; [exact E2|].
    split; [cbn [List.concat]; rewrite !length_app; lia|].
    split; [rewrite L2, L1, training_events_app, app_assoc; reflexivity|].
    split; [simpl; lia|].
    rewrite O2, O1, <- app_assoc. reflexivity.
Qed.

Lemma training_pass_runs (trainloader : list batch) (w : world) :
  Forall accepted trainloader -> w_grad_enabled w = true ->
  exists losses w',
    length losses = length trainloader
    /\ training_pass trainloader w = (Ok (ssum losses), w')
    /\ w_log w' = w_log w ++ training_events losses
    /\ w_stdout w' = w_stdout w
    /\ w_grad_enabled w' = true.
Proof.
  intros Hall Hg.
  destruct (training_loop_runs training_step accepted
              training_step_runs trainloader (fin 0) w Hall Hg)
    as [losses [w' [Hl [E [L [O G]]]]]].
  exists losses, w'. now repeat split.
Qed.

(** X12.  A loader without batches.  [running_loss/len(trainloader)] and
    [test_loss/len(testloader)] then divide the integer 0 by 0: the training
    cell of "Training Neural Networks" raises [ZeroDivisionError] without a
    call to the framework, and with an empty test loader both loops of
    "Inference and Validation" raise it at the end of their first epoch,
    when the training pass has been made and before a line is printed. *)
Theorem an_empty_loader_raises_ZeroDivisionError
        (e epochs : nat) (trainloader : list batch)
        (lists : list scalar * list scalar) (w : world) :
  Forall accepted trainloader -> w_grad_enabled w = true ->
  epoch_flat [] w = (Raise ZeroDivisionError, w)
  /\ exists losses w',
       length losses = length trainloader
       /\ epoch e epochs trainloader [] lists w = (Raise ZeroDivisionError, w')
       /\ epoch_dropout trainloader [] w = (Raise ZeroDivisionError, w')
       /\ w_log w' = w_log w ++ training_events losses
       /\ w_stdout w' = w_stdout w.
Proof.
  intros Hall Hg. split; [reflexivity|].
  destruct (training_pass_runs trainloader w Hall Hg)
    as [losses [w' [Hl [E [L [O G]]]]]].
  exists losses, w'. split; [exact Hl|].
  unfold epoch, epoch_dropout, bind. rewrite E.
  unfold validation_pass, validation_pass_dropout, with_no_grad, report, bind, lift.
  cbn [for_each ret fst snd length].
  destruct (py_div (ssum losses) (length trainloader)) as [tl|err] eqn:Ediv.
  - cbn [py_div]. destruct w'; simpl in *. subst. now repeat split.
  - destruct trainloader as [|b rest].
    + inversion Ediv; subst err. destruct w'; simpl in *. subst. now repeat split.
    + destruct (ssum losses); discriminate.
Qed.

Lemma validation_step_runs (b : batch) (vars : scalar * scalar) (w : world) :
  accepted_for_validation b ->
  exists v w',
    validation_step b vars w = (Ok v, w')
    /\ w_stdout w' = w_stdout w
    /\ w_grad_enabled w' = w_grad_enabled w
    /\ w_training w' = w_training w.
Proof.
  intros Hb. destruct b as [images labels], vars as [test_loss acc].
  destruct (Hb (w_params w) (w_training w) (w_rng w)) as [out [g' [l [a [Ef [Ec Ea]]]]]].
  cbn [fst snd] in Ef, Ec, Ea.
  rewrite validation_step_unfold. unfold model_forward. rewrite Ef.
  cbn [fst]. unfold criterion_call. rewrite Ec, Ea.
  eexists. eexists. split; [reflexivity|]. now repeat split.
Qed.

Lemma validation_loop_runs (testloader : list batch) :
  Forall accepted_for_validation testloader ->
  forall (vars : scalar * scalar) (w : world),
  exists v w',
    for_each validation_step testloader vars w = (Ok v, w')
    /\ w_stdout w' = w_stdout w
    /\ w_grad_enabled w' = w_grad_enabled w
    /\ w_training w' = w_training w.
Proof.
  induction 1 as [|b testloader Hb _ IH]; intros vars w.
  - exists vars, w. now repeat split.
  - destruct (validation_step_runs b vars w Hb) as [v1 [w1 [E1 [O1 [G1 T1]]]]].
    destruct (IH v1 w1) as [v2 [w2 [E2 [O2 [G2 T2]]]]].
    exists v2, w2. cbn [for_each]. unfold bind. rewrite E1.
    split; [exact E2|]. repeat split; congruence.
Qed.

Lemma validation_pass_runs (testloader : list batch) (w : world) :
  Forall accepted_for_validation testloader ->
  exists v w',
    validation_pass testloader w = (Ok v, w')
    /\ w_stdout w' = w_stdout w
    /\ w_grad_enabled w' = w_grad_enabled w.
Proof.
  intros Hall. unfold validation_pass, with_no_grad.
  destruct (validation_loop_runs testloader Hall (fin 0, fin 0) (set_grad_enabled false w))
    as [v [w' [E [O [G T]]]]].
  rewrite E. eexists. eexists. split; [reflexivity|]. split; [exact O|reflexivity].
Qed.

Lemma epoch_runs (e epochs : nat) (trainloader testloader : list batch)
      (lists : list scalar * list scalar) (w : world) :
  trainloader <> [] -> testloader <> [] ->
  Forall accepted trainloader -> Forall accepted_for_validation testloader ->
  w_grad_enabled w = true ->
  exists tl vl acc w',
    epoch e epochs trainloader testloader lists w
    = (Ok (fst lists ++ [tl], snd lists ++ [vl]), w')
    /\ w_stdout w' = w_stdout w ++ [LEpoch (e + 1) epochs tl vl acc]
    /\ w_grad_enabled w' = true.
Proof.
  intros Htr Hte Hacc Hval Hg.
  destruct (training_pass_runs trainloader w Hacc Hg)
    as [losses [w1 [Hl [E1 [L1 [O1 G1]]]]]].
  destruct (validation_pass_runs testloader w1 Hval) as [v [w2 [E2 [O2 G2]]]].
  assert (H1 : 0 < length trainloader) by (destruct trainloader; [contradiction|simpl; lia]).
  assert (H2 : 0 < length testloader) by (destruct testloader; [contradiction|simpl; lia]).
  destruct (py_div_defined (ssum losses) (length trainloader) H1) as [tl Etl].
  destruct (py_div_defined (fst v) (length testloader) H2) as [vl Evl].
  destruct (py_div_defined (snd v) (length testloader) H2) as [acc Eacc].
  exists tl, vl, acc. unfold epoch, bind. rewrite E1, E2.
  unfold report, bind, lift, print, ret. rewrite Etl, Evl, Eacc.
  eexists. split; [reflexivity|]. cbn [w_stdout w_grad_enabled].
  split; [congruence|congruence].
Qed.

Lemma run_runs (epochs : nat) (passes : list (list batch * list batch)) :
  Forall (fun p => fst p <> [] /\ snd p <> []
                   /\ Forall accepted (fst p)
                   /\ Forall accepted_for_validation (snd p)) passes ->
  forall (e : nat) (lists : list scalar * list scalar) (w : world),
    w_grad_enabled w = true ->
    exists rows w',
      length rows = length passes
      /\ run e epochs passes lists w
         = (Ok (fst lists ++ map (fun r => fst (fst r)) rows,
                snd lists ++ map (fun r => snd (fst r)) rows), w')
      /\ w_stdout w' = w_stdout w ++ epoch_lines e epochs rows.
Proof.
  induction 1 as [|[trainloader testloader] passes [Htr [Hte [Hacc Hval]]] _ IH];
    intros e lists w Hg.
  - exists [], w. cbn [run map epoch_lines length]. rewrite !app_nil_r.
    unfold ret. now destruct lists.
  - cbn [fst snd] in *.
    destruct (epoch_runs e epochs trainloader testloader lists w Htr Hte Hacc Hval Hg)
      as [tl [vl [acc [w1 [E1 [O1 G1]]]]]].
    destruct (IH (S e) (fst lists ++ [tl], snd lists ++ [vl]) w1 G1)
      as [rows [w2 [Hl [E2 O2]]]].
    exists ((tl, vl, acc) :: rows), w2.
    split; [simpl; lia|].
    cbn [run]. unfold bind. rewrite E1, E2. cbn [fst snd map epoch_lines].
    rewrite <- !app_assoc. split; [reflexivity|].
    rewrite O2, O1, <- app_assoc. reflexivity.
Qed.

(** X13.  The first loop of "Inference and Validation" over all its epochs.
    When every loader has a batch and every batch is accepted, the loop
    completes; [train_losses] and [test_losses] end with one entry per
    epoch, and the loop has printed one line per epoch, numbered from 1 to
    [epochs], whose training and test loss are the entries of the two lists
    at that epoch. *)
Theorem run_keeps_the_losses_it_prints
        (passes : list (list batch * list batch)) (w : world) :
  Forall (fun p => fst p <> [] /\ snd p <> []
                   /\ Forall accepted (fst p)
                   /\ Forall accepted_for_validation (snd p)) passes ->
  w_grad_enabled w = true ->
  exists rows w',
    length rows = length passes
    /\ run 0 (length passes) passes ([], []) w
       = (Ok (map (fun r => fst (fst r)) rows, map (fun r => snd (fst r)) rows), w')
    /\ w_stdout w' = w_stdout w ++ epoch_lines 0 (length passes) rows.
Proof.
  intros Hall Hg.
  destruct (run_runs (length passes) passes Hall 0 ([], []) w Hg)
    as [rows [w' [Hl [E O]]]].
  exists rows, w'. split; [exact Hl|]. split; [exact E|exact O].
Qed.

(** X15.  One validation batch of the loop that trains with dropout,
    whatever the batch and the world.  The switch of the gradients is after
    the batch what it was before it, also when the batch raises.  The mode
    is not: after a batch that completes the model is in training mode, and
    after a batch that raises it is left in evaluation mode, since
    [model.train()] stands after the [with] block and is not reached. *)
Theorem a_failed_validation_batch_leaves_the_evaluation_mode
        (b : batch) (vars : scalar * scalar) (w : world) :
  w_grad_enabled (snd (validation_step_dropout b vars w)) = w_grad_enabled w
  /\ w_training (snd (validation_step_dropout b vars w))
     = match fst (validation_step_dropout b vars w) with
       | Ok _ => true
       | Raise _ => false
       end.
Proof.
  destruct b as [images labels], vars as [test_loss acc].
  unfold validation_step_dropout, bind, with_no_grad, model_mode, ret.
  rewrite validation_step_unfold. unfold model_forward, set_grad_enabled.
  cbn [w_params w_training w_rng].
  destruct (forward (w_params w) false (w_rng w) images) as [[out|err] g'];
    [|split; reflexivity].
  cbn [fst]. unfold criterion_call.
  destruct (criterion out labels) as [l|err]; [|split; reflexivity].
  destruct (accuracy (torch_exp out) labels) as [a|err]; split; reflexivity.
Qed.

(** X16.  One training batch of the loops of "Inference and Validation",
    whatever the batch and the world.  When the batch raises (in the
    forward pass, in the criterion, or in the backward pass because the
    gradients are switched off), the optimizer has made no step: the
    parameters and the state of the optimizer are what they were, and
    nothing is printed.  The gradients, cleared at the start of the batch,
    are left at zero. *)
Theorem a_failed_training_step_changes_no_parameter
        (b : batch) (running_loss : scalar) (w : world) :
  match training_step b running_loss w with
  | (Ok total, w') =>
      exists l, total = sadd running_loss l
                /\ w_log w' = w_log w ++ training_events [l]
  | (Raise _, w') =>
      w_params w' = w_params w
      /\ w_opt w' = w_opt w
      /\ w_grads w' = grads_zero
      /\ w_stdout w' = w_stdout w
      /\ ~ In EvStep (skipn (length (w_log w)) (w_log w'))
  end.
Proof.
  destruct b as [images labels].
  unfold training_step, bind, zero_grad, model_forward, emit.
  cbn [w_params w_grads w_opt w_rng w_training w_grad_enabled w_log w_stdout].
  destruct (forward (w_params w) (w_training w) (w_rng w) images) as [[out|err] g'].
  - cbn [fst snd]. unfold criterion_call, emit.
    cbn [w_params w_grads w_opt w_rng w_training w_grad_enabled w_log w_stdout].
    destruct (criterion out labels) as [l|err].
    + unfold loss_backward, emit.
      cbn [w_params w_grads w_opt w_rng w_training w_grad_enabled w_log w_stdout].
      destruct (w_grad_enabled w).
      * unfold optimizer_step, emit.
        cbn [w_params w_grads w_opt w_rng w_training w_grad_enabled w_log w_stdout].
        destruct (opt_step _ _ _) as [p' o']. unfold ret.
        exists l. split; [reflexivity|].
        cbn [w_log training_events flat_map app]. now rewrite <- !app_assoc.
      * cbn [w_params w_grads w_opt w_stdout w_log]. repeat split.
        rewrite <- !app_assoc, skipn_app, skipn_all, Nat.sub_diag. simpl.
        intros [H|[H|[H|[]]]]; discriminate.
    + cbn [w_params w_grads w_opt w_stdout w_log]. repeat split.
      rewrite <- !app_assoc, skipn_app, skipn_all, Nat.sub_diag. simpl.
      intros [H|[H|[]]]; discriminate.
  - cbn [w_params w_grads w_opt w_stdout w_log]. repeat split.
    rewrite <- !app_assoc, skipn_app, skipn_all, Nat.sub_diag. simpl.
    intros [H|[H|[]]]; discriminate.
Qed.

Lemma for_each_app {X S} (body : X -> S -> M S) (xs ys : list X) (s : S) (w : world) :
  for_each body (xs ++ ys) s w
  = match for_each body xs s w with
    | (Ok s', w') => for_each body ys s' w'
    | (Raise e, w') => (Raise e, w')
    end.
Proof.
  revert s w; induction xs as [|x xs IH]; intros s w; [reflexivity|].
  cbn [app for_each]. unfold bind.
  destruct (body x s w) as [[s1|e] w1]; [apply IH|reflexivity].
Qed.

(** X17.  Why the loops call [optimizer.zero_grad()].  A training pass of
    "Inference and Validation" over at least one batch does not depend on
    the gradients that earlier backward passes have accumulated: started
    with any other gradients it returns the same loss and leaves the same
    world.  And the gradients it leaves are those of its last batch alone,
    taken at the parameters the earlier batches of the pass have led to. *)
Theorem a_training_pass_keeps_the_gradients_of_its_last_batch_only
        (trainloader : list batch) (last_batch : batch) (g : grads) (w : world) :
  Forall accepted (trainloader ++ [last_batch]) -> w_grad_enabled w = true ->
  training_pass (trainloader ++ [last_batch]) (with_grads g w)
  = training_pass (trainloader ++ [last_batch]) w
  /\ exists running_loss w1 total w',
       training_pass trainloader w = (Ok running_loss, w1)
       /\ training_pass (trainloader ++ [last_batch]) w = (Ok total, w')
       /\ w_grads w'
          = grads_add grads_zero
              (autograd (w_params w1) (w_training w1) (w_rng w1)
                        (fst last_batch) (snd last_batch)).
Proof.
  intros Hall Hg. split.
  - destruct trainloader as [|b trainloader]; cbn [app];
      unfold training_pass; cbn [for_each]; unfold bind.
    + assert (H : training_step last_batch (fin 0) (with_grads g w)
                  = training_step last_batch (fin 0) w)
        by (destruct last_batch; reflexivity).
      now rewrite H.
    + assert (H : training_step b (fin 0) (with_grads g w)
                  = training_step b (fin 0) w)
        by (destruct b; reflexivity).
      now rewrite H.
  - apply Forall_app in Hall. destruct Hall as [Hinit Hlast].
    inversion Hlast as [|? ? Hb _]; subst.
    destruct (training_pass_runs trainloader w Hinit Hg)
      as [losses [w1 [Hl [E1 [L1 [O1 G1]]]]]].
    exists (ssum losses), w1.
    unfold training_pass in *. rewrite for_each_app, E1.
    cbn [for_each]. unfold bind, ret.
    destruct last_batch as [images labels].
    destruct (Hb (w_params w1) (w_training w1) (w_rng w1)) as [out [g' [l [Ef Ec]]]].
    cbn [fst snd] in Ef, Ec |- *.
    unfold training_step, bind, zero_grad, model_forward, emit.
    cbn [w_params w_grads w_opt w_rng w_training w_grad_enabled w_log w_stdout].
    rewrite Ef. cbn [fst snd]. unfold criterion_call, emit.
    cbn [w_params w_grads w_opt w_rng w_training w_grad_enabled w_log w_stdout].
    rewrite Ec. unfold loss_backward, emit.
    cbn [w_params w_grads w_opt w_rng w_training w_grad_enabled w_log w_stdout].
    rewrite G1. unfold optimizer_step, emit.
    cbn [w_params w_grads w_opt w_rng w_training w_grad_enabled w_log w_stdout].
    destruct (opt_step _ _ _) as [p' o']. unfold ret.
    eexists. eexists. split; [reflexivity|]. split; [reflexivity|]. reflexivity.
Qed.

End EpochFacts.

(** X11 on two epochs over the same two batches. *)
Lemma run_flat_prints_one_line_per_epoch_witness :
  exists losses lines w',
    run_flat [toy_trainloader; toy_trainloader] toy_world = (Ok tt, w')
    /\ length losses = length (concat [toy_trainloader; toy_trainloader])
    /\ w_log w' = w_log toy_world ++ training_events losses
    /\ length lines = 2
    /\ w_stdout w' = w_stdout toy_world ++ map LTraining lines.
Proof.
  apply (@run_flat_prints_one_line_per_epoch toy [toy_trainloader; toy_trainloader]
           toy_world).
  - repeat constructor; try discriminate;
      (eexists; split; [reflexivity|apply toy_accepted]).
  - reflexivity.
Defined.

(** X12 on a training loader of two batches. *)
Lemma an_empty_loader_raises_ZeroDivisionError_witness :
  epoch_flat [] toy_world = (Raise ZeroDivisionError, toy_world)
  /\ exists losses w',
       length losses = length toy_trainloader
       /\ epoch 0 30 toy_trainloader [] ([], []) toy_world = (Raise ZeroDivisionError, w')
       /\ epoch_dropout toy_trainloader [] toy_world = (Raise ZeroDivisionError, w')
       /\ w_log w' = w_log toy_world ++ training_events losses
       /\ w_stdout w' = w_stdout toy_world.
Proof.
  apply (@an_empty_loader_raises_ZeroDivisionError toy 0 30 toy_trainloader ([], [])
           toy_world).
  - repeat constructor; apply toy_accepted.
  - reflexivity.
Defined.

Lemma toy_accepted_for_validation (b : batch) :
  (exists a, accuracy (fst b) (snd b) = Ok a) -> @accepted_for_validation toy b.
Proof.
  intros [a Ha] p mode g. exists (fst b), g, (fin 0), a.
  split; [reflexivity|]. split; [reflexivity|].
  unfold torch_exp. cbn [fexp toy]. rewrite map_id. now destruct (fst b).
Qed.

(** X13 on two epochs, each over a training loader of two batches and a
    test loader of one batch of two samples. *)
Lemma run_keeps_the_losses_it_prints_witness :
  exists rows w',
    length rows = 2
    /\ run 0 2 [(toy_trainloader, [collate [2] [right_sample; wrong_sample]]);
                (toy_trainloader, [collate [2] [right_sample; wrong_sample]])]
           ([], []) toy_world
       = (Ok (map (fun r => fst (fst r)) rows, map (fun r => snd (fst r)) rows), w')
    /\ w_stdout w' = w_stdout toy_world ++ epoch_lines 0 2 rows.
Proof.
  apply (@run_keeps_the_losses_it_prints toy
           [(toy_trainloader, [collate [2] [right_sample; wrong_sample]]);
            (toy_trainloader, [collate [2] [right_sample; wrong_sample]])] toy_world).
  - repeat constructor; try discriminate; try apply toy_accepted;
      (apply toy_accepted_for_validation; eexists; reflexivity).
  - reflexivity.
Defined.

(** X17 on a pass of two batches, started with the gradient count 7. *)
Lemma a_training_pass_keeps_the_gradients_of_its_last_batch_only_witness :
  training_pass toy_trainloader (@with_grads toy 7 toy_world)
  = training_pass toy_trainloader toy_world
  /\ exists running_loss w1 total w',
       training_pass [(Tensor [2; 1; 2] [1; 0; 0; 1]%Q, Tensor [2] [0; 1])] toy_world
       = (Ok running_loss, w1)
       /\ training_pass toy_trainloader toy_world = (Ok total, w')
       /\ w_grads w' = 1.
Proof.
  apply (@a_training_pass_keeps_the_gradients_of_its_last_batch_only toy
           [(Tensor [2; 1; 2] [1; 0; 0; 1]%Q, Tensor [2] [0; 1])]
           (Tensor [1; 1; 2] [1; 0]%Q, Tensor [1] [0]) 7 toy_world).
  - repeat constructor; apply toy_accepted.
  - reflexivity.
Defined.

(** ** The mode of the forward passes *)

Section TracedFacts.

Context {F : Framework}.

(** A training step makes one forward pass, in the mode the model is in,
    whether it then goes on or raises; it leaves the mode as it is. *)
Lemma traced_training_step (b : batch) (running_loss : scalar) (w : @world (traced F)) :
  modes_seen (snd (@training_step (traced F) b running_loss w))
  = modes_seen w ++ [w_training w]
  /\ w_training (snd (@training_step (traced F) b running_loss w)) = w_training w.
Proof.
  destruct b as [images labels].
  unfold training_step, bind, zero_grad, model_forward, emit, modes_seen.
  cbn [w_params w_grads w_opt w_rng w_training w_grad_enabled w_log w_stdout].
  cbn [forward traced].
  destruct (@forward F (w_params w) (w_training w) (fst (w_rng w)) images)
    as [[out|e] g']; [|split; reflexivity].
  cbn [fst snd]. unfold criterion_call, emit.
  cbn [w_params w_grads w_opt w_rng w_training w_grad_enabled w_log w_stdout].
  cbn [criterion traced].
  destruct (@criterion F out labels) as [l|e]; [|split; reflexivity].
  unfold loss_backward, emit.
  cbn [w_params w_grads w_opt w_rng w_training w_grad_enabled w_log w_stdout].
  destruct (w_grad_enabled w); [|split; reflexivity].
  unfold optimizer_step, emit.
  cbn [w_params w_grads w_opt w_rng w_training w_grad_enabled w_log w_stdout].
  destruct (opt_step _ _ _) as [p' o']. split; reflexivity.
Qed.

(** So does a validation step. *)
Lemma traced_validation_step (b : batch) (vars : scalar * scalar)
      (w : @world (traced F)) :
  modes_seen (snd (@validation_step (traced F) b vars w))
  = modes_seen w ++ [w_training w]
  /\ w_training (snd (@validation_step (traced F) b vars w)) = w_training w.
Proof.
  destruct b as [images labels], vars as [test_loss acc].
  rewrite validation_step_unfold. unfold model_forward, modes_seen, emit.
  cbn [w_params w_grads w_opt w_rng w_training w_grad_enabled w_log w_stdout].
  cbn [forward traced].
  destruct (@forward F (w_params w) (w_training w) (fst (w_rng w)) images)
    as [[out|e] g']; [|split; reflexivity].
  cbn [fst snd]. unfold criterion_call, emit.
  cbn [w_params w_grads w_opt w_rng w_training w_grad_enabled w_log w_stdout].
  cbn [criterion traced].
  destruct (@criterion F out labels) as [l|e]; [|split; reflexivity].
  destruct (accuracy _ labels) as [a|e]; split; reflexivity.
Qed.

(** A validation step of the loop that trains with dropout makes its
    forward pass in evaluation mode, whatever the mode was; the model is
    back in training mode when the step has not raised. *)
Lemma traced_validation_step_dropout (b : batch) (vars : scalar * scalar)
      (w : @world (traced F)) :
  modes_seen (snd (@validation_step_dropout (traced F) b vars w))
  = modes_seen w ++ [false]
  /\ forall v, fst (@validation_step_dropout (traced F) b vars w) = Ok v ->
       w_training (snd (@validation_step_dropout (traced F) b vars w)) = true.
Proof.
  unfold validation_step_dropout, bind, with_no_grad, model_mode,
    set_grad_enabled, ret.
  cbn [w_params w_grads w_opt w_rng w_training w_grad_enabled w_log w_stdout].
  match goal with
  | |- context [@validation_step (traced F) b vars ?w0] =>
      destruct (traced_validation_step b vars w0) as [Hm _];
      destruct (@validation_step (traced F) b vars w0) as [[v|e] w1]
  end; unfold modes_seen in *;
    cbn [fst snd w_params w_grads w_opt w_rng w_training w_grad_enabled
         w_log w_stdout ret] in *.
  - split; [exact Hm|reflexivity].
  - split; [exact Hm|discriminate].
Qed.

(** A loop whose every step, started in mode [m0], makes one forward pass
    in mode [m] and, unless it raises, leaves the model in mode [m0]: it
    makes at most one such pass per batch, one for the first batch when
    there is one, and one per batch when it does not raise. *)
Lemma traced_loop {X} (step : batch -> X -> @M (traced F) X) (m0 m : bool) :
  (forall b s w, w_training w = m0 ->
     modes_seen (snd (step b s w)) = modes_seen w ++ [m]
     /\ forall v, fst (step b s w) = Ok v -> w_training (snd (step b s w)) = m0) ->
  forall loader s w,
    w_training w = m0 ->
    exists a,
      modes_seen (snd (for_each step loader s w)) = modes_seen w ++ repeat m a
      /\ a <= length loader
      /\ (loader <> [] -> 0 < a)
      /\ forall v, fst (for_each step loader s w) = Ok v ->
           a = length loader /\ w_training (snd (for_each step loader s w)) = m0.
Proof.
  intros Hstep loader; induction loader as [|b loader IH]; intros s w Hw.
  - exists 0. cbn [for_each ret snd fst repeat length]. rewrite app_nil_r.
    split; [reflexivity|]. split; [lia|]. split; [congruence|].
    intros v _. now split.
  - destruct (Hstep b s w Hw) as [Hm Hok]. cbn [for_each]. unfold bind.
    destruct (step b s w) as [[s1|e] w1]; cbn [fst snd] in *.
    + destruct (IH s1 w1 (Hok s1 eq_refl)) as [a [Ha [Hle [_ Hfin]]]].
      exists (S a). cbn [repeat length].
      split; [rewrite Ha, Hm, <- app_assoc; reflexivity|].
      split; [lia|]. split; [lia|].
      intros v Ev. destruct (Hfin v Ev) as [-> Ht]. now split.
    + exists 1. cbn [repeat length]. split; [exact Hm|].
      split; [lia|]. split; [lia|]. discriminate.
Qed.

(** X14.  In which mode the forward passes of an epoch run, read from a
    framework that keeps their modes.  The model is in training mode when
    the epoch starts; nothing is asked of the model, the loaders or the
    batches, and any call may raise.

    The forward passes of an epoch of the loop that trains with dropout are
    some passes in training mode followed by some in evaluation mode: at
    most one per training batch, then at most one per test batch.  A pass
    is made for the first training batch when there is one, and none in
    evaluation mode before the training batches are all done.  When the
    epoch does not raise, there was exactly one pass per batch, and the
    model is in training mode again.

    An epoch of the first loop, which never calls [model.eval()], makes
    all its forward passes in training mode, those of the validation
    included: at most one per batch, and exactly one per batch when the
    epoch does not raise. *)
Theorem the_dropout_loop_validates_in_evaluation_mode
        (e epochs : nat) (trainloader testloader : list batch)
        (lists : list scalar * list scalar) (w : @world (traced F)) :
  w_training w = true ->
  (exists a b,
      modes_seen (snd (@epoch_dropout (traced F) trainloader testloader w))
      = modes_seen w ++ repeat true a ++ repeat false b
      /\ a <= length trainloader /\ b <= length testloader
      /\ (trainloader <> [] -> 0 < a)
      /\ (0 < b -> a = length trainloader)
      /\ (fst (@epoch_dropout (traced F) trainloader testloader w) = Ok tt ->
          a = length trainloader /\ b = length testloader
          /\ w_training (snd (@epoch_dropout (traced F) trainloader testloader w))
             = true))
  /\ (exists a,
         modes_seen (snd (@epoch (traced F) e epochs trainloader testloader lists w))
         = modes_seen w ++ repeat true a
         /\ a <= length trainloader + length testloader
         /\ (trainloader <> [] -> 0 < a)
         /\ forall lists',
              fst (@epoch (traced F) e epochs trainloader testloader lists w)
              = Ok lists' ->
              a = length trainloader + length testloader
              /\ w_training
                   (snd (@epoch (traced F) e epochs trainloader testloader lists w))
                 = true).
Proof.
  intros Ht.
  destruct (traced_loop (@training_step (traced F)) true true) 
    with (loader := trainloader) (s := fin 0) (w := w)
    as [a [Ma [La [Pa Fa]]]]; [|exact Ht|].
  { intros b s w0 H0. destruct (traced_training_step b s w0) as [Hm Hk].
    rewrite H0 in Hm, Hk. split; [exact Hm|]. intros _ _. exact Hk. }
  split.
  - remember (@epoch_dropout (traced F) trainloader testloader w) as r eqn:Er.
    unfold epoch_dropout, training_pass, validation_pass_dropout in Er.
    unfold bind at 1 in Er.
    destruct (for_each (@training_step (traced F)) trainloader (fin 0) w)
      as [[rl|ex] w1]; cbn [fst snd] in *.
    + destruct (Fa rl eq_refl) as [-> T1].
      destruct (traced_loop (@validation_step_dropout (traced F)) true false)
        with (loader := testloader) (s := (fin 0, fin 0)) (w := w1)
        as [b [Mb [Lb [_ Fb]]]]; [|exact T1|].
      { intros bt s w0 _. apply traced_validation_step_dropout. }
      exists (length trainloader), b. unfold bind at 1 in Er.
      destruct (for_each (@validation_step_dropout (traced F)) testloader
                  (fin 0, fin 0) w1) as [[v|ex] w2]; cbn [fst snd] in *.
      * destruct (Fb v eq_refl) as [-> T2].
        assert (Hm : modes_seen w2
                     = modes_seen w ++ repeat true (length trainloader)
                                    ++ repeat false (length testloader)).
        { rewrite Mb, Ma, <- app_assoc. reflexivity. }
        unfold bind, lift, print in Er.
        destruct (py_div rl (length trainloader)) as [tl|ex];
          [|subst r; cbn [fst snd]; repeat split; try assumption; try lia;
            discriminate].
        destruct (py_div (fst v) (length testloader)) as [vl|ex];
          [|subst r; cbn [fst snd]; repeat split; try assumption; try lia;
            discriminate].
        destruct (py_div (snd v) (length testloader)) as [acc|ex];
          [|subst r; cbn [fst snd]; repeat split; try assumption; try lia;
            discriminate].
        subst r. cbn [fst snd]. unfold modes_seen in *. cbn [w_rng w_training].
        repeat split; try assumption; lia.
      * subst r. cbn [fst snd].
        split; [rewrite Mb, Ma, <- app_assoc; reflexivity|].
        repeat split; try assumption; try lia; discriminate.
    + subst r. cbn [fst snd]. exists a, 0. cbn [repeat]. rewrite app_nil_r.
      repeat split; try assumption; try lia; discriminate.
  - remember (@epoch (traced F) e epochs trainloader testloader lists w) as r eqn:Er.
    unfold epoch, training_pass, validation_pass, with_no_grad in Er.
    unfold bind at 1 in Er.
    destruct (for_each (@training_step (traced F)) trainloader (fin 0) w)
      as [[rl|ex] w1]; cbn [fst snd] in *.
    + destruct (Fa rl eq_refl) as [-> T1].
      destruct (traced_loop (@validation_step (traced F)) true true)
        with (loader := testloader) (s := (fin 0, fin 0))
             (w := set_grad_enabled false w1)
        as [b [Mb [Lb [_ Fb]]]]; [|exact T1|].
      { intros bt s w0 H0. destruct (traced_validation_step bt s w0) as [Hm Hk].
        rewrite H0 in Hm, Hk. split; [exact Hm|]. intros _ _. exact Hk. }
      exists (length trainloader + b). unfold bind at 1 in Er.
      destruct (for_each (@validation_step (traced F)) testloader (fin 0, fin 0)
                  (set_grad_enabled false w1)) as [[v|ex] w2]; cbn [fst snd] in *.
      * destruct (Fb v eq_refl) as [-> T2].
        assert (Hm : snd (w_rng w2)
                     = snd (w_rng w) ++ repeat true
                                         (length trainloader + length testloader)).
        { unfold modes_seen in *. cbn [set_grad_enabled w_rng] in Mb.
          rewrite Mb, Ma, <- app_assoc, repeat_app. reflexivity. }
        unfold report, bind, lift, print, ret in Er.
        destruct (py_div rl (length trainloader)) as [tl|ex];
          [|subst r; unfold modes_seen; cbn [fst snd set_grad_enabled w_rng w_training];
            repeat split;
            first [assumption | lia | intros Hn; specialize (Pa Hn); lia | discriminate]].
        destruct (py_div (fst v) (length testloader)) as [vl|ex];
          [|subst r; unfold modes_seen; cbn [fst snd set_grad_enabled w_rng w_training];
            repeat split;
            first [assumption | lia | intros Hn; specialize (Pa Hn); lia | discriminate]].
        destruct (py_div (snd v) (length testloader)) as [acc|ex];
          [|subst r; unfold modes_seen; cbn [fst snd set_grad_enabled w_rng w_training];
            repeat split;
            first [assumption | lia | intros Hn; specialize (Pa Hn); lia | discriminate]].
        subst r. unfold modes_seen. cbn [fst snd set_grad_enabled w_rng w_training].
        repeat split;
          first [assumption | lia | intros Hn; specialize (Pa Hn); lia].
      * subst r. unfold modes_seen in *. cbn [fst snd set_grad_enabled w_rng w_training] in *.
        split; [rewrite Mb, Ma, <- app_assoc, repeat_app; reflexivity|].
        repeat split;
          first [assumption | lia | intros Hn; specialize (Pa Hn); lia | discriminate].
    + subst r. cbn [fst snd]. exists a. repeat split;
            first [assumption | lia | intros Hn; specialize (Pa Hn); lia | discriminate].
Qed.

End TracedFacts.

(** X14 on the loop as the notebook has it, with the classifier of cell 13
    whose forward pass raises: one forward pass, in training mode, and the
    epoch is over. *)
Lemma the_dropout_loop_validates_in_evaluation_mode_witness :
  w_training (@mkWorld (traced broken) 0 0 0 (tt, []) true true [] []) = true
  /\ snd (@epoch_dropout (traced broken) toy_trainloader
            [collate [2] [right_sample; wrong_sample]]
            (@mkWorld (traced broken) 0 0 0 (tt, []) true true [] []))
     = @mkWorld (traced broken) 0 0 0 (tt, [true]) true true
                [EvZeroGrad; EvForward] []
  /\ (exists a b,
      modes_seen (snd (@epoch_dropout (traced broken) toy_trainloader
                         [collate [2] [right_sample; wrong_sample]]
                         (@mkWorld (traced broken) 0 0 0 (tt, []) true true [] [])))
      = modes_seen (@mkWorld (traced broken) 0 0 0 (tt, []) true true [] [])
          ++ repeat true a ++ repeat false b
      /\ a <= length toy_trainloader
      /\ b <= length [collate [2] [right_sample; wrong_sample]]
      /\ (toy_trainloader <> [] -> 0 < a)
      /\ (0 < b -> a = length toy_trainloader)).
Proof.
  split; [reflexivity|]. split; [reflexivity|].
  destruct (@the_dropout_loop_validates_in_evaluation_mode broken 0 30 toy_trainloader
              [collate [2] [right_sample; wrong_sample]] ([], [])
              (@mkWorld (traced broken) 0 0 0 (tt, []) true true [] []) eq_refl)
    as [[a [b [H1 [H2 [H3 [H4 [H5 _]]]]]]] _].
  exists a, b. repeat split; assumption.
Defined.

(** ** A state dict saved and loaded *)

Section StateDictFiles.

Context {A : Type}.

Lemma load_param_own (sd : state_dict_t A) (key : string) (p : tensor A) :
  lookup key sd = Some p -> load_param sd key p = p.
Proof.
  intros E. unfold load_param. rewrite E.
  assert (H : shape_eqb (shape p) (shape p) = true) by now apply shape_eqb_eq.
  rewrite H. now destruct p.
Qed.

Lemma load_layer_own (sd : state_dict_t A) (prefix : string) (l : layer A) :
  (forall kp, In kp (layer_state prefix l) -> lookup (fst kp) sd = Some (snd kp)) ->
  load_layer sd prefix l = l.
Proof.
  destruct l as [i o wt b| | |]; try reflexivity.
  intros H. cbn [load_layer layer_state] in *.
  rewrite (load_param_own sd _ wt), (load_param_own sd _ b); [reflexivity| |].
  - apply (H (_, b)). right. now left.
  - apply (H (_, wt)). now left.
Qed.

Lemma load_list_own (sd : state_dict_t A) (prefix : string) (k : nat)
      (ls : list (layer A)) :
  (forall kp, In kp (list_state prefix k ls) -> lookup (fst kp) sd = Some (snd kp)) ->
  load_list sd prefix k ls = ls.
Proof.
  revert k; induction ls as [|l ls IH]; intros k H; [reflexivity|].
  cbn [load_list list_state] in *. f_equal.
  - apply load_layer_own. intros kp Hin. apply H. apply in_or_app. now left.
  - apply IH. intros kp Hin. apply H. apply in_or_app. now right.
Qed.

Lemma load_modules_own (sd : state_dict_t A) (ms : list (string * attr A)) :
  (forall kp, In kp (flat_map (fun na => attr_state (fst na) (snd na)) ms) ->
              lookup (fst kp) sd = Some (snd kp)) ->
  load_modules sd ms = ms.
Proof.
  induction ms as [|[name a] ms IH]; intros H; [reflexivity|].
  cbn [load_modules map flat_map fst snd] in *. f_equal.
  - f_equal. destruct a as [l|ls]; cbn [load_attr attr_state] in *; f_equal.
    + apply load_layer_own. intros kp Hin. apply H. apply in_or_app. now left.
    + apply load_list_own. intros kp Hin. apply H. apply in_or_app. now left.
  - apply IH. intros kp Hin. apply H. apply in_or_app. now right.
Qed.

(** X18.  Cells 7 to 9 of "Saving and Loading Models" on any module whose
    parameters have distinct keys: the state dict saved to a file and
    loaded back is accepted by the model it came from, with no missing and
    no unexpected key as the notebook shows, and the model is left exactly
    as it was. *)
Theorem a_saved_state_dict_loads_back_into_its_model
        (model : Module A) (path : string) (fs : files A) :
  NoDup (map fst (state_dict model)) ->
  load_state_dict_from model (save_state_dict model path fs) path
  = (Ok (mkIncompatibleKeys [] []), model).
Proof.
  intros Hnd. unfold load_state_dict_from, save_state_dict, torch_load, torch_save.
  rewrite String.eqb_refl.
  destruct (load_same_recorded model (state_dict model) Hnd eq_refl) as [E _].
  rewrite E. f_equal.
  rewrite load_modules_own; [now destruct model|].
  intros [k p] Hin. now apply lookup_in.
Qed.

End StateDictFiles.

(** X18 on a network with hidden sizes 3 and 2. *)
Lemma a_saved_state_dict_loads_back_into_its_model_witness :
  exists model : Module Q,
    Network zeros 784 10 [3; 2] = Ok model
    /\ load_state_dict_from model (save_state_dict model "checkpoint.pth" no_files)
         "checkpoint.pth"
       = (Ok (mkIncompatibleKeys [] []), model).
Proof.
  eexists. split; [reflexivity|].
  apply (@a_saved_state_dict_loads_back_into_its_model Q).
  apply (Network_keys_NoDup zeros 784 10 [3; 2]). reflexivity.
Defined.

(** ** What [load_checkpoint] refuses *)

Lemma no_dot_app_dot (a b : string) : ~ no_dot (a ++ String "." b)%string.
Proof.
  induction a as [|ch a IH]; simpl.
  - intros [H _]. now apply H.
  - intros [_ H]. now apply IH.
Qed.

Section CheckpointErrors.

Context {A : Type}.

(** Every key of a state dict is the name of an attribute, a dot, and the
    rest. *)
Lemma layer_state_dotted (name rest : string) (l : layer A) (key : string) :
  In key (map fst (layer_state ((name ++ String "." rest)%string) l)) ->
  exists r, key = (name ++ String "." r)%string.
Proof.
  intros H. apply layer_state_keys in H.
  destruct H as [-> | ->]; rewrite append_assoc; simpl; eexists; reflexivity.
Qed.

Lemma list_state_dotted (name : string) (k : nat) (ls : list (layer A)) (key : string) :
  In key (map fst (list_state (name ++ ".")%string k ls)) ->
  exists r, key = (name ++ String "." r)%string.
Proof.
  revert k; induction ls as [|l ls IH]; intros k; simpl; [intros []|].
  rewrite map_app, in_app_iff. intros [H|H]; [|now apply (IH (S k))].
  rewrite append_assoc in H. simpl in H.
  now apply layer_state_dotted in H.
Qed.

Lemma state_dict_dotted (m : Module A) (key : string) :
  In key (map fst (state_dict m)) -> ~ no_dot key.
Proof.
  unfold state_dict. induction (modules m) as [|[name a] ms IH]; simpl; [intros []|].
  rewrite map_app, in_app_iff. intros [H|H]; [|now apply IH].
  assert (E : exists r, key = (name ++ String "." r)%string).
  { destruct a as [l|ls]; simpl in H.
    - apply (layer_state_dotted name "" l key).
      replace (name ++ String "." "")%string with (name ++ ".")%string by reflexivity.
      exact H.
    - now apply (list_state_dotted name 0 ls). }
  destruct E as [r ->]. apply no_dot_app_dot.
Qed.

(** X19.  Two files that [load_checkpoint] refuses.  A path at which
    nothing was saved is a [FileNotFoundError].  A file that holds a bare
    state dict, as cell 7 writes it to the same ['checkpoint.pth'], is a
    [KeyError] at [checkpoint['input_size']]: the keys of a state dict all
    contain a dot, so none of them is ['input_size'], whatever the model. *)
Theorem load_checkpoint_refuses_a_bare_state_dict
        (rand : string -> list nat -> list A) (model : Module A)
        (path : string) (fs : files A) :
  load_checkpoint rand (fun _ => None) path = Raise FileNotFoundError
  /\ load_checkpoint rand (save_state_dict model path fs) path
     = Raise (KeyError "input_size").
Proof.
  split; [reflexivity|].
  unfold load_checkpoint, save_state_dict, torch_load, torch_save.
  rewrite String.eqb_refl. cbn [rbind getitem].
  assert (E : lookup "input_size" (state_dict model) = None).
  { apply lookup_none. intros Hin. apply state_dict_dotted in Hin.
    apply Hin. simpl. repeat split; discriminate. }
  rewrite E. reflexivity.
Qed.

(** ** What a failed [load_state_dict] leaves behind *)

Lemma lookup_map_values {V W} (f : string -> V -> W) (key : string)
      (d : list (string * V)) :
  lookup key (map (fun kv => (fst kv, f (fst kv) (snd kv))) d)
  = option_map (f key) (lookup key d).
Proof.
  induction d as [|[k v] d IH]; simpl; [reflexivity|].
  destruct (String.eqb_spec key k) as [->|_]; [reflexivity|exact IH].
Qed.

(** X20.  [load_state_dict] is not undone when it raises.  Whatever its
    outcome, a parameter of the model whose key is in the state dict with
    the sizes of the parameter has the values of the state dict after the
    call, and every other parameter has kept its own. *)
Theorem load_state_dict_copies_what_fits
        (m : Module A) (sd : state_dict_t A) (key : string) (p : tensor A) :
  lookup key (state_dict m) = Some p ->
  lookup key (state_dict (snd (load_state_dict m sd)))
  = Some (match lookup key sd with
          | Some t =>
              if shape_eqb (shape t) (shape p) then Tensor (shape p) (data t) else p
          | None => p
          end).
Proof.
  intros E. rewrite snd_load_state_dict, state_dict_load.
  rewrite (lookup_map_values (load_param sd)), E. reflexivity.
Qed.

End CheckpointErrors.

(** X20 on the failing cell of the notebook in small: the state dict of a
    network with hidden size 3 and all parameters at 1 is loaded into a
    network with hidden size 2 and all parameters at 0.  The call raises;
    the output bias, of sizes (2) in both, has been overwritten, and the
    output weight, of sizes (2, 3) in the state dict and (2, 2) in the
    model, has not. *)
Lemma load_state_dict_copies_what_fits_witness :
  exists saved model : Module Q,
    Network (fun _ sizes => repeat 1%Q (numel sizes)) 3 2 [3] = Ok saved
    /\ Network zeros 3 2 [2] = Ok model
    /\ fst (load_state_dict model (state_dict saved)) = Raise RuntimeError
    /\ lookup "output.bias" (state_dict (snd (load_state_dict model (state_dict saved))))
       = Some (Tensor [2] [1; 1]%Q)
    /\ lookup "output.weight" (state_dict (snd (load_state_dict model (state_dict saved))))
       = Some (Tensor [2; 2] [0; 0; 0; 0]%Q).
Proof.
  eexists. eexists. split; [reflexivity|]. split; [reflexivity|].
  split; [reflexivity|]. split.
  - rewrite (@load_state_dict_copies_what_fits Q _ _ "output.bias" (Tensor [2] [0; 0]%Q));
      reflexivity.
  - rewrite (@load_state_dict_copies_what_fits Q _ _ "output.weight"
               (Tensor [2; 2] [0; 0; 0; 0]%Q));
      reflexivity.
Defined.

(** ** Arrays and their transposes *)

(** What the cell prints. *)
Example transpose_cell_prints :
  transpose_cell
  = Ok (Tensor [3; 4; 5] (map Z.of_nat (seq 0 60)),
        Tensor [5; 3; 4]
          [0; 5; 10; 15; 20; 25; 30; 35; 40; 45; 50; 55;
           1; 6; 11; 16; 21; 26; 31; 36; 41; 46; 51; 56;
           2; 7; 12; 17; 22; 27; 32; 37; 42; 47; 52; 57;
           3; 8; 13; 18; 23; 28; 33; 38; 43; 48; 53; 58;
           4; 9; 14; 19; 24; 29; 34; 39; 44; 49; 54; 59]%Z).
Proof. vm_compute. reflexivity. Qed.

Lemma nth_error_concat_uniform {X} (m : nat) (ls : list (list X)) (i r : nat) :
  Forall (fun l => length l = m) ls -> r < m ->
  nth_error (concat ls) (i * m + r)
  = match nth_error ls i with
    | Some l => nth_error l r
    | None => None
    end.
Proof.
  intros Hall Hr. revert i; induction Hall as [|l ls Hl _ IH]; intros i.
  - cbn [List.concat]. now rewrite !nth_error_nil.
  - cbn [List.concat]. destruct i as [|i].
    + simpl. rewrite nth_error_app1 by lia. reflexivity.
    + rewrite nth_error_app2 by (simpl; lia).
      replace (S i * m + r - length l) with (i * m + r) by (simpl; lia).
      apply IH.
Qed.

Lemma length_indices (sh : list nat) : length (indices sh) = numel sh.
Proof.
  induction sh as [|n sh IH]; [reflexivity|].
  cbn [indices numel fold_right]. fold (numel sh).
  rewrite flat_map_concat_map.
  rewrite (length_concat_uniform (numel sh)).
  - now rewrite length_map, length_seq.
  - rewrite Forall_map. apply Forall_forall. intros i _. now rewrite length_map.
Qed.

Lemma offset_lt (sh idx : list nat) :
  in_bounds sh idx = true -> offset sh idx < numel sh.
Proof.
  revert idx; induction sh as [|n sh IH]; intros [|i idx] H; simpl in *;
    try discriminate; [lia|].
  apply andb_prop in H. destruct H as [Hi Hrest]. apply Nat.ltb_lt in Hi.
  specialize (IH idx Hrest). fold (numel sh). nia.
Qed.

(** The index [idx] stands at its place in the row-major order. *)
Lemma nth_error_indices (sh idx : list nat) :
  in_bounds sh idx = true -> nth_error (indices sh) (offset sh idx) = Some idx.
Proof.
  revert idx; induction sh as [|n sh IH]; intros [|i idx] H; simpl in H;
    try discriminate; [reflexivity|].
  apply andb_prop in H. destruct H as [Hi Hrest]. apply Nat.ltb_lt in Hi.
  cbn [indices offset]. rewrite flat_map_concat_map.
  rewrite (nth_error_concat_uniform (numel sh)).
  - rewrite nth_error_map, (nth_error_nth' _ 0) by (rewrite length_seq; lia).
    cbn [option_map]. rewrite seq_nth by lia. cbn [Nat.add].
    rewrite nth_error_map, (IH idx Hrest). reflexivity.
  - rewrite Forall_map. apply Forall_forall. intros k _.
    now rewrite length_map, length_indices.
  - now apply offset_lt.
Qed.

Lemma in_bounds_indices (sh idx : list nat) :
  In idx (indices sh) -> in_bounds sh idx = true.
Proof.
  revert idx; induction sh as [|n sh IH]; intros idx H; simpl in H.
  - destruct H as [<-|[]]. reflexivity.
  - apply in_flat_map in H. destruct H as [i [Hi H]].
    apply in_map_iff in H. destruct H as [idx' [<- H]].
    apply in_seq in Hi. cbn [in_bounds].
    rewrite (IH idx' H), andb_true_r. apply Nat.ltb_lt. lia.
Qed.

Lemma NoDup_map_cons {X} (x : X) (ls : list (list X)) :
  NoDup ls -> NoDup (map (cons x) ls).
Proof.
  induction 1 as [|l ls Hl _ IH]; simpl; constructor; [|exact IH].
  intros H. apply in_map_iff in H. destruct H as [l' [E H]].
  inversion E; subst. contradiction.
Qed.

(** The places of the indices, in their order, are 0, 1, 2 and so on. *)
Lemma offsets_of_indices (sh : list nat) :
  map (offset sh) (indices sh) = seq 0 (numel sh).
Proof.
  apply (nth_ext _ _ 0 0).
  - now rewrite length_map, length_indices, length_seq.
  - intros k Hk. rewrite length_map, length_indices in Hk.
    rewrite seq_nth by exact Hk. cbn [Nat.add].
    destruct (nth_error (indices sh) k) as [idx|] eqn:E.
    2:{ apply nth_error_None in E. rewrite length_indices in E. lia. }
    rewrite (nth_indep _ 0 (offset sh [])) by now rewrite length_map, length_indices.
    rewrite map_nth. rewrite (nth_error_nth _ _ [] E).
    assert (Hin : in_bounds sh idx = true)
      by (apply in_bounds_indices; eapply nth_error_In; exact E).
    pose proof (nth_error_indices sh idx Hin) as E'.
    pose proof (offset_lt sh idx Hin) as Hlt.
    assert (Hnd : NoDup (indices sh) -> offset sh idx = k).
    { intros Hnd. rewrite NoDup_nth_error in Hnd. apply Hnd.
      - now rewrite length_indices.
      - now rewrite E, E'. }
    apply Hnd. clear -sh.
    induction sh as [|n sh IH]; [repeat constructor; intros []|].
    cbn [indices]. generalize 0 as s.
    induction n as [|n IHn]; intros s; [constructor|].
    cbn [seq flat_map]. apply NoDup_app.
    + now apply NoDup_map_cons.
    + apply IHn.
    + intros x H1 H2. apply in_map_iff in H1. destruct H1 as [y [<- _]].
      apply in_flat_map in H2. destruct H2 as [i [Hi H2]].
      apply in_map_iff in H2. destruct H2 as [z [Hz _]]. inversion Hz.
      apply in_seq in Hi. lia.
Qed.

Lemma in_bounds_spec (sh idx : list nat) :
  in_bounds sh idx = true
  <-> length idx = length sh /\ forall m, m < length sh -> nth m idx 0 < nth m sh 0.
Proof.
  revert idx; induction sh as [|n sh IH]; intros [|i idx]; simpl.
  - split; [intros _; split; [reflexivity|intros m Hm; lia]|reflexivity].
  - split; [discriminate|intros [H _]; discriminate].
  - split; [discriminate|intros [H _]; discriminate].
  - rewrite andb_true_iff, Nat.ltb_lt, IH. split.
    + intros [Hi [Hl Hall]]. split; [now rewrite Hl|].
      intros [|m] Hm; [exact Hi|]. apply Hall. lia.
    + intros [Hl Hall]. split; [apply (Hall 0); lia|].
      split; [now inversion Hl|]. intros m Hm. apply (Hall (S m)). lia.
Qed.

Lemma map_nth_error_seq {X} (l : list X) :
  map (nth_error l) (seq 0 (length l)) = map Some l.
Proof.
  induction l as [|x l IH]; [reflexivity|].
  cbn [length seq map nth_error]. f_equal.
  rewrite <- seq_shift, map_map. exact IH.
Qed.

Lemma map_nth_seq_id (l : list nat) :
  map (fun m => nth m l 0) (seq 0 (length l)) = l.
Proof.
  induction l as [|x l IH]; [reflexivity|].
  cbn [length seq map nth]. f_equal.
  rewrite <- seq_shift, map_map. exact IH.
Qed.

(** The entries of a well-formed array, read index by index, are its
    storage. *)
Lemma entries_by_index {A} (a : tensor A) :
  wf_tensor a -> map (entry a) (indices (shape a)) = map Some (data a).
Proof.
  intros Hw. unfold wf_tensor in Hw.
  rewrite <- map_nth_error_seq, Hw, <- offsets_of_indices, map_map.
  apply map_ext_in. intros idx Hin. unfold entry.
  now rewrite (in_bounds_indices _ _ Hin).
Qed.

(** Two well-formed arrays of the same sizes with the same entries are the
    same array. *)
Lemma tensor_ext {A} (a b : tensor A) :
  wf_tensor a -> wf_tensor b -> shape a = shape b ->
  (forall idx, in_bounds (shape a) idx = true -> entry a idx = entry b idx) ->
  a = b.
Proof.
  intros Ha Hb Hs Hall.
  assert (E : map Some (data a) = map Some (data b)).
  { rewrite <- (entries_by_index a Ha), <- (entries_by_index b Hb), <- Hs.
    apply map_ext_in. intros idx Hin. apply Hall. now apply in_bounds_indices. }
  destruct a as [sa da], b as [sb db]. cbn [shape data] in *. subst sb. f_equal.
  clear -E. revert db E; induction da as [|x da IH]; intros [|y db] E;
    try discriminate; [reflexivity|].
  inversion E. f_equal. now apply IH.
Qed.

Lemma all_some_defined {X Y} (f : X -> option Y) (l : list X) :
  (forall x, In x l -> f x <> None) ->
  exists d, all_some (map f l) = Some d.
Proof.
  induction l as [|x l IH]; intros H; [now exists []|].
  cbn [map all_some].
  destruct (f x) as [y|] eqn:E.
  2:{ exfalso. apply (H x); [now left|exact E]. }
  destruct IH as [d Ed]; [intros z Hz; apply H; now right|].
  rewrite Ed. now eexists.
Qed.

(** *** Axes *)

Lemma distinct_NoDup (l : list nat) : distinct l = true -> NoDup l.
Proof.
  induction l as [|a l IH]; simpl; intros H; constructor.
  - apply andb_prop in H. destruct H as [H _]. apply negb_true_iff in H.
    intros Hin. assert (E : existsb (Nat.eqb a) l = true); [|congruence].
    apply existsb_exists. exists a. split; [exact Hin|apply Nat.eqb_refl].
  - apply andb_prop in H. now apply IH.
Qed.

Lemma NoDup_distinct (l : list nat) : NoDup l -> distinct l = true.
Proof.
  induction 1 as [|a l Ha _ IH]; simpl; [reflexivity|].
  rewrite IH, andb_true_r. apply negb_true_iff.
  destruct (existsb (Nat.eqb a) l) eqn:E; [|reflexivity].
  apply existsb_exists in E. destruct E as [x [Hx E]].
  apply Nat.eqb_eq in E. subst x. contradiction.
Qed.

Lemma is_permutation_spec (axes : list nat) (k : nat) :
  is_permutation axes k = true
  <-> length axes = k /\ Forall (fun a => a < k) axes /\ NoDup axes.
Proof.
  unfold is_permutation. rewrite !andb_true_iff, Nat.eqb_eq, forallb_forall, Forall_forall.
  split.
  - intros [[Hl Hall] Hd]. split; [exact Hl|]. split; [|now apply distinct_NoDup].
    intros a Ha. apply Nat.ltb_lt. now apply Hall.
  - intros [Hl [Hall Hd]]. split; [split; [exact Hl|]|now apply NoDup_distinct].
    intros a Ha. apply Nat.ltb_lt. now apply Hall.
Qed.

Lemma position_found (m : nat) (axes : list nat) :
  In m axes -> position m axes < length axes /\ nth (position m axes) axes 0 = m.
Proof.
  induction axes as [|a axes IH]; simpl; [intros []|]. intros H.
  destruct (Nat.eqb_spec a m) as [E|N]; [split; [lia|exact E]|].
  destruct H as [H|H]; [contradiction|]. destruct (IH H). split; [lia|assumption].
Qed.

Lemma position_nth (axes : list nat) (p : nat) :
  NoDup axes -> p < length axes -> position (nth p axes 0) axes = p.
Proof.
  intros Hnd. revert p; induction Hnd as [|a axes Ha _ IH]; intros p Hp; simpl in Hp;
    [lia|].
  destruct p as [|p]; simpl.
  - now rewrite Nat.eqb_refl.
  - destruct (Nat.eqb_spec a (nth p axes 0)) as [E|_].
    + exfalso. apply Ha. rewrite E. apply nth_In. lia.
    + f_equal. apply IH. lia.
Qed.

(** Axes that pass the checks name every dimension. *)
Lemma permutation_onto (axes : list nat) (k m : nat) :
  is_permutation axes k = true -> m < k -> In m axes.
Proof.
  intros H Hm. apply is_permutation_spec in H. destruct H as [Hl [Hall Hnd]].
  apply (NoDup_length_incl Hnd (l' := seq 0 k)).
  - rewrite length_seq. lia.
  - intros a Ha. rewrite Forall_forall in Hall. apply in_seq. specialize (Hall a Ha). lia.
  - apply in_seq. lia.
Qed.

Lemma length_permute (axes l : list nat) : length (permute axes l) = length axes.
Proof. unfold permute. apply length_map. Qed.

Lemma nth_permute (axes l : list nat) (p : nat) :
  p < length axes -> nth p (permute axes l) 0 = nth (nth p axes 0) l 0.
Proof.
  intros Hp. unfold permute.
  rewrite (nth_indep _ 0 (nth 0 l 0)) by now rewrite length_map.
  now rewrite (map_nth (fun a => nth a l 0)).
Qed.

Lemma source_index_is_permute (axes j : list nat) :
  source_index axes j = permute (inverse_axes axes) j.
Proof. unfold source_index, permute, inverse_axes. now rewrite map_map. Qed.

(** Going to the index of the transpose and back. *)
Lemma source_of_permute (axes i : list nat) :
  is_permutation axes (length i) = true ->
  source_index axes (permute axes i) = i.
Proof.
  intros H. pose proof H as H'. apply is_permutation_spec in H'.
  destruct H' as [Hl _].
  unfold source_index. rewrite Hl. rewrite <- (map_nth_seq_id i) at 2.
  apply map_ext_in. intros m Hm. apply in_seq in Hm.
  destruct (position_found m axes) as [Hp Hn];
    [apply (permutation_onto axes (length i)); [exact H|lia]|].
  now rewrite nth_permute, Hn.
Qed.

Lemma permute_of_source (axes j : list nat) :
  is_permutation axes (length j) = true ->
  permute axes (source_index axes j) = j.
Proof.
  intros H. pose proof H as H'. apply is_permutation_spec in H'.
  destruct H' as [Hl [Hall Hnd]].
  apply (nth_ext _ _ 0 0); [now rewrite length_permute|].
  intros p Hp. rewrite length_permute in Hp. rewrite nth_permute by exact Hp.
  unfold source_index.
  assert (Ha : nth p axes 0 < length axes).
  { rewrite Forall_forall in Hall. rewrite Hl. apply Hall. now apply nth_In. }
  rewrite (nth_indep _ 0 (nth (position 0 axes) j 0)) by now rewrite length_map, length_seq.
  rewrite (map_nth (fun m => nth (position m axes) j 0)), seq_nth by exact Ha.
  cbn [Nat.add]. now rewrite position_nth.
Qed.

Lemma inverse_axes_is_permutation (axes : list nat) (k : nat) :
  is_permutation axes k = true -> is_permutation (inverse_axes axes) k = true.
Proof.
  intros H. pose proof H as H'. apply is_permutation_spec in H'.
  destruct H' as [Hl [Hall Hnd]].
  apply is_permutation_spec. unfold inverse_axes. rewrite Hl.
  split; [now rewrite length_map, length_seq|]. split.
  - rewrite Forall_map. apply Forall_forall. intros m Hm. apply in_seq in Hm.
    destruct (position_found m axes) as [Hp _];
      [apply (permutation_onto axes k); [exact H|lia]|]. lia.
  - assert (Hinj : forall a b, In a (seq 0 k) -> In b (seq 0 k) ->
                     position a axes = position b axes -> a = b).
    { intros a b Ha Hb E. apply in_seq in Ha, Hb.
      destruct (position_found a axes) as [_ Na];
        [apply (permutation_onto axes k); [exact H|lia]|].
      destruct (position_found b axes) as [_ Nb];
        [apply (permutation_onto axes k); [exact H|lia]|].
      rewrite <- Na, <- Nb, E. reflexivity. }
    revert Hinj. generalize (seq_NoDup k 0). generalize (seq 0 k) as l.
    induction l as [|a l IH]; intros Hl' Hinj; simpl; constructor.
    + intros Hin. apply in_map_iff in Hin. destruct Hin as [b [E Hb]].
      inversion Hl' as [|? ? Ha _]; subst. apply Ha.
      rewrite (Hinj a b); [exact Hb|now left|now right|now symmetry].
    + apply IH; [now inversion Hl'|].
      intros x y Hx Hy. apply Hinj; now right.
Qed.

Lemma in_bounds_permute (axes sh i : list nat) :
  is_permutation axes (length sh) = true ->
  in_bounds sh i = true -> in_bounds (permute axes sh) (permute axes i) = true.
Proof.
  intros H Hi. pose proof H as H'. apply is_permutation_spec in H'.
  destruct H' as [Hl [Hall Hnd]].
  apply in_bounds_spec in Hi. destruct Hi as [Hli Hlt].
  apply in_bounds_spec. rewrite !length_permute. split; [reflexivity|].
  intros p Hp. rewrite !nth_permute by exact Hp. apply Hlt.
  rewrite Forall_forall in Hall. apply Hall. now apply nth_In.
Qed.

(** X21.  [np.arange(a*b*c).reshape((a, b, c))] counts its entries in
    row-major order: the entry [(i, j, k)] is the number [(i*b + j)*c + k],
    as the first print of the cell shows for [(3, 4, 5)].  Reshaping to
    sizes of another number of entries is a [ValueError]. *)
Theorem np_arange_reshape_counts_in_row_major_order (a b c i j k : nat) :
  i < a -> j < b -> k < c ->
  entry (Tensor [a; b; c] (map Z.of_nat (seq 0 (a * b * c)))) [i; j; k]
  = Some (Z.of_nat ((i * b + j) * c + k))
  /\ np_reshape (np_arange (a * b * c)) [a; b; c]
     = Ok (Tensor [a; b; c] (map Z.of_nat (seq 0 (a * b * c))))
  /\ forall sizes, numel sizes <> a * b * c ->
       np_reshape (np_arange (a * b * c)) sizes = Raise ValueError.
Proof.
  intros Hi Hj Hk. split; [|split].
  - unfold entry. cbn [shape data in_bounds offset numel fold_right].
    destruct (Nat.ltb_spec i a); [|lia]. destruct (Nat.ltb_spec j b); [|lia].
    destruct (Nat.ltb_spec k c); [|lia]. cbn [andb].
    rewrite nth_error_map.
    replace (i * (b * (c * 1)) + (j * (c * 1) + (k * 1 + 0)))
      with ((i * b + j) * c + k) by lia.
    assert (Hrow : i * b + j < a * b) by nia.
    assert (Hplace : (i * b + j) * c + k < a * b * c) by nia.
    rewrite (nth_error_nth' _ 0) by (rewrite length_seq; exact Hplace).
    rewrite seq_nth by exact Hplace. reflexivity.
  - unfold np_reshape, np_arange. cbn [shape data numel fold_right].
    replace (a * b * c * 1 =? a * (b * (c * 1))) with true
      by (symmetry; apply Nat.eqb_eq; lia).
    reflexivity.
  - intros sizes Hne. unfold np_reshape, np_arange. cbn [shape numel fold_right].
    destruct (Nat.eqb_spec (a * b * c * 1) (numel sizes)) as [E|_]; [lia|reflexivity].
Qed.

(** X21 on the array of the cell: its last entry. *)
Lemma np_arange_reshape_counts_in_row_major_order_witness :
  entry (Tensor [3; 4; 5] (map Z.of_nat (seq 0 60))) [2; 3; 4] = Some 59%Z
  /\ np_reshape (np_arange 60) [3; 4; 5]
     = Ok (Tensor [3; 4; 5] (map Z.of_nat (seq 0 60)))
  /\ forall sizes, numel sizes <> 60 ->
       np_reshape (np_arange 60) sizes = Raise ValueError.
Proof.
  apply (np_arange_reshape_counts_in_row_major_order 3 4 5 2 3 4); lia.
Defined.

(** The transpose of a well-formed array along axes that pass the checks. *)
Lemma np_transpose_entries {A} (a : tensor A) (axes : list nat) :
  wf_tensor a -> is_permutation axes (length (shape a)) = true ->
  exists t,
    np_transpose a axes = Ok t
    /\ shape t = permute axes (shape a)
    /\ wf_tensor t
    /\ forall i, in_bounds (shape a) i = true ->
         in_bounds (shape t) (permute axes i) = true
         /\ entry t (permute axes i) = entry a i.
Proof.
  intros Hw Hp. unfold np_transpose. rewrite Hp.
  pose proof Hp as Hp'. apply is_permutation_spec in Hp'. destruct Hp' as [Hl [Hall Hnd]].
  assert (Hsrc : forall j, in_bounds (permute axes (shape a)) j = true ->
                   in_bounds (shape a) (source_index axes j) = true).
  { intros j Hj. pose proof Hj as Hj'. apply in_bounds_spec in Hj'.
    destruct Hj' as [Hlj _]. rewrite length_permute in Hlj.
    rewrite <- (permute_of_source axes j) in Hj by (now rewrite Hlj, Hl).
    apply in_bounds_spec in Hj. destruct Hj as [_ Hlt]. rewrite length_permute in Hlt.
    apply in_bounds_spec. unfold source_index at 1.
    rewrite length_map, length_seq. split; [exact Hl|].
    intros m Hm.
    destruct (position_found m axes) as [Hpos Hn];
      [apply (permutation_onto axes (length (shape a))); assumption|].
    specialize (Hlt (position m axes) Hpos).
    rewrite !nth_permute, Hn in Hlt by exact Hpos. exact Hlt. }
  destruct (all_some_defined
              (fun j => nth_error (data a) (offset (shape a) (source_index axes j)))
              (indices (permute axes (shape a)))) as [d Ed].
  { intros j Hj. apply in_bounds_indices in Hj. apply Hsrc in Hj.
    apply nth_error_Some. unfold wf_tensor in Hw. rewrite Hw. now apply offset_lt. }
  rewrite Ed. pose proof Ed as Ed'. apply all_some_spec in Ed'.
  eexists. split; [reflexivity|]. cbn [shape data]. split; [reflexivity|].
  assert (Hlen : length d = numel (permute axes (shape a))).
  { apply (f_equal (@List.length _)) in Ed'.
    now rewrite !length_map, length_indices in Ed'. }
  split; [exact Hlen|].
  intros i Hi.
  pose proof (in_bounds_permute axes (shape a) i Hp Hi) as Hb.
  split; [exact Hb|].
  unfold entry. cbn [shape data]. rewrite Hb, Hi.
  assert (E : nth_error (map Some d) (offset (permute axes (shape a)) (permute axes i))
              = Some (nth_error (data a) (offset (shape a) i))).
  { rewrite <- Ed', nth_error_map, (nth_error_indices _ _ Hb). cbn [option_map].
    rewrite source_of_permute; [reflexivity|].
    apply in_bounds_spec in Hi. destruct Hi as [Hli _]. now rewrite Hli. }
  rewrite nth_error_map in E.
  destruct (nth_error d _) as [v|]; [|discriminate]. now inversion E.
Qed.

(** X22.  [np.transpose(a, axes)] on a well-formed array.  When the axes
    pass its checks, dimension [k] of the result has the size of dimension
    [axes[k]] of [a], and the entry of [a] at an index [i] is the entry of
    the result at the index [(i[axes[0]], i[axes[1]], ...)]: with the axes
    [[2, 0, 1]] of the cell, [x[i, j, k]] is found at [[k, i, j]].  When
    they do not, the call is a [ValueError]. *)
Theorem np_transpose_moves_every_entry {A} (a : tensor A) (axes : list nat) :
  wf_tensor a ->
  if is_permutation axes (length (shape a))
  then exists t,
         np_transpose a axes = Ok t
         /\ shape t = permute axes (shape a)
         /\ wf_tensor t
         /\ forall i, in_bounds (shape a) i = true ->
              in_bounds (shape t) (permute axes i) = true
              /\ entry t (permute axes i) = entry a i
  else np_transpose a axes = Raise ValueError.
Proof.
  intros Hw. destruct (is_permutation axes (length (shape a))) eqn:Hp.
  - now apply np_transpose_entries.
  - unfold np_transpose. now rewrite Hp.
Qed.

(** X22 on the array of the cell and its axes: [x[2, 3, 4]], the number
    59, stands at [[4, 2, 3]] of the transpose. *)
Lemma np_transpose_moves_every_entry_witness :
  exists t,
    np_transpose (Tensor [3; 4; 5] (map Z.of_nat (seq 0 60))) [2; 0; 1] = Ok t
    /\ shape t = [5; 3; 4]
    /\ wf_tensor t
    /\ forall i, in_bounds [3; 4; 5] i = true ->
         in_bounds (shape t) (permute [2; 0; 1] i) = true
         /\ entry t (permute [2; 0; 1] i)
            = entry (Tensor [3; 4; 5] (map Z.of_nat (seq 0 60))) i.
Proof.
  assert (Hw : wf_tensor (Tensor [3; 4; 5] (map Z.of_nat (seq 0 60))))
    by reflexivity.
  exact (np_transpose_moves_every_entry
           (Tensor [3; 4; 5] (map Z.of_nat (seq 0 60))) [2; 0; 1] Hw).
Defined.

(** X23.  A transpose is undone by the transpose along the inverse axes:
    for the axes [[2, 0, 1]] of the cell these are [[1, 2, 0]].  The second
    transpose returns the array the first one was given, sizes and entries. *)
Theorem np_transpose_is_undone_along_the_inverse_axes {A} (a : tensor A)
        (axes : list nat) :
  wf_tensor a -> is_permutation axes (length (shape a)) = true ->
  exists t,
    np_transpose a axes = Ok t
    /\ np_transpose t (inverse_axes axes) = Ok a.
Proof.
  intros Hw Hp.
  pose proof Hp as Hp'. apply is_permutation_spec in Hp'. destruct Hp' as [Hl _].
  destruct (np_transpose_entries a axes Hw Hp) as [t [Et [Hst [Hwt Hall]]]].
  exists t. split; [exact Et|].
  assert (Hlt : length (shape t) = length (shape a)).
  { now rewrite Hst, length_permute. }
  assert (Hq : is_permutation (inverse_axes axes) (length (shape t)) = true).
  { rewrite Hlt. now apply inverse_axes_is_permutation. }
  destruct (np_transpose_entries t (inverse_axes axes) Hwt Hq)
    as [u [Eu [Hsu [Hwu Hall']]]].
  rewrite Eu. f_equal.
  assert (Hback : forall l, length l = length (shape a) ->
                    permute (inverse_axes axes) (permute axes l) = l).
  { intros l Hll. rewrite <- source_index_is_permute.
    apply source_of_permute. now rewrite Hll. }
  assert (Hsua : shape u = shape a).
  { rewrite Hsu, Hst. now apply Hback. }
  apply tensor_ext; try assumption.
  intros idx Hidx. rewrite Hsua in Hidx.
  destruct (Hall idx Hidx) as [Hb1 E1].
  destruct (Hall' (permute axes idx) Hb1) as [_ E2].
  rewrite Hback in E2; [congruence|].
  apply in_bounds_spec in Hidx. now destruct Hidx.
Qed.

(** X23 on the array of the cell. *)
Lemma np_transpose_is_undone_along_the_inverse_axes_witness :
  inverse_axes [2; 0; 1] = [1; 2; 0]
  /\ exists t,
       np_transpose (Tensor [3; 4; 5] (map Z.of_nat (seq 0 60))) [2; 0; 1] = Ok t
       /\ np_transpose t [1; 2; 0] = Ok (Tensor [3; 4; 5] (map Z.of_nat (seq 0 60))).
Proof.
  split; [reflexivity|].
  apply (np_transpose_is_undone_along_the_inverse_axes
           (Tensor [3; 4; 5] (map Z.of_nat (seq 0 60))) [2; 0; 1]); reflexivity.
Defined.

(** ** The gradient of the mean of the squares *)

Lemma map2_repeat_l {X Y Z} (f : X -> Y -> Z) (x : X) (ys : list Y) :
  map2 f (repeat x (length ys)) ys = map (f x) ys.
Proof.
  unfold map2. induction ys as [|y ys IH]; [reflexivity|].
  cbn [length repeat combine map fst snd]. now rewrite IH.
Qed.

(** X24.  The autograd cells of "Training Neural Networks", for every
    tensor [x] that has an entry.  [y = x**2] was made by [PowBackward0]
    and [z = y.mean()] by [MeanBackward0]; [z.backward()] leaves in
    [x.grad] a tensor of the sizes of [x] whose entries are [2*x/n], for
    the number [n] of entries of [x]; and for the four entries of the cell
    this is [x/2], the tensor the cell prints beside it. *)
Theorem backward_of_the_mean_of_squares (x : tensor Q) :
  data x <> [] ->
  let y := PowBackward0 (Leaf true x) 2 in
  let z := MeanBackward0 y in
  grad_fn y = Some "PowBackward0"
  /\ grad_fn z = Some "MeanBackward0"
  /\ (numel (shape x) <> 1 -> backward y = Raise RuntimeError)
  /\ exists grad,
       backward z = Ok grad
       /\ shape grad = shape x
       /\ Forall2 Qeq (data grad)
            (map (fun q => (2 * q / of_nat_Q (length (data x)))%Q) (data x))
       /\ (length (data x) = 4 ->
           exists half,
             value_of (DivBackward0 (Leaf true x) 2) = Ok half
             /\ shape half = shape x
             /\ Forall2 Qeq (data grad) (data half)).
Proof.
  intros Hne y z. split; [reflexivity|]. split; [reflexivity|]. split.
  - intros H1. unfold backward. cbn [requires_grad y value_of rbind shape].
    destruct (Nat.eqb_spec (numel (shape x)) 1); [contradiction|reflexivity].
  - unfold backward, z, y. cbn [requires_grad value_of rbind shape data].
    destruct (map (fun q => Qpow q 2) (data x)) as [|s ss] eqn:Esq.
    { destruct (data x); [contradiction|discriminate]. }
    rewrite <- Esq. clear s ss Esq.
    cbn [shape numel fold_right Nat.eqb rbind backprop value_of data leaf_of].
    rewrite length_map, map2_repeat_l.
    eexists. split; [reflexivity|]. cbn [shape data]. split; [reflexivity|].
    assert (Hn : ~ (of_nat_Q (length (data x)) == 0)%Q).
    { apply of_nat_Q_nonzero. destruct (data x); [contradiction|simpl; lia]. }
    split.
    + generalize (of_nat_Q (length (data x))) Hn. intros n Hn'.
      clear Hne Hn. induction (data x) as [|q qs IH]; [constructor|].
      constructor; [|exact IH].
      unfold Qpow. cbn [Nat.sub Z.of_nat]. unfold of_nat_Q.
      change (inject_Z (Z.of_nat 2)) with 2%Q.
      change (Qpower q (Z.pos 1)) with q. field. exact Hn'.
    + intros H4. change (Qeq_bool 2 0) with false.
      eexists. split; [reflexivity|]. cbn [shape data]. split; [reflexivity|].
      rewrite H4.
      clear Hne Hn H4. induction (data x) as [|q qs IH]; [constructor|].
      constructor; [|exact IH].
      unfold Qpow. cbn [Nat.sub Z.of_nat]. unfold of_nat_Q.
      change (inject_Z (Z.of_nat 2)) with 2%Q.
      change (inject_Z (Z.of_nat 4)) with 4%Q.
      change (Qpower q (Z.pos 1)) with q. field.
Qed.

(** X24 on the tensor the notebook shows, rounded to one decimal. *)
Lemma backward_of_the_mean_of_squares_witness :
  let x := Tensor [2; 2] [- (17 # 10); 24 # 10; - (9 # 10); - (7 # 10)]%Q in
  let y := PowBackward0 (Leaf true x) 2 in
  let z := MeanBackward0 y in
  grad_fn y = Some "PowBackward0"
  /\ grad_fn z = Some "MeanBackward0"
  /\ (numel (shape x) <> 1 -> backward y = Raise RuntimeError)
  /\ exists grad,
       backward z = Ok grad
       /\ shape grad = shape x
       /\ Forall2 Qeq (data grad)
            (map (fun q => (2 * q / of_nat_Q (length (data x)))%Q) (data x))
       /\ (length (data x) = 4 ->
           exists half,
             value_of (DivBackward0 (Leaf true x) 2) = Ok half
             /\ shape half = shape x
             /\ Forall2 Qeq (data grad) (data half)).
Proof.
  apply (backward_of_the_mean_of_squares
           (Tensor [2; 2] [- (17 # 10); 24 # 10; - (9 # 10); - (7 # 10)]%Q)).
  discriminate.
Defined.

Lemma Rsum_app (xs ys : list R) : Rsum (xs ++ ys) = (Rsum xs + Rsum ys)%R.
Proof. induction xs as [|x xs IH]; simpl; [lra|]. rewrite IH. lra. Qed.

Lemma Q2R_of_nat_Q (n : nat) : Q2R (of_nat_Q n) = INR n.
Proof.
  unfold of_nat_Q, Q2R, inject_Z. cbn [Qnum Qden].
  rewrite INR_IZR_INZ. field.
Qed.

(** The derivative of the mean of the squares by one of the entries. *)
Lemma mean_of_squares_derivative (xs : list R) (i : nat) (v : R) :
  i < length xs ->
  derivable_pt_lim (fun t => mean_of_squares (with_entry xs i t)) v
                   (2 * v / INR (length xs))%R.
Proof.
  intros Hi.
  set (A := Rsum (map (fun v => v * v)%R (firstn i xs))).
  set (B := Rsum (map (fun v => v * v)%R (skipn (S i) xs))).
  set (N := INR (length xs)).
  assert (HN : (N <> 0)%R).
  { unfold N. apply not_0_INR. lia. }
  assert (Hf : forall t, mean_of_squares (with_entry xs i t)
                         = mult_real_fct (/ N) (fct_cte A + (id * id + fct_cte B))%F t).
  { intros t. unfold mean_of_squares, with_entry.
    rewrite map_app, Rsum_app. cbn [map Rsum fold_right].
    fold (Rsum (map (fun v0 => (v0 * v0)%R) (skipn (S i) xs))).
    rewrite length_app, length_firstn. cbn [length]. rewrite length_skipn.
    replace (Nat.min i (length xs) + S (length xs - S i)) with (length xs) by lia.
    fold A B N. unfold mult_real_fct, plus_fct, mult_fct, fct_cte, id.
    field. exact HN. }
  assert (Hd : derivable_pt_lim
                 (mult_real_fct (/ N) (fct_cte A + (id * id + fct_cte B))%F) v
                 (/ N * (0 + ((1 * id v + id v * 1) + 0)))%R).
  { apply derivable_pt_lim_scal. apply derivable_pt_lim_plus.
    - apply derivable_pt_lim_const.
    - apply derivable_pt_lim_plus.
      + apply derivable_pt_lim_mult; apply derivable_pt_lim_id.
      + apply derivable_pt_lim_const. }
  replace (2 * v / N)%R with (/ N * (0 + ((1 * id v + id v * 1) + 0)))%R
    by (unfold id; field; exact HN).
  intros eps Heps. destruct (Hd eps Heps) as [delta Hdelta].
  exists delta. intros h Hh Hlt. rewrite !Hf. now apply Hdelta.
Qed.

(** X25.  The gradient that [z.backward()] leaves in [x.grad] is the
    gradient of [z]: taken as real numbers, its entry [i] is the derivative
    of the mean of the squares of the entries of [x] by entry [i]. *)
Theorem backward_computes_the_partial_derivatives (x : tensor Q) (i : nat) (q : Q) :
  nth_error (data x) i = Some q ->
  exists grad g,
    backward (MeanBackward0 (PowBackward0 (Leaf true x) 2)) = Ok grad
    /\ nth_error (data grad) i = Some g
    /\ derivable_pt_lim
         (fun t => mean_of_squares (with_entry (map Q2R (data x)) i t))
         (Q2R q) (Q2R g).
Proof.
  intros Hq.
  assert (Hne : data x <> []) by (intros E; rewrite E in Hq; destruct i; discriminate).
  assert (Hi : i < length (data x)) by (apply nth_error_Some; congruence).
  unfold backward. cbn [requires_grad value_of rbind shape data].
  destruct (map (fun q => Qpow q 2) (data x)) as [|s ss] eqn:Esq.
  { destruct (data x); [contradiction|discriminate]. }
  rewrite <- Esq. clear s ss Esq.
  cbn [shape numel fold_right Nat.eqb rbind backprop value_of data leaf_of].
  rewrite length_map, map2_repeat_l.
  eexists. eexists. split; [reflexivity|]. cbn [data].
  split; [rewrite nth_error_map, Hq; reflexivity|].
  assert (Hn : ~ (of_nat_Q (length (data x)) == 0)%Q).
  { apply of_nat_Q_nonzero. lia. }
  assert (E : Q2R (1 / of_nat_Q (length (data x)) * (of_nat_Q 2 * Qpow q (2 - 1)))
              = (2 * Q2R q / INR (length (map Q2R (data x))))%R).
  { rewrite length_map.
    transitivity (Q2R (2 * q / of_nat_Q (length (data x)))).
    - apply Qreals.Qeq_eqR. unfold Qpow. cbn [Nat.sub Z.of_nat]. unfold of_nat_Q at 2.
      change (inject_Z (Z.of_nat 2)) with 2%Q.
      change (Qpower q (Z.pos 1)) with q. field. exact Hn.
    - rewrite Qreals.Q2R_div by exact Hn. rewrite Qreals.Q2R_mult, Q2R_of_nat_Q.
      replace (Q2R 2) with 2%R by (unfold Q2R; simpl; field). reflexivity. }
  rewrite E. apply mean_of_squares_derivative. now rewrite length_map.
Qed.

(** X25 on the first entry of the tensor the notebook shows. *)
Lemma backward_computes_the_partial_derivatives_witness :
  exists grad g,
    backward (MeanBackward0 (PowBackward0
                (Leaf true (Tensor [2; 2] [- (17 # 10); 24 # 10; - (9 # 10); - (7 # 10)]%Q)) 2))
    = Ok grad
    /\ nth_error (data grad) 0 = Some g
    /\ derivable_pt_lim
         (fun t => mean_of_squares
                     (with_entry (map Q2R [- (17 # 10); 24 # 10; - (9 # 10); - (7 # 10)]%Q)
                                 0 t))
         (Q2R (- (17 # 10))) (Q2R g).
Proof.
  apply (backward_computes_the_partial_derivatives
           (Tensor [2; 2] [- (17 # 10); 24 # 10; - (9 # 10); - (7 # 10)]%Q) 0
           (- (17 # 10))%Q).
  reflexivity.
Defined.

(** ** Why the images are flattened *)

(** X26.  The sequential networks of "Training Neural Networks" start with
    a linear layer of 784 inputs, which acts on the last dimension.  Given
    a tensor whose last dimension is not 784, a batch of images of sizes
    (64, 1, 28, 28) as the loader yields it for one, both networks raise
    [RuntimeError]: the cells have to flatten the images first. *)
Theorem the_sequential_networks_refuse_images_that_are_not_flattened
        (rand : string -> list nat -> list R) (g : rng) (x : tensor R) :
  last (shape x) 0 <> 784 ->
  Sequential_forward (model_logits rand) g x = Raise RuntimeError
  /\ Sequential_forward (model_logps rand) g x = Raise RuntimeError.
Proof.
  intros Hlast.
  assert (E : forall w b, linear 784 128 w b x = Raise RuntimeError).
  { intros w b. unfold linear.
    destruct (rev (shape x)) as [|c lead] eqn:Er; [reflexivity|].
    destruct (Nat.eqb_spec c 784) as [Ec|_]; [|reflexivity].
    exfalso. apply Hlast.
    rewrite <- (rev_involutive (shape x)), Er. cbn [rev].
    now rewrite last_last. }
  unfold Sequential_forward, model_logits, model_logps, Sequential.
  cbn [modules training numbered call_all]. unfold nn_Linear at 1 4.
  cbn [call call_layer]. rewrite !E. split; reflexivity.
Qed.

(** X26 on a batch of 64 images of sizes (1, 28, 28). *)
Lemma the_sequential_networks_refuse_images_that_are_not_flattened_witness :
  Sequential_forward (model_logits zeros_R) (mkRng (fun _ => true) 0)
    (Tensor [64; 1; 28; 28] (repeat 0%R (64 * 784)))
  = Raise RuntimeError
  /\ Sequential_forward (model_logps zeros_R) (mkRng (fun _ => true) 0)
       (Tensor [64; 1; 28; 28] (repeat 0%R (64 * 784)))
     = Raise RuntimeError.
Proof.
  apply (the_sequential_networks_refuse_images_that_are_not_flattened zeros_R
           (mkRng (fun _ => true) 0) (Tensor [64; 1; 28; 28] (repeat 0%R (64 * 784)))).
  cbn [shape last]. intros H. apply (f_equal (fun n => n =? 28)) in H.
  vm_compute in H. discriminate.
Defined.

(** ** Dropout in evaluation mode *)

(** X27.  After [model.eval()] the classifier with dropout that the text of
    the notebook shows is the classifier of cell 2 with the same weights:
    on every tensor the two forward passes give the same output or the same
    error, and the random generator is not used. *)
Theorem dropout_does_nothing_in_evaluation_mode
        (rand : string -> list nat -> list R) (g : rng) (x : tensor R) :
  Classifier_shown_forward (train (Classifier_shown rand) false) g x
  = Classifier_forward (Classifier rand) g x
  /\ match Classifier_shown_forward (train (Classifier_shown rand) false) g x with
     | Ok (_, g') => g' = g
     | Raise _ => True
     end.
Proof.
  unfold Classifier_shown_forward, Classifier_forward.
  destruct (shape0 x) as [n|e]; [|split; reflexivity]. cbn [rbind].
  destruct (view_infer x n) as [flat|e]; [|split; reflexivity]. cbn [rbind].
  change (getattr (train (Classifier_shown rand) false) "dropout")
    with (Ok (AModule (@Dropout R (2 # 10)))).
  change (getattr (train (Classifier_shown rand) false) "fc1")
    with (Ok (AModule (nn_Linear rand "fc1" 784 256))).
  change (getattr (train (Classifier_shown rand) false) "fc2")
    with (Ok (AModule (nn_Linear rand "fc2" 256 128))).
  change (getattr (train (Classifier_shown rand) false) "fc3")
    with (Ok (AModule (nn_Linear rand "fc3" 128 64))).
  change (getattr (train (Classifier_shown rand) false) "fc4")
    with (Ok (AModule (nn_Linear rand "fc4" 64 10))).
  change (getattr (Classifier rand) "fc1")
    with (Ok (AModule (nn_Linear rand "fc1" 784 256))).
  change (getattr (Classifier rand) "fc2")
    with (Ok (AModule (nn_Linear rand "fc2" 256 128))).
  change (getattr (Classifier rand) "fc3")
    with (Ok (AModule (nn_Linear rand "fc3" 128 64))).
  change (getattr (Classifier rand) "fc4")
    with (Ok (AModule (nn_Linear rand "fc4" 64 10))).
  change (training (train (Classifier_shown rand) false)) with false.
  change (training (Classifier rand)) with true.
  cbn [rbind]. unfold nn_Linear. cbn [call call_layer dropout].
  destruct (linear 784 256 _ _ flat) as [h1|e]; [|split; reflexivity].
  cbn [rbind fst snd].
  destruct (linear 256 128 _ _ (relu h1)) as [h2|e]; [|split; reflexivity].
  cbn [rbind fst snd].
  destruct (linear 128 64 _ _ (relu h2)) as [h3|e]; [|split; reflexivity].
  cbn [rbind fst snd].
  destruct (linear 64 10 _ _ (relu h3)) as [h4|e]; [|split; reflexivity].
  cbn [rbind fst snd].
  destruct (log_softmax h4 1) as [out|e]; split; reflexivity.
Qed.

(** ** The values the loaders yield *)

(** X2.  The transform of the data sets takes a grey image of [h] by [w]
    pixels to a tensor of sizes (1, h, w) and the pixel [p], a byte, to
    [(2*p - 255)/255]: the entries lie between -1 and 1, black is -1 and
    white is 1. *)
Theorem transform_takes_the_pixels_into_minus_one_to_one (img : image) :
  shape (transform img) = [1; height img; width img]
  /\ length (data (transform img)) = length (pixels img)
  /\ forall k p, nth_error (pixels img) k = Some p ->
       exists v,
         nth_error (data (transform img)) k = Some v
         /\ (v == (2 * of_nat_Q (Byte.to_nat p) - 255) / 255)%Q
         /\ (- (1) <= v)%Q /\ (v <= 1)%Q
         /\ (Byte.to_nat p = 0 -> (v == - (1))%Q)
         /\ (Byte.to_nat p = 255 -> (v == 1)%Q).
Proof.
  split; [reflexivity|]. split.
  - unfold transform, Normalize, ToTensor. cbn [data]. now rewrite !length_map.
  - intros k p Hp. unfold transform, Normalize, ToTensor. cbn [data].
    rewrite map_map, nth_error_map, Hp. cbn [option_map].
    eexists. split; [reflexivity|].
    pose proof (Byte.to_nat_bounded p) as Hb.
    set (n := Byte.to_nat p) in *.
    assert (E : ((of_nat_Q n / 255 - (1 # 2)) / (1 # 2) == (2 * of_nat_Q n - 255) / 255)%Q)
      by field.
    split; [exact E|]. rewrite E.
    split; [|split; [|split]].
    + apply Qle_shift_div_l; [reflexivity|].
      unfold of_nat_Q, Qle, Qmult, Qminus, Qplus, Qopp, inject_Z. cbn [Qnum Qden]. lia.
    + apply Qle_shift_div_r; [reflexivity|].
      unfold of_nat_Q, Qle, Qmult, Qminus, Qplus, Qopp, inject_Z. cbn [Qnum Qden]. lia.
    + intros E0. rewrite E0. reflexivity.
    + intros E1. rewrite E1. reflexivity.
Qed.

(** ** The training cell after cell 13 *)


